(** * BAIS (Bank Application Inventory System): graph builder, analytics
      engine and demo data generator

    A shallow embedding of three Python modules of the repository and the
    properties stated about them:

    - [bank_inventory_explorer_modules/graph.py]     (module [Graph]),
    - [bank_inventory_explorer_modules/analytics.py] (module [Analytics]),
    - [generate_demo_data.d/00_generate_editable_seed_spreadsheet.py]
      (module [Generator]).

    Conventions of the embedding.
    - Python [int] is [Z]; Python [str] is [string] (the code only handles
      ASCII text: host names, addresses, labels), [str.lower] is the ASCII
      lower-casing and [a in b] on strings is the substring test [str_in].
    - Python [float] values are only compared, stored or averaged; they are
      rationals [Q] here.  A draw of [random.random()] is a dyadic rational of
      [0, 1).
    - A [dict] that is only looked up is a [gmap]; a [dict] whose key order is
      iterated is an association list; a [set] is a [gset].
    - The [random] module and [datetime.now()] are the two inputs of the
      generator besides its arguments: they are threaded through a state and
      error monad ([Generator.M]).
    - [print] and [logger] calls have no effect on the values studied and are
      left out. *)

From Stdlib Require Import ZArith QArith String Ascii List Lia.
From stdpp Require Import gmap strings list.

Local Open Scope string_scope.
Local Open Scope list_scope.
Local Open Scope Z_scope.

(* ===================================================================== *)
(** * Python strings *)
(* ===================================================================== *)

Module PyStr.

(** [c.lower()] for one ASCII character. *)
Definition lower_ascii (c : ascii) : ascii :=
  let n := nat_of_ascii c in
  if ((65 <=? n)%nat && (n <=? 90)%nat)%bool then ascii_of_nat (n + 32) else c.

(** [s.lower()] *)
Fixpoint lower (s : string) : string :=
  match s with
  | EmptyString => EmptyString
  | String c s' => String (lower_ascii c) (lower s')
  end.

(** [s.startswith(p)] *)
Fixpoint starts_with (p s : string) : bool :=
  match p, s with
  | EmptyString, _ => true
  | String a p', String b s' => if Ascii.eqb a b then starts_with p' s' else false
  | String _ _, EmptyString => false
  end.

(** [p in s]: [p] occurs in [s] as a substring. *)
Fixpoint str_in (p s : string) : bool :=
  if starts_with p s then true
  else match s with
       | EmptyString => false
       | String _ s' => str_in p s'
       end.

(** [any(x in s for x in ps)] *)
Definition any_in (ps : list string) (s : string) : bool :=
  existsb (fun p => str_in p s) ps.

(** The decimal digits of a natural number, most significant first. *)
Definition digit_char (d : nat) : ascii := ascii_of_nat (48 + d).

Fixpoint digits_fuel (fuel n : nat) (acc : string) : string :=
  match fuel with
  | O => acc
  | S fuel' =>
      let acc' := String (digit_char (n mod 10)) acc in
      if (n <? 10)%nat then acc' else digits_fuel fuel' (n / 10) acc'
  end.

Definition nat_digits (n : nat) : string := digits_fuel (S n) n EmptyString.

(** [str(z)] for an [int]. *)
Definition str_int (z : Z) : string :=
  if z <? 0 then String "-" (nat_digits (Z.to_nat (- z)))
  else nat_digits (Z.to_nat z).

(** Left padding with ['0'] up to [width] characters. *)
Fixpoint zeros (k : nat) : string :=
  match k with O => EmptyString | S k' => String "0" (zeros k') end.

Definition zfill (width : nat) (s : string) : string :=
  String.append (zeros (width - String.length s)) s.

(** [f"{z:0{width}d}"]: the sign comes first and counts in the width. *)
Definition fmt_d (width : nat) (z : Z) : string :=
  if z <? 0 then String "-" (zfill (width - 1) (nat_digits (Z.to_nat (- z))))
  else zfill width (nat_digits (Z.to_nat z)).

(** Upper-case hexadecimal digits, for [f"{z:02X}"]. *)
Definition hex_char (d : nat) : ascii :=
  if (d <? 10)%nat then ascii_of_nat (48 + d) else ascii_of_nat (55 + d).

Fixpoint hex_fuel (fuel n : nat) (acc : string) : string :=
  match fuel with
  | O => acc
  | S fuel' =>
      let acc' := String (hex_char (n mod 16)) acc in
      if (n <? 16)%nat then acc' else hex_fuel fuel' (n / 16) acc'
  end.

Definition fmt_X (width : nat) (z : Z) : string :=
  if z <? 0 then String "-" (zfill (width - 1) (hex_fuel (S (Z.to_nat (- z))) (Z.to_nat (- z)) EmptyString))
  else zfill width (hex_fuel (S (Z.to_nat z)) (Z.to_nat z) EmptyString).

(** [s.split(sep)] for a one-character separator: never the empty list. *)
Fixpoint split_on (sep : ascii) (s : string) : list string :=
  match s with
  | EmptyString => [EmptyString]
  | String c s' =>
      if Ascii.eqb c sep then EmptyString :: split_on sep s'
      else match split_on sep s' with
           | [] => [String c EmptyString]
           | w :: ws => String c w :: ws
           end
  end.

Definition is_digit (c : ascii) : bool :=
  let n := nat_of_ascii c in ((48 <=? n)%nat && (n <=? 57)%nat)%bool.

(** The longest prefix of [s] made of decimal digits. *)
Fixpoint take_digits (s : string) : string :=
  match s with
  | EmptyString => EmptyString
  | String c s' => if is_digit c then String c (take_digits s') else EmptyString
  end.

(** [re.search(r'db(\d+)', s)]: group 1 of the leftmost match, if any.
    The match starts at the leftmost ["db"] that a digit follows, and [\d+]
    is greedy. *)
Fixpoint search_db_digits (s : string) : option string :=
  match s with
  | EmptyString => None
  | String c s' =>
      match (if starts_with "db" s
             then match take_digits (String.substring 2 (String.length s - 2) s) with
                  | EmptyString => None
                  | ds => Some ds
                  end
             else None) with
      | Some ds => Some ds
      | None => search_db_digits s'
      end
  end.

End PyStr.

(* ===================================================================== *)
(** * graph.py: the graph builder *)
(* ===================================================================== *)

Module Graph.
Import PyStr.

(** Values of the columns and node attributes that the code passes along
    or prints with [str]. *)
Inductive pyval :=
  | VNone
  | VInt (z : Z)
  | VStr (s : string).

Definition py_str (v : pyval) : string :=
  match v with
  | VNone => "None"
  | VInt z => str_int z
  | VStr s => s
  end.

(** Values of a cytoscape style dictionary. *)
Inductive sval :=
  | SInt (z : Z)
  | SStr (s : string)
  | SFloat (q : Q).

(** A row of the components DataFrame.  The columns that the code indexes
    with [comp[...]] are fields; those read with [comp.get(..., default)] are
    optional; [columns] holds the columns that are copied to the node
    unchanged. *)
Record component_row := {
  component_id : Z;
  component_type : string;
  physical_location : string;
  fqdn : option string;
  row_ip : option string;
  row_vlan : option pyval;
  child_count : option Z;
  relationship_from_count : option Z;
  relationship_to_count : option Z;
  peer_relationship_count : option Z;
  total_relationship_count : option Z;
  columns : gmap string pyval
}.

(** A row of the relationships DataFrame. *)
Record relationship_row := {
  rel_component_id : Z;
  related_component_id : Z;
  relationship_type : option string
}.

(** [node['data']]: [id] is indexed, the four searched attributes are read
    with [.get(key, '')], the other keys are in [attrs]. *)
Record node_data := {
  id : string;
  name : option string;
  ip : option string;
  vlan : option pyval;
  location : option string;
  attrs : gmap string pyval
}.

Record node := {
  data : node_data;
  style : gmap string sval
}.

Record edge_data := {
  edge_id : string;
  source : string;
  target : string;
  edge_type : string;
  label : string
}.

Record edge := {
  edata : edge_data;
  estyle : gmap string sval
}.

(** The [data] argument of [create_graph_data]: a dictionary of
    DataFrames. *)
Record graph_input := {
  components : option (list component_row);
  relationships : option (list relationship_row)
}.

(** [COMPONENT_COLORS] of config.py. *)
Definition COMPONENT_COLORS : gmap string string :=
  list_to_map
    [ ("Application", "#2E7D32"); ("Database", "#1565C0"); ("Cache", "#B71C1C");
      ("MessageQueue", "#6A1B9A"); ("Storage", "#263238");
      ("LoadBalancer", "#4A148C"); ("Network", "#004D40");
      ("application", "#2E7D32"); ("polyglot_persistence", "#1565C0");
      ("block_level_persistence", "#263238"); ("networking", "#004D40") ].

(** [GraphBuilder._calculate_node_size] *)
Definition calculate_node_size (component : component_row) (sizing_mode : string) : Z :=
  let base_size := 20 in
  let size_multiplier := 2 in
  let max_size := 60 in
  if String.eqb sizing_mode "uniform" then 30
  else
    let count :=
      if String.eqb sizing_mode "hierarchical" then
        default 0 (child_count component)
      else if String.eqb sizing_mode "dependencies" then
        default 0 (relationship_from_count component)
        + default 0 (relationship_to_count component)
      else if String.eqb sizing_mode "peer" then
        default 0 (peer_relationship_count component)
      else
        default 0 (total_relationship_count component) in
    Z.min (base_size + count * size_multiplier) max_size.

Definition opt_val (o : option pyval) (d : pyval) : pyval := default d o.

(** The body of the node loop of [create_graph_data]. *)
Definition create_node (comp : component_row) (sizing_mode : string) : node :=
  let comp_name := default "" (fqdn comp) in
  let comp_location := physical_location comp in
  let fqdn_parts := split_on "." comp_name in
  let short_name := match fqdn_parts with p :: _ => p | [] => comp_name end in
  let label := String.append short_name (String.append "." comp_location) in
  let component_type := component_type comp in
  let color := default "#757575" (COMPONENT_COLORS !! component_type) in
  let node_size := calculate_node_size comp sizing_mode in
  let col k d := default d (columns comp !! k) in
  let px := String.append (str_int node_size) "px" in
  {| data := {|
       id := str_int (component_id comp);
       name := Some (default "" (fqdn comp));
       ip := Some (default "" (row_ip comp));
       vlan := Some (default (VStr "") (row_vlan comp));
       location := Some (physical_location comp);
       attrs := list_to_map
         [ ("label", VStr label);
           ("app_code", col "app_code" (VStr ""));
           ("type", VStr component_type);
           ("subtype", col "component_subtype" (VStr ""));
           ("mac", col "mac" (VStr ""));
           ("port", col "port" (VStr ""));
           ("protocol", col "protocol_name" (VStr ""));
           ("quality", col "record_quality_grade" (VStr ""));
           ("connections", VInt (default 0 (total_relationship_count comp)));
           ("size", VInt node_size);
           ("bgColor", VStr color);
           ("component_id", VInt (component_id comp));
           ("type_id", col "component_type_id" VNone);
           ("subtype_id", col "component_subtype_id" VNone);
           ("location_id", col "physical_location_id" VNone);
           ("protocol_id", col "protocol_id" VNone);
           ("environment_id", col "environment_id" VNone) ] |};
     style := list_to_map
       [ ("border-width", SInt 2);
         ("border-color", SStr "#000000");
         ("border-style", SStr "solid");
         ("color", SStr "#ffffff");
         ("text-outline-width", SInt 2);
         ("text-outline-color", SStr "#000000");
         ("width", SStr px);
         ("height", SStr px);
         ("font-size", SStr "10px") ] |}.

Definition edge_ident (prefix : string) (rel : relationship_row) : string :=
  String.append prefix
    (String.append (str_int (rel_component_id rel))
       (String.append "_" (str_int (related_component_id rel)))).

(** [GraphBuilder._create_dependency_edge] *)
Definition create_dependency_edge (rel : relationship_row) : edge :=
  {| edata := {|
       edge_id := edge_ident "dep_" rel;
       source := str_int (rel_component_id rel);
       target := str_int (related_component_id rel);
       edge_type := "dependency";
       label := default "dependency" (relationship_type rel) |};
     estyle := list_to_map
       [ ("line-color", SStr "#616161");
         ("line-style", SStr "dashed");
         ("target-arrow-color", SStr "#616161");
         ("target-arrow-shape", SStr "triangle");
         ("width", SInt 2);
         ("curve-style", SStr "straight") ] |}.

(** [GraphBuilder._create_peer_edge] *)
Definition create_peer_edge (rel : relationship_row) : edge :=
  {| edata := {|
       edge_id := edge_ident "peer_" rel;
       source := str_int (rel_component_id rel);
       target := str_int (related_component_id rel);
       edge_type := "peer";
       label := default "peer" (relationship_type rel) |};
     estyle := list_to_map
       [ ("line-color", SStr "#757575");
         ("line-style", SStr "dotted");
         ("width", SInt 2);
         ("curve-style", SStr "straight") ] |}.

Definition dependency_types : list string :=
  [ "replicates_from"; "fails_over_to"; "consumes_api_from"; "persists_to";
    "publishes_to"; "subscribes_to"; "proxied_by"; "authenticates_via";
    "monitors" ].

Definition peer_types : list string :=
  [ "collaborates_with"; "peers_with"; "vm_guest_of"; "load_balanced_by";
    "communicates_with" ].

Definition str_mem (s : string) (l : list string) : bool :=
  existsb (String.eqb s) l.

(** The edge loop of [create_graph_data]: a row yields a dependency edge, a
    peer edge, or nothing. *)
Definition create_edges (rels : list relationship_row)
    (show_dependencies show_peer : bool) : list edge :=
  flat_map (fun rel =>
    let rel_type := default "" (relationship_type rel) in
    if (show_dependencies && str_mem rel_type dependency_types)%bool then
      [create_dependency_edge rel]
    else if (show_peer && str_mem rel_type peer_types)%bool then
      [create_peer_edge rel]
    else []) rels.

(** [GraphBuilder.create_graph_data]; [show_hierarchical] is accepted and
    never read. *)
Definition create_graph_data (d : graph_input) (sizing_mode : string)
    (show_hierarchical show_dependencies show_peer : bool) : list node * list edge :=
  match components d with
  | None => ([], [])
  | Some components_df =>
      let nodes := map (fun comp => create_node comp sizing_mode) components_df in
      let edges :=
        match relationships d with
        | Some relationships_df =>
            create_edges relationships_df show_dependencies show_peer
        | None => []
        end in
      (nodes, edges)
  end.

(** The test shared by the two filters: the lower-cased term occurs in the
    lower-cased name, ip, vlan or location of the node. *)
Definition node_matches (search_lower : string) (node_data : node_data) : bool :=
  (str_in search_lower (lower (default "" (name node_data)))
   || str_in search_lower (lower (default "" (ip node_data)))
   || str_in search_lower (lower (py_str (default (VStr "") (vlan node_data))))
   || str_in search_lower (lower (default "" (location node_data))))%bool.

Definition set_style (n : node) (st : gmap string sval) : node :=
  {| data := data n; style := st |}.

(** [node['style']['border-color'] = '#FFD700'; node['style']['border-width'] = 4] *)
Definition highlight (n : node) : node :=
  set_style n (<["border-width" := SInt 4]> (<["border-color" := SStr "#FFD700"]> (style n))).

(** [node['style']['opacity'] = 0.3] *)
Definition fade (n : node) : node :=
  set_style n (<["opacity" := SFloat (3 # 10)]> (style n)).

(** [GraphBuilder.apply_search_filter].  The Python loop updates each node
    in place and returns the list it was given; the result here is that list
    after the loop. *)
Definition apply_search_filter (nodes : list node) (search_term : string) : list node :=
  if String.eqb search_term "" then nodes
  else
    let search_lower := lower search_term in
    map (fun node =>
           if node_matches search_lower (data node) then highlight node
           else fade node) nodes.

(** The first loop of [apply_neighborhood_filter]. *)
Definition matched_ids_of (nodes : list node) (search_lower : string) : gset string :=
  foldl (fun (matched_ids : gset string) node =>
           if node_matches search_lower (data node)
           then matched_ids ∪ {[ id (data node) ]}
           else matched_ids) ∅ nodes.

(** The second loop: the matched ids and the other end of every edge that
    touches one. *)
Definition connected_ids_of (matched_ids : gset string) (edges : list edge) : gset string :=
  foldl (fun (connected_ids : gset string) edge =>
           let source := source (edata edge) in
           let target := target (edata edge) in
           let c1 := if bool_decide (source ∈ matched_ids)
                     then connected_ids ∪ {[ target ]} else connected_ids in
           if bool_decide (target ∈ matched_ids)
           then c1 ∪ {[ source ]} else c1) matched_ids edges.

(** [GraphBuilder.apply_neighborhood_filter] *)
Definition apply_neighborhood_filter (nodes : list node) (edges : list edge)
    (search_term : string) : list node * list edge :=
  if String.eqb search_term "" then (nodes, edges)
  else
    let search_lower := lower search_term in
    let matched_ids := matched_ids_of nodes search_lower in
    if bool_decide (matched_ids = ∅) then (nodes, edges)
    else
      let connected_ids := connected_ids_of matched_ids edges in
      let filtered_nodes :=
        flat_map (fun node =>
          if bool_decide (id (data node) ∈ connected_ids) then
            [ if bool_decide (id (data node) ∈ matched_ids)
              then highlight node else node ]
          else []) nodes in
      let filtered_edges :=
        List.filter (fun edge =>
          (bool_decide (source (edata edge) ∈ connected_ids)
           && bool_decide (target (edata edge) ∈ connected_ids))%bool) edges in
      (filtered_nodes, filtered_edges).

End Graph.

(* ===================================================================== *)
(** * analytics.py: the analytics engine *)
(* ===================================================================== *)

Module Analytics.

(** A cell of a DataFrame loaded from the database: SQL NULL (pandas
    NaN/None), an integer or a text. *)
Inductive cell :=
  | CNull
  | CInt (z : Z)
  | CStr (s : string).

#[export] Instance cell_eq_dec : EqDecision cell.
Proof. solve_decision. Defined.

(** A DataFrame: its column labels and its rows.  A row maps every column
    label to a cell; a label it lacks reads as NULL. *)
Record DataFrame := {
  df_columns : gset string;
  df_rows : list (gmap string cell)
}.

(** [len(df)] *)
Definition df_len (df : DataFrame) : Z := Z.of_nat (length (df_rows df)).

(** [df.empty]: one of the two axes has length 0. *)
Definition df_empty (df : DataFrame) : bool :=
  match df_rows df with
  | [] => true
  | _ :: _ => bool_decide (df_columns df = ∅)
  end.

(** [col in df.columns] *)
Definition has_column (df : DataFrame) (col : string) : bool :=
  bool_decide (col ∈ df_columns df).

(** [df[col]]: [None] stands for the [KeyError] of a missing column. *)
Definition column (df : DataFrame) (col : string) : option (list cell) :=
  if has_column df col
  then Some (map (fun row => default CNull (row !! col)) (df_rows df))
  else None.

Definition not_null (c : cell) : bool :=
  match c with CNull => false | _ => true end.

(** [series.nunique()]: the number of distinct non-null values. *)
Definition nunique (s : list cell) : Z :=
  Z.of_nat (length (remove_dups (List.filter not_null s))).

(** [series.notna().sum()] *)
Definition notna_sum (s : list cell) : Z :=
  Z.of_nat (length (List.filter not_null s)).

(** [(series == v).sum()], also [series.value_counts().get(v, 0)] for a
    non-null [v]. *)
Definition count_eq (v : cell) (s : list cell) : Z :=
  Z.of_nat (length (List.filter (fun c => bool_decide (c = v)) s)).

(** The integers of a numeric series, NULLs skipped; [None] when a cell is
    a text, on which [mean] and [max] raise. *)
Fixpoint numeric_values (s : list cell) : option (list Z) :=
  match s with
  | [] => Some []
  | CNull :: s' => numeric_values s'
  | CInt z :: s' => option_map (cons z) (numeric_values s')
  | CStr _ :: s' => None
  end.

(** A value of the metrics dictionary. *)
Inductive metric :=
  | MInt (z : Z)
  | MFloat (q : Q)
  | MNaN.

Definition sum_Z (l : list Z) : Z := fold_right Z.add 0 l.

(** [series.mean()]: NaN on a series without values. *)
Definition series_mean (s : list cell) : option metric :=
  match numeric_values s with
  | None => None
  | Some [] => Some MNaN
  | Some (z :: zs) =>
      Some (MFloat (inject_Z (sum_Z (z :: zs)) / inject_Z (Z.of_nat (length (z :: zs)))))
  end.

(** [series.max()] *)
Definition series_max (s : list cell) : option metric :=
  match numeric_values s with
  | None => None
  | Some [] => Some MNaN
  | Some (z :: zs) => Some (MInt (fold_right Z.max z zs))
  end.

(** The [data] argument: a dictionary of DataFrames. *)
Record data_dict := {
  components : option DataFrame;
  dependencies : option DataFrame;
  relationships : option DataFrame
}.

(** Exceptions ([KeyError], [TypeError]) are [None] of the option monad,
    with the bind notation [x ← m; k] of stdpp. *)

Abbreviation metrics_dict := (gmap string metric).

(** The steps of [calculate_metrics], in source order; each takes the
    metrics so far. *)
Definition basic_counts (df : DataFrame) (metrics : metrics_dict) : option metrics_dict :=
  let metrics := <["total_components" := MInt (df_len df)]> metrics in
  types ← column df "component_type";
  let metrics := <["component_types" := MInt (nunique types)]> metrics in
  locs ← column df "physical_location";
  Some (<["locations" := MInt (nunique locs)]> metrics).

Definition network_metrics (df : DataFrame) (metrics : metrics_dict) : option metrics_dict :=
  total_vlans ← (if has_column df "vlan"
                  then option_map nunique (column df "vlan") else Some 0);
  let metrics := <["total_vlans" := MInt total_vlans]> metrics in
  with_ip ← (if has_column df "ip"
              then option_map notna_sum (column df "ip") else Some 0);
  Some (<["components_with_ip" := MInt with_ip]> metrics).

Definition protocol_metrics (df : DataFrame) (metrics : metrics_dict) : option metrics_dict :=
  if has_column df "protocol_name" then
    names ← column df "protocol_name";
    let metrics := <["unique_protocols" := MInt (nunique names)]> metrics in
    ids ← column df "protocol_id";
    Some (<["unassigned_protocols" := MInt (count_eq (CInt 999) ids)]> metrics)
  else Some metrics.

Definition mac_metrics (df : DataFrame) (metrics : metrics_dict) : option metrics_dict :=
  if has_column df "mac" then
    macs ← column df "mac";
    let metrics := <["unique_mac_addresses" := MInt (nunique macs)]> metrics in
    Some (<["default_mac_addresses" := MInt (count_eq (CStr "00:00:00:00:00:00") macs)]> metrics)
  else Some metrics.

Definition quality_metrics (df : DataFrame) (metrics : metrics_dict) : option metrics_dict :=
  if has_column df "record_quality_grade" then
    grades ← column df "record_quality_grade";
    let metrics := <["green_records" := MInt (count_eq (CStr "_PT_GREEN_RECORD_") grades)]> metrics in
    let metrics := <["yellow_records" := MInt (count_eq (CStr "_PT_YELLOW_RECORD_") grades)]> metrics in
    Some (<["red_records" := MInt (count_eq (CStr "_PT_RED_RECORD_") grades)]> metrics)
  else Some metrics.

Definition connection_metrics (df : DataFrame) (metrics : metrics_dict) : option metrics_dict :=
  if has_column df "total_relationship_count" then
    counts ← column df "total_relationship_count";
    avg ← series_mean counts;
    let metrics := <["avg_connections" := avg]> metrics in
    mx ← series_max counts;
    let metrics := <["max_connections" := mx]> metrics in
    Some (<["isolated_components" := MInt (count_eq (CInt 0) counts)]> metrics)
  else Some metrics.

Definition dependency_metrics (d : data_dict) (metrics : metrics_dict) : option metrics_dict :=
  match dependencies d with
  | Some deps_df =>
      if df_empty deps_df then Some metrics
      else
        let metrics := <["total_dependencies" := MInt (df_len deps_df)]> metrics in
        consumers ← (if has_column deps_df "component_id"
                      then option_map nunique (column deps_df "component_id") else Some 0);
        let metrics := <["unique_consumers" := MInt consumers]> metrics in
        producers ← (if has_column deps_df "related_component_id"
                      then option_map nunique (column deps_df "related_component_id") else Some 0);
        Some (<["unique_producers" := MInt producers]> metrics)
  | None => Some metrics
  end.

Definition relationship_metrics (d : data_dict) (metrics : metrics_dict) : option metrics_dict :=
  match relationships d with
  | Some rels_df =>
      if df_empty rels_df then Some metrics
      else
        let metrics := <["total_relationships" := MInt (df_len rels_df)]> metrics in
        types ← column rels_df "relationship_type";
        Some (<["relationship_types" := MInt (nunique types)]> metrics)
  | None => Some metrics
  end.

(** [AnalyticsEngine.calculate_metrics] *)
Definition calculate_metrics (d : data_dict) : option metrics_dict :=
  let metrics : metrics_dict := ∅ in
  match components d with
  | None => Some metrics
  | Some components_df =>
      if df_empty components_df then Some metrics
      else
        metrics ← basic_counts components_df metrics;
        metrics ← network_metrics components_df metrics;
        metrics ← protocol_metrics components_df metrics;
        metrics ← mac_metrics components_df metrics;
        metrics ← quality_metrics components_df metrics;
        metrics ← connection_metrics components_df metrics;
        metrics ← dependency_metrics d metrics;
        relationship_metrics d metrics
  end.

End Analytics.

(* ===================================================================== *)
(** * 00_generate_editable_seed_spreadsheet.py: the demo data generator *)
(* ===================================================================== *)

Module Generator.
Import PyStr.

(** ** Arguments and reference data *)

(** [--scale], a key of [scale_configs]. *)
Inductive scale_t := ScaleSmall | ScaleMedium | ScaleLarge.

(** [--app-concentration], a key of [concentration_configs]. *)
Inductive concentration_t := ConcLow | ConcMedium | ConcHigh.

(** The arguments of [DemoDataGenerator.__init__] that the generation
    reads. *)
Record config := {
  scale : scale_t;
  problem_ratio : Q;
  app_concentration : concentration_t;
  pending_ratio : Q
}.

(** An entry of [self.scale_configs]. *)
Record scale_config := {
  total_components : Z;
  app_ratio : Q;
  db_ratio : Q;
  cache_ratio : Q;
  mq_ratio : Q;
  storage_ratio : Q;
  lb_ratio : Q;
  other_ratio : Q
}.

Definition scale_configs (s : scale_t) : scale_config :=
  let mk total :=
    {| total_components := total;
       app_ratio := 60 # 100; db_ratio := 12 # 100; cache_ratio := 8 # 100;
       mq_ratio := 5 # 100; storage_ratio := 8 # 100; lb_ratio := 4 # 100;
       other_ratio := 3 # 100 |} in
  match s with
  | ScaleSmall => mk 50
  | ScaleMedium => mk 200
  | ScaleLarge => mk 500
  end.

(** [self.concentration_configs[c]], as [(min, max)]. *)
Definition concentration_configs (c : concentration_t) : Z * Z :=
  match c with
  | ConcLow => (3, 5)
  | ConcMedium => (8, 12)
  | ConcHigh => (15, 20)
  end.

(** [int(total * ratio)].  The product is exact here; the float product of
    the source truncates to the same integer for the eighteen products of
    [scale_configs]. *)
Definition int_of_product (total : Z) (ratio : Q) : Z :=
  Z.quot (total * Qnum ratio) (Z.pos (Qden ratio)).

(** A dictionary whose key order matters, in insertion order. *)
Definition odict (V : Type) := list (string * V).

Definition odict_get {V} (k : string) (d : odict V) : option V :=
  option_map snd (List.find (fun kv => String.eqb (fst kv) k) d).

Definition odict_has {V} (k : string) (d : odict V) : bool :=
  match odict_get k d with Some _ => true | None => false end.

Definition odict_keys {V} (d : odict V) : list string := map fst d.

(** The lookup tables filled by [load_reference_data]. *)
Record refdata := {
  component_types : gmap string Z;
  component_subtypes : odict Z;
  subtype_parent_map : gmap Z string;
  environments : gmap string Z;
  statuses : gmap string Z;
  abstraction_levels : gmap string Z;
  physical_locations : odict Z;
  relationship_types : gmap string Z;
  protocols : gmap string Z
}.

(** [k in d] for a lookup table. *)
Definition has_key (k : string) (d : gmap string Z) : bool :=
  match d !! k with Some _ => true | None => false end.

(** ** Records *)

(** A component dictionary; [fqdn] is the one optional key. *)
Record component := {
  component_id : Z;
  physical_location_id : Z;
  vlan : Z;
  ip : string;
  port : Z;
  mac : string;
  app_code : string;
  protocol_id : Z;
  record_quality_grade : string;
  component_type_id : Z;
  component_subtype_id : Z;
  description : string;
  environment_id : Z;
  abstraction_level_id : Z;
  ops_status_id : Z;
  created_at : Z;
  created_by : string;
  updated_at : Z;
  updated_by : string;
  fqdn : option string
}.

(** A relationship dictionary. *)
Record relationship := {
  relationship_id : Z;
  rel_component_id : Z;
  related_component_id : Z;
  relationship_type_id : Z;
  rel_description : string;
  rel_created_at : Z;
  rel_created_by : string;
  rel_updated_at : Z;
  rel_updated_by : string
}.

(** The attributes of [self] that the generation updates.  The dictionaries
    of [components] are the objects stored in [component_map]. *)
Record generator := {
  components : list component;
  relationships : list relationship;
  component_map : gmap Z component;
  component_id_counter : Z;
  relationship_id_counter : Z;
  mac_counter : Z;
  problems_created : list string;
  good_patterns_created : list string
}.

(** What a run reads and updates: the generator object, the state of the
    [random] module (the raw draws still to come, 0 once they are used up)
    and the readings of [datetime.now()] still to come. *)
Record world := {
  self : generator;
  rand : list N;
  clock : list Z
}.

(** [DemoDataGenerator.__init__]: the counters start at 1. *)
Definition init_generator : generator :=
  {| components := []; relationships := []; component_map := ∅;
     component_id_counter := 1; relationship_id_counter := 1; mac_counter := 1;
     problems_created := []; good_patterns_created := [] |}.

Definition init_world (seed : list N) (times : list Z) : world :=
  {| self := init_generator; rand := seed; clock := times |}.

(** ** The state and error monad *)

(** A computation reads and updates the world, and returns a value or
    raises ([None]). *)
Definition M (A : Type) : Type := world -> option (A * world).

#[export] Instance M_ret : MRet M := fun A a w => Some (a, w).

#[export] Instance M_bind : MBind M := fun A B f m w =>
  match m w with
  | Some (a, w') => f a w'
  | None => None
  end.

Definition raise {A} : M A := fun _ => None.

Definition get_self : M generator := fun w => Some (self w, w).

Definition modify_self (f : generator -> generator) : M unit := fun w =>
  Some (tt, {| self := f (self w); rand := rand w; clock := clock w |}).

(** [for x in l: body(x)] *)
Fixpoint for_each {A} (l : list A) (body : A -> M unit) : M unit :=
  match l with
  | [] => mret tt
  | x :: l' => _ ← body x; for_each l' body
  end.

(** [range(lo, hi)] *)
Definition range (lo hi : Z) : list Z :=
  map (fun k => lo + Z.of_nat k) (seq 0 (Z.to_nat (hi - lo))).

(** ** The [random] module and the clock *)

Definition next_raw : M N := fun w =>
  match rand w with
  | [] => Some (0%N, w)
  | x :: rest => Some (x, {| self := self w; rand := rest; clock := clock w |})
  end.

(** [random.random()]: a multiple of 2^-53 in [0, 1). *)
Definition random : M Q :=
  x ← next_raw;
  mret (Qmake (Z.of_N (x mod 2 ^ 53)) (2 ^ 53)).

(** [random.randint(a, b)]: [a <= result <= b]; [ValueError] on an empty
    range. *)
Definition randint (a b : Z) : M Z :=
  if b <? a then raise
  else x ← next_raw; mret (a + Z.of_N x mod (b - a + 1)).

(** The position that a raw draw selects among [n]. *)
Definition position (x : N) (n : nat) : nat := N.to_nat (x mod N.of_nat n).

(** [random.choice(seq)]: [IndexError] on an empty sequence. *)
Definition choice {A} (l : list A) : M A :=
  x ← next_raw;
  match l !! position x (length l) with
  | Some a => mret a
  | None => raise
  end.

(** [k] elements of [pool] at distinct positions, in the order drawn. *)
Fixpoint sample_from {A} (k : nat) (pool : list A) : M (list A) :=
  match k with
  | O => mret []
  | S k' =>
      x ← next_raw;
      let j := position x (length pool) in
      match pool !! j with
      | Some a =>
          rest ← sample_from k' (take j pool ++ drop (S j) pool);
          mret (a :: rest)
      | None => raise
      end
  end.

(** [random.sample(population, k)]: [ValueError] when [k] exceeds the
    population. *)
Definition sample {A} (population : list A) (k : Z) : M (list A) :=
  if (k <? 0) || (Z.of_nat (length population) <? k) then raise
  else sample_from (Z.to_nat k) population.

(** [datetime.now()] *)
Definition now : M Z := fun w =>
  match clock w with
  | [] => Some (0, w)
  | t :: rest => Some (t, {| self := self w; rand := rand w; clock := rest |})
  end.

(** [x < y] and [x > y] on floats. *)
Definition Qltb (x y : Q) : bool := (Qnum x * Z.pos (Qden y) <? Qnum y * Z.pos (Qden x)).

Definition Qgtb (x y : Q) : bool := Qltb y x.

(** ** The methods of [DemoDataGenerator] *)

Section Methods.

Variable ref : refdata.
Variable cfg : config.

(** String concatenation, for the f-strings. *)
Infix "+++" := String.append (at level 60, right associativity).

(** [DemoDataGenerator.get_next_mac] *)
Definition get_next_mac : M string :=
  g ← get_self;
  let mac := "00:1B:44:11:3A:" +++ fmt_X 2 (mac_counter g) in
  _ ← modify_self (fun g =>
        {| components := components g; relationships := relationships g;
           component_map := component_map g;
           component_id_counter := component_id_counter g;
           relationship_id_counter := relationship_id_counter g;
           mac_counter := mac_counter g + 1;
           problems_created := problems_created g;
           good_patterns_created := good_patterns_created g |});
  mret mac.

(** [DemoDataGenerator.get_ip_for_location_and_type] *)
Definition get_ip_for_location_and_type (location_name component_fqdn : string) : M string :=
  let dc_num :=
    if str_in "DC01" location_name || str_in "AL" location_name then "1"
    else if str_in "DC02" location_name || str_in "NC" location_name then "2"
    else if str_in "DC03" location_name || str_in "VA" location_name then "3"
    else "1" in
  let base := "10." +++ dc_num in
  subnet ←
    (if any_in ["app"; "web"; "portal"; "mobile"; "api"] component_fqdn then randint 10 20
     else if any_in ["db"; "database"] component_fqdn then randint 30 40
     else if any_in ["redis"; "cache"] component_fqdn then randint 35 45
     else if any_in ["kafka"; "mq"] component_fqdn then randint 50 60
     else if any_in ["nas"; "san"; "minio"; "obj"] component_fqdn then randint 70 80
     else if str_in "lb" component_fqdn then randint 5 9
     else randint 90 99);
  host ← randint 10 250;
  mret (base +++ "." +++ str_int subnet +++ "." +++ str_int host).

(** [DemoDataGenerator.get_vlan_for_type] *)
Definition get_vlan_for_type (component_fqdn : string) : M Z :=
  if any_in ["app"; "web"; "portal"; "mobile"; "api"] component_fqdn then randint 100 199
  else if any_in ["db"; "redis"; "cache"] component_fqdn then randint 200 299
  else if any_in ["nas"; "san"; "minio"; "obj"] component_fqdn then randint 300 399
  else if str_in "lb" component_fqdn then randint 10 20
  else randint 100 199.

(** [DemoDataGenerator.get_port_for_type] *)
Definition get_port_for_type (component_fqdn : string) : Z :=
  if str_in "redis" component_fqdn || str_in "cache" component_fqdn then 6379
  else if str_in "kafka" component_fqdn || str_in "mq" component_fqdn then 9092
  else if str_in "db" component_fqdn then 5432
  else if str_in "nas" component_fqdn || str_in "nfs" component_fqdn then 2049
  else if str_in "san" component_fqdn then 3260
  else if str_in "minio" component_fqdn || str_in "obj" component_fqdn then 9000
  else if str_in "lb" component_fqdn then 443
  else 443.

(** [for name, id in valid_subtypes: if test(name.lower()): return id] *)
Definition first_subtype (test : string -> bool) (valid_subtypes : list (string * Z)) : option Z :=
  option_map snd (List.find (fun ni => test (lower (fst ni))) valid_subtypes).

(** [a] when it returned, otherwise go on with [b]. *)
Definition or_else {A} (a b : option A) : option A :=
  match a with Some _ => a | None => b end.

(** [DemoDataGenerator.determine_subtype] *)
Definition determine_subtype (fqdn component_type_name : string) : option Z :=
  let valid_subtypes :=
    List.filter (fun ni =>
      match subtype_parent_map ref !! snd ni with
      | Some parent => String.eqb parent component_type_name
      | None => false
      end) (component_subtypes ref) in
  match valid_subtypes with
  | [] => None
  | first :: _ =>
      let fqdn_lower := lower fqdn in
      let has x := str_in x fqdn_lower in
      let matched :=
        if String.eqb component_type_name "application" then
          or_else
            (if has "api" || has "service" then
               first_subtype (str_in "api") valid_subtypes
             else if has "batch" || has "job" then
               first_subtype (str_in "batch") valid_subtypes
             else None)
            (first_subtype (str_in "web") valid_subtypes)
        else if String.eqb component_type_name "polyglot_persistence" then
          if has "redis" || has "cache" then
            first_subtype (str_in "cache") valid_subtypes
          else if has "kafka" || has "mq" then
            first_subtype (fun n => str_in "message" n || str_in "queue" n) valid_subtypes
          else if has "db" then
            first_subtype (str_in "relational") valid_subtypes
          else None
        else if String.eqb component_type_name "block_level_persistence" then
          if has "nas" then
            first_subtype (fun n => str_in "network_attached" n || str_in "nas" n) valid_subtypes
          else if has "san" then
            first_subtype (fun n => str_in "storage_area" n || str_in "san" n) valid_subtypes
          else if has "minio" || has "obj" then
            first_subtype (str_in "object") valid_subtypes
          else None
        else if String.eqb component_type_name "networking" then
          if has "lb" || has "load" then
            first_subtype (str_in "load") valid_subtypes
          else None
        else None in
      or_else matched (Some (snd first))
  end.

(** [DemoDataGenerator.get_short_name] *)
Definition get_short_name (fqdn : string) : string :=
  match split_on "." fqdn with
  | p0 :: _ :: p2 :: _ :: _ => p0 +++ "." +++ p2
  | p0 :: _ => p0
  | [] => fqdn
  end.

(** [DemoDataGenerator.get_dc_code] *)
Definition get_dc_code (location_name : string) : string :=
  if str_in "DC01" location_name || str_in "AL" location_name then "dc01"
  else if str_in "DC02" location_name || str_in "NC" location_name then "dc02"
  else if str_in "DC03" location_name || str_in "VA" location_name then "dc03"
  else "dc01".

(** [d[k]] on a lookup table: [KeyError] when the key is missing. *)
Definition index {V} (o : option V) : M V :=
  match o with Some v => mret v | None => raise end.

(** The fields that the two branches of [create_component] compute. *)
Record discovered := {
  d_quality : string;
  d_fqdn : option string;
  d_app_code : string;
  d_desc : string;
  d_ip : string;
  d_mac : string;
  d_vlan : Z;
  d_port : Z
}.

(** The truth value of [fqdn_value]: not [None] and not empty. *)
Definition truthy (o : option string) : bool :=
  match o with
  | Some s => negb (String.eqb s "")
  | None => false
  end.

(** [DemoDataGenerator.create_component]; the result [None] is the Python
    [None] of the two validation exits. *)
Definition create_component (fqdn location_name component_type_name description
    status_name abstraction_name : string) : M (option component) :=
  if negb (odict_has location_name (physical_locations ref)) then mret None
  else if negb (has_key component_type_name (component_types ref)) then mret None
  else
    let status_name :=
      if negb (has_key status_name (statuses ref)) then "OPERATIONAL" else status_name in
    let abstraction_name :=
      if negb (has_key abstraction_name (abstraction_levels ref)) then "virtual_machine"
      else abstraction_name in
    r ← random;
    let is_pending := Qltb r (pending_ratio cfg) in
    d ←
      (if is_pending then
         missing_level ← choice ["partial"; "minimal"];
         if String.eqb missing_level "minimal" then
           mret {| d_quality := "_PT_RED_RECORD_"; d_fqdn := None;
                   d_app_code := "_PT_PENDING_"; d_desc := "_PT_PENDING_";
                   d_ip := "0.0.0.0"; d_mac := "00:00:00:00:00:00";
                   d_vlan := 1; d_port := 1 |}
         else
           r1 ← random;
           let fqdn_value := if Qgtb r1 (1 # 2) then Some fqdn else None in
           r2 ← random;
           g ← get_self;
           let app_code :=
             if Qgtb r2 (1 # 2) then "APP" +++ fmt_d 3 (component_id_counter g)
             else "_PT_PENDING_" in
           r3 ← random;
           let desc := if Qgtb r3 (1 # 2) then description else "_PT_PENDING_" in
           r4 ← random;
           ip ← (if Qgtb r4 (3 # 10) then get_ip_for_location_and_type location_name fqdn
                 else mret "0.0.0.0");
           r5 ← random;
           mac ← (if Qgtb r5 (3 # 10) then get_next_mac else mret "00:00:00:00:00:00");
           r6 ← random;
           vlan ← (if Qgtb r6 (3 # 10) then get_vlan_for_type fqdn else mret 1);
           r7 ← random;
           let port := if Qgtb r7 (3 # 10) then get_port_for_type fqdn else 1 in
           mret {| d_quality := "_PT_YELLOW_RECORD_"; d_fqdn := fqdn_value;
                   d_app_code := app_code; d_desc := desc;
                   d_ip := ip; d_mac := mac; d_vlan := vlan; d_port := port |}
       else
         g ← get_self;
         let app_code := "APP" +++ fmt_d 3 (component_id_counter g) in
         ip ← get_ip_for_location_and_type location_name fqdn;
         mac ← get_next_mac;
         vlan ← get_vlan_for_type fqdn;
         let port := get_port_for_type fqdn in
         mret {| d_quality := "_PT_GREEN_RECORD_"; d_fqdn := Some fqdn;
                 d_app_code := app_code; d_desc := description;
                 d_ip := ip; d_mac := mac; d_vlan := vlan; d_port := port |});
    let subtype_id :=
      match determine_subtype (if truthy (d_fqdn d) then fqdn else "unknown")
              component_type_name with
      | None => 999
      | Some i => if i =? 0 then 999 else i
      end in
    g ← get_self;
    location_id ← index (odict_get location_name (physical_locations ref));
    type_id ← index (component_types ref !! component_type_name);
    t1 ← now;
    t2 ← now;
    let component :=
      {| component_id := component_id_counter g;
         physical_location_id := location_id;
         vlan := d_vlan d;
         ip := d_ip d;
         port := d_port d;
         mac := d_mac d;
         app_code := d_app_code d;
         protocol_id := default 999 (protocols ref !! "HTTPS");
         record_quality_grade := d_quality d;
         component_type_id := type_id;
         component_subtype_id := subtype_id;
         description := d_desc d;
         environment_id := default 999 (environments ref !! "PROD");
         abstraction_level_id := default 999 (abstraction_levels ref !! abstraction_name);
         ops_status_id := default 999 (statuses ref !! status_name);
         created_at := t1;
         created_by := "demo_data_generator_v2";
         updated_at := t2;
         updated_by := "demo_data_generator_v2";
         fqdn := if truthy (d_fqdn d) then d_fqdn d else None |} in
    _ ← modify_self (fun g =>
          {| components := components g ++ [component];
             relationships := relationships g;
             component_map := <[component_id_counter g := component]> (component_map g);
             component_id_counter := component_id_counter g + 1;
             relationship_id_counter := relationship_id_counter g;
             mac_counter := mac_counter g;
             problems_created := problems_created g;
             good_patterns_created := good_patterns_created g |});
    mret (Some component).

(** [self.get_short_name(c.get('fqdn', f'component_{c["component_id"]}'))],
    the name of a component in the descriptions. *)
Definition short_name_of (c : component) : string :=
  get_short_name (default ("component_" +++ str_int (component_id c)) (fqdn c)).

(** [DemoDataGenerator.create_relationship]; the result [None] is the
    Python [None] of the two validation exits. *)
Definition create_relationship (component_id related_id : Z)
    (rel_type_name description : string) : M (option relationship) :=
  if negb (has_key rel_type_name (relationship_types ref)) then mret None
  else
    g ← get_self;
    match component_map g !! component_id, component_map g !! related_id with
    | Some comp1, Some comp2 =>
        let comp1_name := short_name_of comp1 in
        let comp2_name := short_name_of comp2 in
        let full_description :=
          comp1_name +++ " =[" +++ rel_type_name +++ "]=> " +++ comp2_name
          +++ ": " +++ description in
        type_id ← index (relationship_types ref !! rel_type_name);
        t1 ← now;
        t2 ← now;
        let relationship :=
          {| relationship_id := relationship_id_counter g;
             rel_component_id := component_id;
             related_component_id := related_id;
             relationship_type_id := type_id;
             rel_description := full_description;
             rel_created_at := t1;
             rel_created_by := "demo_data_generator";
             rel_updated_at := t2;
             rel_updated_by := "demo_data_generator" |} in
        _ ← modify_self (fun g =>
              {| components := components g;
                 relationships := relationships g ++ [relationship];
                 component_map := component_map g;
                 component_id_counter := component_id_counter g;
                 relationship_id_counter := relationship_id_counter g + 1;
                 mac_counter := mac_counter g;
                 problems_created := problems_created g;
                 good_patterns_created := good_patterns_created g |});
        mret (Some relationship)
    | _, _ => mret None
    end.

(** [self.problems_created.append(text)] *)
Definition add_problem (text : string) : M unit :=
  modify_self (fun g =>
    {| components := components g; relationships := relationships g;
       component_map := component_map g;
       component_id_counter := component_id_counter g;
       relationship_id_counter := relationship_id_counter g;
       mac_counter := mac_counter g;
       problems_created := problems_created g ++ [text];
       good_patterns_created := good_patterns_created g |}).

(** [self.good_patterns_created.append(text)] *)
Definition add_good_pattern (text : string) : M unit :=
  modify_self (fun g =>
    {| components := components g; relationships := relationships g;
       component_map := component_map g;
       component_id_counter := component_id_counter g;
       relationship_id_counter := relationship_id_counter g;
       mac_counter := mac_counter g;
       problems_created := problems_created g;
       good_patterns_created := good_patterns_created g ++ [text] |}).

(** [len(l)] *)
Definition len {A} (l : list A) : Z := Z.of_nat (length l).

(** A call of [create_relationship] whose result is dropped. *)
Definition relate (component_id related_id : Z) (rel_type_name description : string) : M unit :=
  _ ← create_relationship component_id related_id rel_type_name description;
  mret tt.

Definition descriptions : list string :=
  [ "Customer-facing banking application";
    "Internal operations portal";
    "Mobile banking backend service";
    "API gateway for third-party integrations";
    "Batch processing job scheduler";
    "Microservice for account management";
    "Web portal for loan applications";
    "ATM network communication service" ].

(** [f"{prefix}{i:02d}.prod.{self.get_dc_code(location)}.regions.com"] *)
Definition make_fqdn (prefix : string) (i : Z) (location : string) : string :=
  prefix +++ fmt_d 2 i +++ ".prod." +++ get_dc_code location +++ ".regions.com".

(** A call of [create_component] with the default status and abstraction,
    result dropped. *)
Definition add_component (fqdn location component_type_name description : string) : M unit :=
  _ ← create_component fqdn location component_type_name description
        "OPERATIONAL" "virtual_machine";
  mret tt.

(** [DemoDataGenerator.generate_components] *)
Definition generate_components : M unit :=
  let config := scale_configs (scale cfg) in
  let total := total_components config in
  let app_count := int_of_product total (app_ratio config) in
  let db_count := int_of_product total (db_ratio config) in
  let cache_count := int_of_product total (cache_ratio config) in
  let mq_count := int_of_product total (mq_ratio config) in
  let storage_count := int_of_product total (storage_ratio config) in
  let lb_count := int_of_product total (lb_ratio config) in
  let locations := odict_keys (physical_locations ref) in
  match locations with
  | [] => mret tt
  | _ :: _ =>
      _ ← for_each (range 1 (app_count + 1)) (fun i =>
            location ← choice locations;
            app_type ← choice ["webapp"; "portal"; "mobile"; "api"; "service";
                               "internal"; "batch"];
            let fqdn := make_fqdn app_type i location in
            r ← random;
            let status := if Qgtb r (15 # 100) then "OPERATIONAL" else "DEGRADED" in
            description ← choice descriptions;
            _ ← create_component fqdn location "application" description
                  status "virtual_machine";
            mret tt);
      _ ← for_each (range 1 (db_count + 1)) (fun i =>
            location ← choice locations;
            let db_type := if i mod 2 =? 1 then "pri" else "sec" in
            let fqdn := "db" +++ fmt_d 2 i +++ db_type +++ ".prod."
                        +++ get_dc_code location +++ ".regions.com" in
            add_component fqdn location "polyglot_persistence"
              ((if String.eqb db_type "pri" then "Primary" else "Secondary")
               +++ " database for critical data"));
      _ ← for_each (range 1 (cache_count + 1)) (fun i =>
            location ← choice locations;
            cache_type ← choice ["redis"; "cache"];
            add_component (make_fqdn cache_type i location) location
              "polyglot_persistence" "High-performance cache for session/API data");
      _ ← for_each (range 1 (mq_count + 1)) (fun i =>
            location ← choice locations;
            mq_type ← choice ["kafka"; "mq"];
            add_component (make_fqdn mq_type i location) location
              "polyglot_persistence" "Message broker for event streaming");
      _ ← for_each (range 1 (storage_count + 1)) (fun i =>
            location ← choice locations;
            storage_type ← choice ["nas"; "san"; "minio"; "obj"];
            add_component (make_fqdn storage_type i location) location
              "block_level_persistence" "Enterprise storage for documents and backups");
      for_each (range 1 (lb_count + 1)) (fun i =>
            location ← choice locations;
            add_component (make_fqdn "lb" i location) location
              "networking" "Load balancer for application traffic distribution")
  end.

(** [d.get('fqdn', '')] *)
Definition fqdn_or_empty (c : component) : string := default "" (fqdn c).

(** [DemoDataGenerator.create_hub_database_pattern] *)
Definition create_hub_database_pattern (apps dbs : list component) : M unit :=
  first_db ← index (dbs !! 0%nat);
  let hub_db :=
    default first_db (List.find (fun d => str_in "pri" (fqdn_or_empty d)) dbs) in
  let concentration := concentration_configs (app_concentration cfg) in
  num_apps ← randint (fst concentration) (snd concentration);
  let num_apps := Z.min num_apps (len apps) in
  selected_apps ← sample apps num_apps;
  _ ← for_each selected_apps (fun app =>
        relate (component_id app) (component_id hub_db) "persists_to"
          ("HUB PATTERN: One of " +++ str_int num_apps
           +++ " apps using central database"));
  add_problem ("Hub database with " +++ str_int num_apps +++ " dependent applications").

(** [if db_num not in db_pairs: db_pairs[db_num] = []] followed by
    [db_pairs[db_num].append(db)] *)
Fixpoint group_append (db_num : string) (db : component)
    (db_pairs : odict (list component)) : odict (list component) :=
  match db_pairs with
  | [] => [(db_num, [db])]
  | (k, members) :: rest =>
      if String.eqb k db_num then (k, (members ++ [db])%list) :: rest
      else (k, members) :: group_append db_num db rest
  end.

(** The grouping loop of [create_failover_patterns]. *)
Definition group_by_number (dbs : list component) : odict (list component) :=
  foldl (fun db_pairs db =>
           let fqdn := fqdn_or_empty db in
           if String.eqb fqdn "" then db_pairs
           else match search_db_digits fqdn with
                | Some db_num => group_append db_num db db_pairs
                | None => db_pairs
                end) [] dbs.

(** [DemoDataGenerator.create_failover_patterns] *)
Definition create_failover_patterns (dbs : list component) : M unit :=
  let db_pairs := group_by_number dbs in
  for_each db_pairs (fun '(db_num, members) =>
    if 2 <=? len members then
      let primary := List.find (fun d => str_in "pri" (fqdn_or_empty d)) members in
      let secondary := List.find (fun d => str_in "sec" (fqdn_or_empty d)) members in
      match primary, secondary with
      | Some primary, Some secondary =>
          let same_location :=
            physical_location_id primary =? physical_location_id secondary in
          if same_location then
            _ ← relate (component_id primary) (component_id secondary) "fails_over_to"
                  "ISSUE: Same-DC failover - no real disaster recovery!";
            add_problem ("Same-DC failover: " +++ short_name_of primary)
          else
            _ ← relate (component_id primary) (component_id secondary) "fails_over_to"
                  "GOOD: Cross-DC failover for proper disaster recovery";
            add_good_pattern ("Cross-DC failover: " +++ short_name_of primary)
      | _, _ => mret tt
      end
    else mret tt).

(** [DemoDataGenerator.create_cache_patterns] *)
Definition create_cache_patterns (apps caches : list component) : M unit :=
  for_each caches (fun cache =>
    num_apps ← randint 2 5;
    selected_apps ← sample apps (Z.min num_apps (len apps));
    for_each selected_apps (fun app =>
      let same_location := physical_location_id app =? physical_location_id cache in
      if same_location then
        _ ← relate (component_id app) (component_id cache) "persists_to"
              "GOOD: Co-located cache for low latency";
        add_good_pattern ("Co-located cache: " +++ short_name_of app)
      else
        r ← random;
        if Qltb r (problem_ratio cfg) then
          _ ← relate (component_id app) (component_id cache) "persists_to"
                "ISSUE: Cross-datacenter cache access adding latency";
          add_problem ("Cross-DC cache: " +++ short_name_of app)
        else
          relate (component_id app) (component_id cache) "persists_to"
            "Cross-DC cache access (acceptable for this use case)")).

(** [DemoDataGenerator.create_mq_patterns] *)
Definition create_mq_patterns (apps mqs : list component) : M unit :=
  _ ← for_each mqs (fun mq =>
        num_publishers ← randint 1 3;
        publishers ← sample apps (Z.min num_publishers (len apps));
        _ ← for_each publishers (fun pub =>
              relate (component_id pub) (component_id mq) "publishes_to"
                "Publishing events to message queue");
        num_subscribers ← randint 2 5;
        subscribers ← sample apps (Z.min num_subscribers (len apps));
        for_each subscribers (fun sub =>
              relate (component_id sub) (component_id mq) "subscribes_to"
                "Subscribing to events from message queue"));
  let kafka_nodes := List.filter (fun m => str_in "kafka" (fqdn_or_empty m)) mqs in
  if 2 <=? len kafka_nodes then
    let locations : gset Z := list_to_set (map physical_location_id kafka_nodes) in
    primary ← index (kafka_nodes !! 0%nat);
    if Z.of_nat (size locations) =? 1 then
      _ ← for_each (drop 1 kafka_nodes) (fun replica =>
            relate (component_id replica) (component_id primary) "replicates_from"
              "ISSUE: All Kafka replicas in same datacenter!");
      add_problem "Kafka cluster with no geographic distribution"
    else
      _ ← for_each (drop 1 kafka_nodes) (fun replica =>
            relate (component_id replica) (component_id primary) "replicates_from"
              "GOOD: Geographic distribution for Kafka cluster");
      add_good_pattern "Properly distributed Kafka cluster"
  else mret tt.

(** [DemoDataGenerator.create_lb_patterns] *)
Definition create_lb_patterns (apps lbs : list component) : M unit :=
  for_each lbs (fun lb =>
    num_apps ← randint 3 8;
    selected_apps ← sample apps (Z.min num_apps (len apps));
    for_each selected_apps (fun app =>
      let same_location := physical_location_id app =? physical_location_id lb in
      if same_location then
        relate (component_id app) (component_id lb) "proxied_by"
          "Load balanced for high availability"
      else
        relate (component_id app) (component_id lb) "proxied_by"
          "Cross-DC load balancing (higher latency)")).

(** [DemoDataGenerator.create_circular_dependency] *)
Definition create_circular_dependency (apps : list component) : M unit :=
  circular_apps ← sample apps 3;
  app0 ← index (circular_apps !! 0%nat);
  app1 ← index (circular_apps !! 1%nat);
  app2 ← index (circular_apps !! 2%nat);
  _ ← relate (component_id app0) (component_id app1) "consumes_api_from"
        "ISSUE: Part of circular dependency chain";
  _ ← relate (component_id app1) (component_id app2) "consumes_api_from"
        "ISSUE: Part of circular dependency chain";
  _ ← relate (component_id app2) (component_id app0) "consumes_api_from"
        "ISSUE: Circular dependency - potential deadlock!";
  add_problem ("Circular dependency between " +++ short_name_of app0 +++ ", "
               +++ short_name_of app1 +++ ", " +++ short_name_of app2).

(** [comp['description'] = f"ORPHANED: {comp['description']} - No active connections!"] *)
Definition mark_orphaned (comp : component) : component :=
  {| component_id := component_id comp;
     physical_location_id := physical_location_id comp;
     vlan := vlan comp; ip := ip comp; port := port comp; mac := mac comp;
     app_code := app_code comp; protocol_id := protocol_id comp;
     record_quality_grade := record_quality_grade comp;
     component_type_id := component_type_id comp;
     component_subtype_id := component_subtype_id comp;
     description := "ORPHANED: " +++ description comp +++ " - No active connections!";
     environment_id := environment_id comp;
     abstraction_level_id := abstraction_level_id comp;
     ops_status_id := ops_status_id comp;
     created_at := created_at comp; created_by := created_by comp;
     updated_at := updated_at comp; updated_by := updated_by comp;
     fqdn := fqdn comp |}.

(** The first loop of [create_orphaned_components]. *)
Definition components_with_rels_of (rels : list relationship) : gset Z :=
  foldl (fun (acc : gset Z) rel =>
           acc ∪ {[ rel_component_id rel ]} ∪ {[ related_component_id rel ]}) ∅ rels.

(** [DemoDataGenerator.create_orphaned_components].  The loop rewrites the
    description of each orphaned dictionary in place; the same dictionary is
    the entry of [component_map] under its id, which therefore changes with
    it. *)
Definition create_orphaned_components : M unit :=
  g ← get_self;
  let components_with_rels := components_with_rels_of (relationships g) in
  let is_orphan comp := negb (bool_decide (component_id comp ∈ components_with_rels)) in
  let orphaned := List.filter is_orphan (components g) in
  let mark comp := if is_orphan comp then mark_orphaned comp else comp in
  _ ← modify_self (fun g =>
        {| components := map mark (components g);
           relationships := relationships g;
           component_map :=
             foldl (fun m comp => <[component_id comp := mark_orphaned comp]> m)
               (component_map g) orphaned;
           component_id_counter := component_id_counter g;
           relationship_id_counter := relationship_id_counter g;
           mac_counter := mac_counter g;
           problems_created := problems_created g;
           good_patterns_created := good_patterns_created g |});
  match orphaned with
  | [] => mret tt
  | _ :: _ => add_problem (str_int (len orphaned) +++ " orphaned components wasting resources")
  end.

(** The group that the [if]/[elif] chain of [generate_relationships] puts a
    component in. *)
Inductive group := GApp | GDb | GCache | GMq | GStorage | GLb | GNone.

#[export] Instance group_eq_dec : EqDecision group.
Proof. solve_decision. Defined.

Definition group_of (c : component) : group :=
  let fqdn := default ("pending_" +++ str_int (component_id c)) (fqdn c) in
  if str_in "app" fqdn || str_in "portal" fqdn || str_in "mobile" fqdn
     || str_in "api" fqdn || str_in "service" fqdn then GApp
  else if str_in "db" fqdn then GDb
  else if str_in "redis" fqdn || str_in "cache" fqdn then GCache
  else if str_in "kafka" fqdn || str_in "mq" fqdn then GMq
  else if any_in ["nas"; "san"; "minio"; "obj"] fqdn then GStorage
  else if str_in "lb" fqdn then GLb
  else GNone.

(** The components that the grouping loop appends to one list. *)
Definition in_group (k : group) (l : list component) : list component :=
  List.filter (fun c => bool_decide (group_of c = k)) l.

Definition nonempty {A} (l : list A) : bool :=
  match l with [] => false | _ :: _ => true end.

(** [DemoDataGenerator.generate_relationships] *)
Definition generate_relationships : M unit :=
  g ← get_self;
  let apps := in_group GApp (components g) in
  let dbs := in_group GDb (components g) in
  let caches := in_group GCache (components g) in
  let mqs := in_group GMq (components g) in
  let lbs := in_group GLb (components g) in
  _ ← (if nonempty dbs && nonempty apps then create_hub_database_pattern apps dbs
       else mret tt);
  _ ← (if 2 <=? len dbs then create_failover_patterns dbs else mret tt);
  _ ← (if nonempty apps && nonempty caches then create_cache_patterns apps caches
       else mret tt);
  _ ← (if nonempty apps && nonempty mqs then create_mq_patterns apps mqs
       else mret tt);
  _ ← (if nonempty apps && nonempty lbs then create_lb_patterns apps lbs
       else mret tt);
  _ ← (if 3 <=? len apps then
         r ← random;
         if Qltb r (problem_ratio cfg) then create_circular_dependency apps
         else mret tt
       else mret tt);
  create_orphaned_components.

(** The generation steps of [generate_excel], before the workbook is
    written. *)
Definition generate : M unit :=
  _ ← generate_components;
  generate_relationships.

End Methods.

(** A run from a fresh generator: the seed fixes the draws, [times] the
    clock readings. *)
Definition run (ref : refdata) (cfg : config) (seed : list N) (times : list Z)
    : option generator :=
  option_map (fun r => self (snd r)) (generate ref cfg (init_world seed times)).

End Generator.

(* ===================================================================== *)
(** * Vocabulary of the statements about the graph builder *)
(* ===================================================================== *)

Module GraphSpec.
Import PyStr Graph.

(** The connection count that a sizing mode looks at. *)
Definition relevant_count (comp : component_row) (sizing_mode : string) : Z :=
  if String.eqb sizing_mode "hierarchical" then default 0 (child_count comp)
  else if String.eqb sizing_mode "dependencies" then
    default 0 (relationship_from_count comp) + default 0 (relationship_to_count comp)
  else if String.eqb sizing_mode "peer" then default 0 (peer_relationship_count comp)
  else default 0 (total_relationship_count comp).

(** The size that the node of a component carries: its ['size'] attribute,
    when it is an integer. *)
Definition node_size (n : node) : option Z :=
  match attrs (data n) !! "size" with
  | Some (VInt z) => Some z
  | _ => None
  end.

(** [term] occurs in [field], case ignored. *)
Definition contains_ci (term field : string) : Prop :=
  exists before after,
    lower field = String.append before (String.append (lower term) after).

(** The node matches the search term: the term occurs, case ignored, in its
    name, ip, vlan or location. *)
Definition node_contains (term : string) (d : node_data) : Prop :=
  contains_ci term (default "" (name d))
  \/ contains_ci term (default "" (ip d))
  \/ contains_ci term (py_str (default (VStr "") (vlan d)))
  \/ contains_ci term (default "" (location d)).

(** The two outcomes of the search filter on one node. *)
Definition highlighted (n n' : node) : Prop :=
  data n' = data n
  /\ style n' !! "border-color" = Some (SStr "#FFD700")
  /\ style n' !! "border-width" = Some (SInt 4)
  /\ forall k, k <> "border-color" -> k <> "border-width" -> style n' !! k = style n !! k.

Definition faded (n n' : node) : Prop :=
  data n' = data n
  /\ style n' !! "opacity" = Some (SFloat (3 # 10))
  /\ forall k, k <> "opacity" -> style n' !! k = style n !! k.

(** An edge joins the ids [a] and [b], in one direction or the other. *)
Definition joins (e : edge) (a b : string) : Prop :=
  (source (edata e) = a /\ target (edata e) = b)
  \/ (source (edata e) = b /\ target (edata e) = a).

(** [i] is the id of a node that matches the term. *)
Definition matching_id (term : string) (nodes : list node) (i : string) : Prop :=
  exists m, In m nodes /\ node_contains term (data m) /\ id (data m) = i.

(** [i] is the id of a matching node, or an edge joins it to one. *)
Definition near_id (term : string) (nodes : list node) (edges : list edge)
    (i : string) : Prop :=
  matching_id term nodes i
  \/ exists e a, In e edges /\ matching_id term nodes a /\ joins e a i.

Definition sample_row : component_row :=
  {| component_id := 7; component_type := "application";
     physical_location := "DC01_AL"; fqdn := Some "webapp07.prod.dc01.regions.com";
     row_ip := Some "10.1.12.40"; row_vlan := Some (VInt 120);
     child_count := None; relationship_from_count := Some 9;
     relationship_to_count := Some 14; peer_relationship_count := Some 0;
     total_relationship_count := Some 23; columns := ∅ |}.

(** A row whose relationship count is negative. *)
Definition negative_row : component_row :=
  {| component_id := 8; component_type := "application";
     physical_location := "DC01_AL"; fqdn := Some "webapp08.prod.dc01.regions.com";
     row_ip := Some "10.1.12.41"; row_vlan := Some (VInt 120);
     child_count := None; relationship_from_count := None;
     relationship_to_count := None; peer_relationship_count := None;
     total_relationship_count := Some (-5); columns := ∅ |}.


Definition plain_node (i nm : string) : node :=
  {| data := {| id := i; name := Some nm; ip := Some "10.1.12.40";
                vlan := Some (VInt 120); location := Some "DC01_AL";
                attrs := ∅ |};
     style := {[ "border-width" := SInt 2 ]} |}.

Definition plain_edge (s t : string) : edge :=
  {| edata := {| edge_id := "dep_1_2"; source := s; target := t;
                 edge_type := "dependency"; label := "persists_to" |};
     estyle := ∅ |}.








End GraphSpec.

(* ===================================================================== *)
(** * Vocabulary of the statements about the analytics engine *)
(* ===================================================================== *)

Module AnalyticsSpec.
Import Analytics.

(** The number of rows whose quality grade is [grade]. *)
Definition rows_with_grade (df : DataFrame) (grade : string) : Z :=
  Z.of_nat (length (List.filter
    (fun row => bool_decide (row !! "record_quality_grade" = Some (CStr grade)))
    (df_rows df))).

(** [series] is a numeric column: no cell is a text. *)
Definition numeric_column (df : DataFrame) (col : string) : Prop :=
  has_column df col = true ->
  exists s, column df col = Some s /\ is_Some (numeric_values s).

(** The columns that [calculate_metrics] indexes without a test are there,
    and the column it averages is numeric: no [KeyError], no [TypeError]. *)
Definition readable (d : data_dict) (components_df : DataFrame) : Prop :=
  has_column components_df "component_type" = true
  /\ has_column components_df "physical_location" = true
  /\ (has_column components_df "protocol_name" = true ->
      has_column components_df "protocol_id" = true)
  /\ numeric_column components_df "total_relationship_count"
  /\ (forall rels_df, relationships d = Some rels_df -> df_empty rels_df = false ->
      has_column rels_df "relationship_type" = true).

(** The arithmetic mean of a list of integers. *)
Definition mean_of (zs : list Z) : Q :=
  inject_Z (fold_right Z.add 0 zs) / inject_Z (Z.of_nat (length zs)).

Definition sample_components : DataFrame :=
  {| df_columns := {[ "component_type"; "physical_location";
                      "record_quality_grade"; "total_relationship_count" ]};
     df_rows :=
       [ {[ "component_type" := CStr "application";
            "physical_location" := CStr "DC01_AL";
            "record_quality_grade" := CStr "_PT_GREEN_RECORD_";
            "total_relationship_count" := CInt 3 ]};
         {[ "component_type" := CStr "networking";
            "physical_location" := CStr "DC02_NC";
            "record_quality_grade" := CStr "_PT_RED_RECORD_";
            "total_relationship_count" := CInt 0 ]} ] |}.

Definition sample_data : data_dict :=
  {| components := Some sample_components; dependencies := None;
     relationships := None |}.




End AnalyticsSpec.

(* ===================================================================== *)
(** * Vocabulary of the statements about the generator *)
(* ===================================================================== *)

Module GeneratorSpec.
Import PyStr Generator.

(** [m] run in [w] returns normally, with a value and a world that satisfy
    [Q]. *)
Definition wp {A} (m : M A) (Q : A -> world -> Prop) (w : world) : Prop :=
  exists a w', m w = Some (a, w') /\ Q a w'.

(** [l] is a sample of [k] elements of [pool] at distinct positions. *)
Definition sampled {A} (pool : list A) (k : nat) (l : list A) : Prop :=
  length l = k /\ exists rest, Permutation (l ++ rest) pool.

(** [m] returns normally from every world, with a value that satisfies [V]
    and a generator that the transition [T k] relates to the one it
    started from. *)
Definition performs {K A} (T : K -> generator -> generator -> Prop) (k : K)
    (m : M A) (V : A -> Prop) : Prop :=
  forall w, wp m (fun a w' => V a /\ T k (self w) (self w')) w.

(** The three quality grades. *)
Definition GREEN : string := "_PT_GREEN_RECORD_".
Definition YELLOW : string := "_PT_YELLOW_RECORD_".
Definition RED : string := "_PT_RED_RECORD_".

(** [self.relationships.append(r)] with the counter moved on. *)
Definition push_relationship (g : generator) (r : relationship) : generator :=
  {| components := components g;
     relationships := relationships g ++ [r];
     component_map := component_map g;
     component_id_counter := component_id_counter g;
     relationship_id_counter := relationship_id_counter g + 1;
     mac_counter := mac_counter g;
     problems_created := problems_created g;
     good_patterns_created := good_patterns_created g |}.

(** [self.components.append(c)], the entry of the map and the counter;
    [mac_next] is the MAC counter after the call. *)
Definition push_component (g : generator) (c : component) (mac_next : Z) : generator :=
  {| components := components g ++ [c];
     relationships := relationships g;
     component_map := <[component_id_counter g := c]> (component_map g);
     component_id_counter := component_id_counter g + 1;
     relationship_id_counter := relationship_id_counter g;
     mac_counter := mac_next;
     problems_created := problems_created g;
     good_patterns_created := good_patterns_created g |}.

(** The generator with another MAC counter. *)
Definition with_mac (g : generator) (mac_next : Z) : generator :=
  {| components := components g;
     relationships := relationships g;
     component_map := component_map g;
     component_id_counter := component_id_counter g;
     relationship_id_counter := relationship_id_counter g;
     mac_counter := mac_next;
     problems_created := problems_created g;
     good_patterns_created := good_patterns_created g |}.

Definition PENDING : string := "_PT_PENDING_".

(** Complete data: every field has a discovered value. *)
Definition complete_data (fqdn description : string) (c : component) : Prop :=
  Generator.fqdn c = (if String.eqb fqdn "" then None else Some fqdn)
  /\ app_code c = String.append "APP" (fmt_d 3 (component_id c))
  /\ Generator.description c = description
  /\ starts_with "10." (ip c) = true
  /\ starts_with "00:1B:44:11:3A:" (mac c) = true
  /\ 10 <= vlan c <= 399
  /\ port c = get_port_for_type fqdn.

(** Minimal data: no FQDN, and the placeholder in every field. *)
Definition minimal_data (c : component) : Prop :=
  Generator.fqdn c = None
  /\ app_code c = PENDING
  /\ Generator.description c = PENDING
  /\ ip c = "0.0.0.0"
  /\ mac c = "00:00:00:00:00:00"
  /\ vlan c = 1
  /\ port c = 1.

(** Partial data: every field has its discovered value or its
    placeholder. *)
Definition partial_data (fqdn description : string) (c : component) : Prop :=
  (Generator.fqdn c = (if String.eqb fqdn "" then None else Some fqdn)
   \/ Generator.fqdn c = None)
  /\ (app_code c = String.append "APP" (fmt_d 3 (component_id c)) \/ app_code c = PENDING)
  /\ (Generator.description c = description \/ Generator.description c = PENDING)
  /\ (starts_with "10." (ip c) = true \/ ip c = "0.0.0.0")
  /\ (starts_with "00:1B:44:11:3A:" (mac c) = true \/ mac c = "00:00:00:00:00:00")
  /\ (10 <= vlan c <= 399 \/ vlan c = 1)
  /\ (port c = get_port_for_type fqdn \/ port c = 1).

(** The data of a component agree with its grade.  The description is left
    out: the marking of orphans rewrites it. *)
Definition graded (c : component) : Prop :=
  (record_quality_grade c = GREEN
   /\ is_Some (Generator.fqdn c)
   /\ app_code c = String.append "APP" (fmt_d 3 (component_id c))
   /\ starts_with "10." (ip c) = true
   /\ starts_with "00:1B:44:11:3A:" (mac c) = true
   /\ 10 <= vlan c <= 399)
  \/ (record_quality_grade c = YELLOW
      /\ (app_code c = String.append "APP" (fmt_d 3 (component_id c))
          \/ app_code c = PENDING)
      /\ (starts_with "10." (ip c) = true \/ ip c = "0.0.0.0")
      /\ (starts_with "00:1B:44:11:3A:" (mac c) = true \/ mac c = "00:00:00:00:00:00")
      /\ (10 <= vlan c <= 399 \/ vlan c = 1))
  \/ (record_quality_grade c = RED
      /\ Generator.fqdn c = None
      /\ app_code c = PENDING
      /\ ip c = "0.0.0.0"
      /\ mac c = "00:00:00:00:00:00"
      /\ vlan c = 1
      /\ port c = 1).

(** The components and the component map go together: the ids of the
    components are distinct, below the counter and keys of the map, and every
    key of the map is the id of a component. *)
Definition linked (g : generator) : Prop :=
  NoDup (map component_id (components g))
  /\ (forall c, In c (components g) ->
        component_id c < component_id_counter g
        /\ is_Some (component_map g !! component_id c))
  /\ (forall i, is_Some (component_map g !! i) ->
        exists c, In c (components g) /\ component_id c = i).

(** From [g] to [g']: between [fst k] and [snd k] components were
    appended, each with data that agree with its grade; the relationships
    and the problems are as before. *)
Record built (k : nat * nat) (g g' : generator) : Prop := {
  built_components : exists new,
    components g' = components g ++ new
    /\ (fst k <= length new <= snd k)%nat
    /\ Forall graded new;
  built_relationships : relationships g' = relationships g;
  built_problems : problems_created g' = problems_created g;
  built_linked : linked g -> linked g'
}.

Definition pair_plus (a b : nat * nat) : nat * nat :=
  ((fst a + fst b)%nat, (snd a + snd b)%nat).

(** A wider interval. *)
Definition pair_le (a b : nat * nat) : Prop :=
  (fst b <= fst a)%nat /\ (snd a <= snd b)%nat.

(** [m] appends between [fst k] and [snd k] components. *)
Definition makes {A} (k : nat * nat) (m : M A) (V : A -> Prop) : Prop :=
  performs built k m V.

(** ** Timestamps left out *)

(** A component with its two timestamps set to 0. *)
Definition erase_component (c : component) : component :=
  {| component_id := component_id c;
     physical_location_id := physical_location_id c;
     vlan := vlan c; ip := ip c; port := port c; mac := mac c;
     app_code := app_code c; protocol_id := protocol_id c;
     record_quality_grade := record_quality_grade c;
     component_type_id := component_type_id c;
     component_subtype_id := component_subtype_id c;
     description := description c;
     environment_id := environment_id c;
     abstraction_level_id := abstraction_level_id c;
     ops_status_id := ops_status_id c;
     created_at := 0; created_by := created_by c;
     updated_at := 0; updated_by := updated_by c;
     fqdn := fqdn c |}.

(** A relationship with its two timestamps set to 0. *)
Definition erase_relationship (r : relationship) : relationship :=
  {| relationship_id := relationship_id r;
     rel_component_id := rel_component_id r;
     related_component_id := related_component_id r;
     relationship_type_id := relationship_type_id r;
     rel_description := rel_description r;
     rel_created_at := 0; rel_created_by := rel_created_by r;
     rel_updated_at := 0; rel_updated_by := rel_updated_by r |}.

Definition erase_generator (g : generator) : generator :=
  {| components := map erase_component (components g);
     relationships := map erase_relationship (relationships g);
     component_map := erase_component <$> component_map g;
     component_id_counter := component_id_counter g;
     relationship_id_counter := relationship_id_counter g;
     mac_counter := mac_counter g;
     problems_created := problems_created g;
     good_patterns_created := good_patterns_created g |}.

(** The world with the timestamps set to 0 and a clock that reads 0. *)
Definition erase_world (w : world) : world :=
  {| self := erase_generator (self w); rand := rand w; clock := [] |}.

(** The erasure of the values that the computations return. *)
Class Erase (A : Type) := erase : A -> A.

#[export] Instance erase_unit : Erase unit := fun x => x.
#[export] Instance erase_Z : Erase Z := fun x => x.
#[export] Instance erase_N : Erase N := fun x => x.
#[export] Instance erase_Q : Erase Q := fun x => x.
#[export] Instance erase_string : Erase string := fun x => x.
#[export] Instance erase_comp : Erase component := erase_component.
#[export] Instance erase_rel : Erase relationship := erase_relationship.
#[export] Instance erase_gen : Erase generator := erase_generator.
#[export] Instance erase_discovered : Erase discovered := fun x => x.
#[export] Instance erase_option {A} `{Erase A} : Erase (option A) := option_map erase.
#[export] Instance erase_list {A} `{Erase A} : Erase (list A) := map erase.
#[export] Instance erase_pair {A B} `{Erase A} `{Erase B} : Erase (A * B) :=
  fun p => (erase (fst p), erase (snd p)).

(** Two components equal in every field but [created_at] and
    [updated_at]. *)
Definition same_component (c1 c2 : component) : Prop :=
  component_id c1 = component_id c2
  /\ physical_location_id c1 = physical_location_id c2
  /\ vlan c1 = vlan c2
  /\ ip c1 = ip c2
  /\ port c1 = port c2
  /\ mac c1 = mac c2
  /\ app_code c1 = app_code c2
  /\ protocol_id c1 = protocol_id c2
  /\ record_quality_grade c1 = record_quality_grade c2
  /\ component_type_id c1 = component_type_id c2
  /\ component_subtype_id c1 = component_subtype_id c2
  /\ description c1 = description c2
  /\ environment_id c1 = environment_id c2
  /\ abstraction_level_id c1 = abstraction_level_id c2
  /\ ops_status_id c1 = ops_status_id c2
  /\ created_by c1 = created_by c2
  /\ updated_by c1 = updated_by c2
  /\ fqdn c1 = fqdn c2.

(** Two relationships equal in every field but [created_at] and
    [updated_at]. *)
Definition same_relationship (r1 r2 : relationship) : Prop :=
  relationship_id r1 = relationship_id r2
  /\ rel_component_id r1 = rel_component_id r2
  /\ related_component_id r1 = related_component_id r2
  /\ relationship_type_id r1 = relationship_type_id r2
  /\ rel_description r1 = rel_description r2
  /\ rel_created_by r1 = rel_created_by r2
  /\ rel_updated_by r1 = rel_updated_by r2.

(** One group of [db_pairs] with its members' timestamps erased. *)
Definition erase_members (p : string * list component) : string * list component :=
  (fst p, map erase_component (snd p)).

(** [m'] in the erased world does what [m] does in the world, timestamps
    left out. *)
Definition commutes {A} `{Erase A} (m m' : M A) : Prop :=
  forall w,
    m' (erase_world w)
    = option_map (fun r => (erase (fst r), erase_world (snd r))) (m w).

(** The problems recorded from [g] to [g']. *)
Definition new_problems (g g' : generator) (ps : list string) : Prop :=
  problems_created g' = problems_created g ++ ps.

(** [r] goes from the component [a] to the component [b]. *)
Definition from_to (r : relationship) (a b : component) : Prop :=
  rel_component_id r = component_id a /\ related_component_id r = component_id b.

(** The grade is one of the three. *)
Definition valid_grade (c : component) : Prop :=
  record_quality_grade c = GREEN
  \/ record_quality_grade c = YELLOW
  \/ record_quality_grade c = RED.

(** The message queues that [create_mq_patterns] takes for Kafka nodes. *)
Definition kafka_nodes_of (g : generator) : list component :=
  List.filter (fun m => str_in "kafka" (fqdn_or_empty m))
    (in_group GMq (components g)).

(** Two Kafka nodes or more, all in one location. *)
Definition single_dc_kafka (g : generator) : Prop :=
  2 <= len (kafka_nodes_of g)
  /\ forall a b, In a (kafka_nodes_of g) -> In b (kafka_nodes_of g) ->
       physical_location_id a = physical_location_id b.

(** [primary] is the primary of a group of two databases or more with one
    number, and the secondary of the group is in its location. *)
Definition same_dc_pair (g : generator) (primary : component) : Prop :=
  exists db_num members secondary,
    In (db_num, members) (group_by_number (in_group GDb (components g)))
    /\ 2 <= len members
    /\ List.find (fun d => str_in "pri" (fqdn_or_empty d)) members = Some primary
    /\ List.find (fun d => str_in "sec" (fqdn_or_empty d)) members = Some secondary
    /\ physical_location_id primary = physical_location_id secondary.

(** The component types that [generate_components] names. *)
Definition generated_types : list string :=
  ["application"; "polyglot_persistence"; "block_level_persistence"; "networking"].

(** The number of components of a scale: the six products of
    [scale_configs], the 3% of [other_ratio] left out. *)
Definition component_count (s : scale_t) : nat :=
  match s with
  | ScaleSmall => 48
  | ScaleMedium => 194
  | ScaleLarge => 485
  end.

Section Relations.

Variable ref : refdata.
Variable cfg : config.

(** What the first draws of a call of [create_component] decide: whether the
    component is pending, and how much of it is missing. *)
Definition is_pending_draw (w : world) : bool :=
  match random w with
  | Some (r, _) => Qltb r (pending_ratio cfg)
  | None => false
  end.

Definition missing_level_draw (w : world) : string :=
  match (_ ← random; choice ["partial"; "minimal"]) w with
  | Some (level, _) => level
  | None => ""
  end.

(** The component that a call of [create_component] made in [w]: graded by
    the draws, with the data of its grade. *)
Definition made_in (w : world) (fqdn description : string) (c : component) : Prop :=
  component_id c = component_id_counter (self w)
  /\ (is_pending_draw w = false ->
      record_quality_grade c = GREEN /\ complete_data fqdn description c)
  /\ (is_pending_draw w = true -> missing_level_draw w = "minimal" ->
      record_quality_grade c = RED /\ minimal_data c)
  /\ (is_pending_draw w = true -> missing_level_draw w = "partial" ->
      record_quality_grade c = YELLOW /\ partial_data fqdn description c)
  /\ (is_pending_draw w = true ->
      missing_level_draw w = "minimal" \/ missing_level_draw w = "partial").

(** A relationship between two entries of the component map [cm], of a
    type of the reference data. *)
Definition rel_ok (cm : gmap Z component) (r : relationship) : Prop :=
  is_Some (cm !! rel_component_id r)
  /\ is_Some (cm !! related_component_id r)
  /\ exists name, relationship_types ref !! name = Some (relationship_type_id r).

(** The two problems that the code creates behind a test of
    [problem_ratio]. *)
Definition gated_kind (text : string) : bool :=
  starts_with "Cross-DC cache" text || starts_with "Circular dependency" text.

(** A problem of a gated kind is only recorded under a positive ratio. *)
Definition gated (text : string) : Prop :=
  gated_kind text = true -> (0 < problem_ratio cfg)%Q.

(** From [g] to [g']: at most [n] relationships were appended, each between
    components of the map and of a known type; problems were appended, the
    gated kinds only under a positive ratio; the components stayed. *)
Record grows (n : nat) (g g' : generator) : Prop := {
  grows_components : components g' = components g;
  grows_map : component_map g' = component_map g;
  grows_counter : component_id_counter g' = component_id_counter g;
  grows_rels : exists new,
    relationships g' = relationships g ++ new
    /\ (length new <= n)%nat
    /\ Forall (rel_ok (component_map g)) new;
  grows_problems : exists new,
    problems_created g' = problems_created g ++ new /\ Forall gated new
}.

(** [m] grows the generator by at most [n] relationships, and returns a
    value that satisfies [V]. *)
Definition does {A} (n : nat) (m : M A) (V : A -> Prop) : Prop :=
  performs grows n m V.

(** No relationship mentions the component. *)
Definition is_orphan (g : generator) (comp : component) : bool :=
  negb (bool_decide (component_id comp ∈ components_with_rels_of (relationships g))).

Definition orphans_of (g : generator) : list component :=
  List.filter (is_orphan g) (components g).

(** From [g] to [g'] by [create_orphaned_components]: the orphaned
    components are marked in their description, the others and the
    relationships stay, and one problem is recorded when there is an
    orphan. *)
Record orphans_marked (g g' : generator) : Prop := {
  om_relationships : relationships g' = relationships g;
  om_components :
    components g' =
    map (fun comp => if is_orphan g comp then mark_orphaned comp else comp)
      (components g);
  om_map : forall i,
    is_Some (component_map g' !! i) <->
    is_Some (component_map g !! i)
    \/ exists c, In c (orphans_of g) /\ component_id c = i;
  om_counter : component_id_counter g' = component_id_counter g;
  om_problems :
    problems_created g' =
    problems_created g ++
    match orphans_of g with
    | [] => []
    | _ :: _ => [String.append (str_int (len (orphans_of g)))
                   " orphaned components wasting resources"]
    end
}.

(** The bound of the relationship step: the hub, one failover per database,
    five per cache, nine per message queue, eight per load balancer and the
    three of the circular dependency. *)
Definition rel_bound (g : generator) : nat :=
  (20 + length (in_group GDb (components g))
   + 5 * length (in_group GCache (components g))
   + 9 * length (in_group GMq (components g))
   + 8 * length (in_group GLb (components g)) + 3)%nat.

(** The relationship step from [g]: growth by at most [n] relationships,
    then the marking of the orphans. *)
Definition related (n : nat) (g : generator) (w' : world) : Prop :=
  exists g1, grows n g g1 /\ orphans_marked g1 (self w').

(** One component per call when the reference data know the type, none
    otherwise. *)
Definition known_type (ty : string) : nat :=
  if has_key ty (component_types ref) then 1%nat else 0%nat.

(** The numbers of components that the six loops of [generate_components]
    ask for. *)
Definition asked (s : scale_t) : list (string * Z) :=
  let config := scale_configs s in
  let total := total_components config in
  [ ("application", int_of_product total (app_ratio config));
    ("polyglot_persistence", int_of_product total (db_ratio config));
    ("polyglot_persistence", int_of_product total (cache_ratio config));
    ("polyglot_persistence", int_of_product total (mq_ratio config));
    ("block_level_persistence", int_of_product total (storage_ratio config));
    ("networking", int_of_product total (lb_ratio config)) ].

(** The least and the greatest number of components of a run. *)
Definition component_range (s : scale_t) : nat * nat :=
  fold_right (fun '(ty, n) acc =>
      pair_plus ((known_type ty * Z.to_nat n)%nat, Z.to_nat n) acc)
    (0%nat, 0%nat) (asked s).

(** A stored relationship: a typed edge between two components of the
    generator. *)
Definition endpoint (g : generator) (i : Z) : Prop :=
  is_Some (component_map g !! i)
  /\ exists c, In c (components g) /\ component_id c = i.

Definition stored_ok (g : generator) (r : relationship) : Prop :=
  endpoint g (rel_component_id r)
  /\ endpoint g (related_component_id r)
  /\ exists name, relationship_types ref !! name = Some (relationship_type_id r).

(** The range of a run: nothing is generated without a location. *)
Definition run_range : nat * nat :=
  if nonempty (physical_locations ref) then component_range (scale cfg)
  else (0%nat, 0%nat).

(** A whole run from [g]: the components are built, the relationships grow,
    the orphans are marked. *)
Definition generated (g : generator) (w' : world) : Prop :=
  exists g1, built run_range g g1 /\ related (rel_bound g1) g1 w'.

End Relations.

(** Sample reference data: three data centers and the types that the
    generator names. *)
Definition demo_ref : refdata :=
  {| component_types :=
       list_to_map [("application", 1); ("polyglot_persistence", 2);
                    ("block_level_persistence", 3); ("networking", 4)];
     component_subtypes :=
       [("web_application", 1); ("api_service", 2); ("relational_database", 5);
        ("nosql_database", 6); ("message_queue", 7); ("cache", 8);
        ("load_balancer", 12)];
     subtype_parent_map :=
       list_to_map [(1, "application"); (2, "application");
                    (5, "polyglot_persistence"); (6, "polyglot_persistence");
                    (7, "polyglot_persistence"); (8, "polyglot_persistence");
                    (12, "networking")];
     environments := list_to_map [("PROD", 4)];
     statuses := list_to_map [("OPERATIONAL", 1); ("DEGRADED", 2)];
     abstraction_levels := list_to_map [("virtual_machine", 2)];
     physical_locations := [("DC01_AL", 1); ("DC02_NC", 2); ("DC03_VA", 3)];
     relationship_types :=
       list_to_map [("replicates_from", 1); ("fails_over_to", 2);
                    ("consumes_api_from", 3); ("persists_to", 4);
                    ("publishes_to", 5); ("subscribes_to", 6); ("proxied_by", 7)];
     protocols := list_to_map [("HTTPS", 2)] |}.

(** The world after [generate_components], from a fresh generator. *)
Definition built_world (ref : refdata) (cfg : config) (seed : list N)
    (times : list Z) : world :=
  match generate_components ref cfg (init_world seed times) with
  | Some (_, w) => w
  | None => init_world seed times
  end.

(** Raw draws that vary: the upper 53 bits of a 64-bit linear congruential
    sequence from [x]. *)
Fixpoint congruential (n : nat) (x : N) : list N :=
  match n with
  | O => []
  | S n' =>
      let x' := ((x * 6364136223846793005 + 1442695040888963407) mod 2 ^ 64)%N in
      (x' / 2 ^ 11)%N :: congruential n' x'
  end.

(** A complete database record, and a generator that holds a primary and a
    secondary database of one number in one location. *)
Definition sample_db (i : Z) (name : string) (location_id : Z) : component :=
  {| component_id := i; physical_location_id := location_id;
     vlan := 210; ip := "10.1.30.10"; port := 5432;
     mac := String.append "00:1B:44:11:3A:" (fmt_X 2 i);
     app_code := String.append "APP" (fmt_d 3 i);
     protocol_id := 2; record_quality_grade := GREEN;
     component_type_id := 2; component_subtype_id := 5;
     description := "Primary database for critical data";
     environment_id := 4; abstraction_level_id := 2; ops_status_id := 1;
     created_at := 0; created_by := "demo_data_generator_v2";
     updated_at := 0; updated_by := "demo_data_generator_v2";
     fqdn := Some name |}.

Definition paired_generator : generator :=
  {| components := [ sample_db 1 "db01pri.prod.dc01.regions.com" 1;
                     sample_db 2 "db01sec.prod.dc01.regions.com" 1 ];
     relationships := [];
     component_map :=
       list_to_map [ (1, sample_db 1 "db01pri.prod.dc01.regions.com" 1);
                     (2, sample_db 2 "db01sec.prod.dc01.regions.com" 1) ];
     component_id_counter := 3; relationship_id_counter := 1; mac_counter := 3;
     problems_created := []; good_patterns_created := [] |}.

(** The default arguments, at a given scale and problem ratio. *)
Definition demo_cfg (s : scale_t) (ratio : Q) : config :=
  {| scale := s; problem_ratio := ratio; app_concentration := ConcMedium;
     pending_ratio := 0 |}.

End GeneratorSpec.
(* ===================================================================== *)
(** * Reading the printed numbers back *)
(* ===================================================================== *)

Module PyStrSpec.
Import PyStr.




(** The number that an upper-case hexadecimal digit stands for. *)
Definition hex_value (c : ascii) : nat :=
  let n := nat_of_ascii c in if (n <? 58)%nat then (n - 48)%nat else (n - 55)%nat.

Fixpoint hex_digits_value (s : string) (acc : nat) : nat :=
  match s with
  | EmptyString => acc
  | String c s' => hex_digits_value s' (16 * acc + hex_value c)
  end.

(** The text has no ['.']. *)
Fixpoint dot_free (s : string) : bool :=
  match s with
  | EmptyString => true
  | String c s' => negb (Ascii.eqb c ".") && dot_free s'
  end.

End PyStrSpec.

(* ===================================================================== *)
(** * Properties of the Python string model *)
(* ===================================================================== *)

Section PyStrFacts.
Import PyStr.

Lemma append_String (a : ascii) (p r : string) :
  String.append (String a p) r = String a (String.append p r).
Proof. reflexivity. Qed.

Lemma append_Empty (r : string) : String.append EmptyString r = r.
Proof. reflexivity. Qed.

Lemma starts_with_spec (p s : string) :
  starts_with p s = true <-> exists rest, s = String.append p rest.
Proof.
  revert s. induction p as [|a p IH]; intros s; simpl.
  - split; [intros _; exists s; reflexivity | reflexivity].
  - destruct s as [|b s].
    + split; [discriminate | intros [rest H]; discriminate].
    + destruct (Ascii.eqb_spec a b) as [->|Hne].
      * rewrite IH. split; intros [rest H]; exists rest.
        -- rewrite append_String, H. reflexivity.
        -- rewrite append_String in H. injection H as H. exact H.
      * split; [discriminate | intros [rest H]].
        rewrite append_String in H. congruence.
Qed.

(** [str_in p s] holds exactly when [s] is some text, then [p], then some
    text. *)
Lemma str_in_spec (p s : string) :
  str_in p s = true <->
  exists before after, s = String.append before (String.append p after).
Proof.
  induction s as [|c s IH].
  - simpl. destruct (starts_with p EmptyString) eqn:E.
    + apply starts_with_spec in E as [rest E].
      split; [intros _; exists EmptyString, rest; exact E | reflexivity].
    + split; [discriminate|].
      intros [[|b before] [after H]]; [|discriminate].
      rewrite append_Empty in H.
      assert (starts_with p EmptyString = true) as E'
        by (apply starts_with_spec; exists after; exact H).
      congruence.
  - simpl. destruct (starts_with p (String c s)) eqn:E.
    + apply starts_with_spec in E as [rest E].
      split; [intros _; exists EmptyString, rest; exact E | reflexivity].
    + rewrite IH. split.
      * intros (before & after & ->). exists (String c before), after. reflexivity.
      * intros ([|b before] & after & H).
        -- rewrite append_Empty in H.
           assert (starts_with p (String c s) = true) as E'
             by (apply starts_with_spec; exists after; exact H).
           congruence.
        -- rewrite append_String in H. injection H as -> ->.
           exists before, after. reflexivity.
Qed.

End PyStrFacts.

(* ===================================================================== *)
(** * Properties of the graph builder *)
(* ===================================================================== *)

Section GraphFacts.
Import PyStr Graph GraphSpec.

Lemma calculate_node_size_uniform comp :
  calculate_node_size comp "uniform" = 30.
Proof. reflexivity. Qed.

Lemma calculate_node_size_other comp mode :
  mode <> "uniform" ->
  calculate_node_size comp mode = Z.min 60 (20 + 2 * relevant_count comp mode).
Proof.
  intros Hm. unfold calculate_node_size, relevant_count.
  destruct (String.eqb_spec mode "uniform") as [->|_]; [congruence|].
  repeat match goal with |- context [String.eqb ?a ?b] => destruct (String.eqb a b) end; lia.
Qed.

Lemma create_node_size comp mode :
  node_size (create_node comp mode) = Some (calculate_node_size comp mode).
Proof. reflexivity. Qed.

Lemma create_graph_data_nodes d mode h dep peer comps :
  components d = Some comps ->
  fst (create_graph_data d mode h dep peer) = map (fun c => create_node c mode) comps.
Proof. intros H. unfold create_graph_data. rewrite H. reflexivity. Qed.


Lemma node_matches_spec term d :
  node_matches (lower term) d = true <-> node_contains term d.
Proof.
  unfold node_matches, node_contains, contains_ci.
  rewrite !orb_true_iff, !str_in_spec. tauto.
Qed.

Lemma highlight_highlighted n : highlighted n (highlight n).
Proof.
  unfold highlighted, highlight; simpl. repeat split.
  - rewrite lookup_insert_ne by discriminate. apply lookup_insert_eq.
  - apply lookup_insert_eq.
  - intros k H1 H2. rewrite !lookup_insert_ne by congruence. reflexivity.
Qed.

Lemma fade_faded n : faded n (fade n).
Proof.
  unfold faded, fade; simpl. repeat split.
  - apply lookup_insert_eq.
  - intros k H1. rewrite lookup_insert_ne by congruence. reflexivity.
Qed.

(** The ids collected by the loops of the neighborhood filter. *)
Lemma matched_ids_of_spec nodes sl i :
  i ∈ matched_ids_of nodes sl <->
  exists m, In m nodes /\ node_matches sl (data m) = true /\ id (data m) = i.
Proof.
  unfold matched_ids_of.
  enough (forall acc : gset string,
    i ∈ foldl (fun (matched_ids : gset string) node =>
                 if node_matches sl (data node)
                 then matched_ids ∪ {[ id (data node) ]} else matched_ids) acc nodes
    <-> i ∈ acc \/ exists m, In m nodes /\ node_matches sl (data m) = true
                            /\ id (data m) = i) as H.
  { rewrite H. split; [intros [H0|H0]; [set_solver | exact H0] | auto]. }
  induction nodes as [|n nodes IH]; intros acc; simpl.
  - split; [auto | intros [H|(m & [] & _)]; exact H].
  - rewrite IH. destruct (node_matches sl (data n)) eqn:E.
    + rewrite elem_of_union, elem_of_singleton. split.
      * intros [[H|H]|(m & Hm & H)]; [auto | right; exists n; auto | right; exists m; auto].
      * intros [H|(m & [->|Hm] & H1 & H2)]; [auto | auto | right; exists m; auto].
    + split.
      * intros [H|(m & Hm & H)]; [auto | right; exists m; auto].
      * intros [H|(m & [->|Hm] & H1 & H2)]; [auto | congruence | right; exists m; auto].
Qed.

Lemma joins_matched (matched : gset string) e i :
  (exists a, a ∈ matched /\ joins e a i) <->
  (source (edata e) ∈ matched /\ target (edata e) = i)
  \/ (target (edata e) ∈ matched /\ source (edata e) = i).
Proof.
  unfold joins. split.
  - intros (a & Ha & [[<- <-]|[<- <-]]); auto.
  - intros [[H <-]|[H <-]]; eexists; (split; [exact H|]); auto.
Qed.

Lemma connected_ids_of_spec (matched : gset string) edges i :
  i ∈ connected_ids_of matched edges <->
  i ∈ matched \/ exists e a, In e edges /\ a ∈ matched /\ joins e a i.
Proof.
  unfold connected_ids_of.
  enough (forall acc : gset string,
    i ∈ foldl (fun (connected_ids : gset string) edge =>
           let source := source (edata edge) in
           let target := target (edata edge) in
           let c1 := if bool_decide (source ∈ matched)
                     then connected_ids ∪ {[ target ]} else connected_ids in
           if bool_decide (target ∈ matched)
           then c1 ∪ {[ source ]} else c1) acc edges
    <-> i ∈ acc \/ exists e, In e edges /\ exists a, a ∈ matched /\ joins e a i) as H.
  { rewrite H. split.
    - intros [H0|(e & H1 & a & H2 & H3)]; [auto|right]. exists e, a. auto.
    - intros [H0|(e & a & H1 & H2 & H3)]; [auto|right]. exists e. split; [auto|].
      exists a. auto. }
  induction edges as [|e edges IHe]; intros acc; simpl.
  - split; [auto | intros [H|(e & [] & _)]; exact H].
  - rewrite IHe.
    split.
    + intros [H|(e' & He & H)]; [|right; exists e'; auto].
      destruct (bool_decide_reflect (source (edata e) ∈ matched)) as [Hs|Hs];
      destruct (bool_decide_reflect (target (edata e) ∈ matched)) as [Ht|Ht];
      rewrite ?elem_of_union, ?elem_of_singleton in H;
      try (destruct H as [[H|H]|H] || destruct H as [H|H]); auto;
      right; exists e; (split; [auto|]); apply joins_matched; auto.
    + intros [H|(e' & [<-|He] & H)]; [| |right; exists e'; auto].
      * left. repeat case_bool_decide; set_solver.
      * left. apply joins_matched in H.
        destruct H as [[H <-]|[H <-]]; repeat case_bool_decide; set_solver.
Qed.

Lemma matched_ids_matching term nodes i :
  i ∈ matched_ids_of nodes (lower term) <-> matching_id term nodes i.
Proof.
  rewrite matched_ids_of_spec. unfold matching_id.
  split; intros (m & H1 & H2 & H3); exists m; (split; [exact H1|]); split;
    try exact H3; apply node_matches_spec; exact H2.
Qed.

Lemma connected_ids_near term nodes edges i :
  i ∈ connected_ids_of (matched_ids_of nodes (lower term)) edges
  <-> near_id term nodes edges i.
Proof.
  rewrite connected_ids_of_spec. unfold near_id. rewrite matched_ids_matching.
  split; (intros [H|(e & a & H1 & H2 & H3)]; [left; exact H | right]);
    exists e, a; (split; [exact H1|]); (split; [|exact H3]);
    apply matched_ids_matching; exact H2.
Qed.

Lemma flat_map_filter_map {A B} (keep : A -> bool) (f : A -> B) (l : list A) :
  flat_map (fun x => if keep x then [f x] else []) l = map f (List.filter keep l).
Proof.
  induction l as [|x l IHl]; simpl; [reflexivity|].
  destruct (keep x); simpl; rewrite IHl; reflexivity.
Qed.

Lemma no_match_empty term nodes :
  (forall m, In m nodes -> ~ node_contains term (data m)) ->
  matched_ids_of nodes (lower term) = ∅.
Proof.
  intros H. apply set_eq. intros i. rewrite matched_ids_matching.
  split; [|set_solver]. intros (m & Hm & Hc & _). destruct (H m Hm Hc).
Qed.

Lemma some_match_nonempty term nodes :
  (exists m, In m nodes /\ node_contains term (data m)) ->
  matched_ids_of nodes (lower term) <> ∅.
Proof.
  intros (m & Hm & Hc) E.
  assert (id (data m) ∈ matched_ids_of nodes (lower term)) as H
    by (apply matched_ids_matching; exists m; auto).
  rewrite E in H. set_solver.
Qed.

(** On a list of nodes with distinct ids, a node is found by its id. *)
Lemma unique_id_node nodes (n m : node) :
  NoDup (map (fun x => id (data x)) nodes) ->
  In n nodes -> In m nodes -> id (data m) = id (data n) -> m = n.
Proof.
  induction nodes as [|x nodes IHn]; simpl; [tauto|].
  intros Hnd [->|Hn] [->|Hm] E; auto.
  - apply NoDup_cons in Hnd as [Hx _]. exfalso. apply Hx.
    apply list_elem_of_In, in_map_iff. exists m. auto.
  - apply NoDup_cons in Hnd as [Hx _]. exfalso. apply Hx.
    apply list_elem_of_In, in_map_iff. exists n. auto.
  - apply NoDup_cons in Hnd as [_ Hnd]. auto.
Qed.

End GraphFacts.

(* ===================================================================== *)
(** * The graph builder: node sizes, search filter, neighborhood filter *)
(* ===================================================================== *)

Section GraphClaims.
Import PyStr Graph GraphSpec.

(** C10, as the code has it.  Every node that [create_graph_data] builds
    carries the size 30 in the uniform sizing mode and otherwise the minimum
    of 60 and 20 plus twice the connection count of the mode.  The size is
    never above 60.  It is 20 or more exactly when the mode is uniform or the
    connection count is not negative: the code has no lower bound. *)
Theorem node_size_formula_and_bounds
    (d : graph_input) (sizing_mode : string)
    (show_hierarchical show_dependencies show_peer : bool) :
  Forall2 (fun comp n =>
      exists size,
        node_size n = Some size
        /\ (sizing_mode = "uniform" -> size = 30)
        /\ (sizing_mode <> "uniform" ->
            size = Z.min 60 (20 + 2 * relevant_count comp sizing_mode))
        /\ size <= 60
        /\ (20 <= size <->
            sizing_mode = "uniform" \/ 0 <= relevant_count comp sizing_mode))
    (default [] (Graph.components d))
    (fst (create_graph_data d sizing_mode show_hierarchical show_dependencies show_peer)).
Proof.
  unfold create_graph_data.
  destruct (Graph.components d) as [comps|]; simpl; [|constructor].
  induction comps as [|comp comps IHc]; simpl; [constructor|].
  constructor; [|exact IHc].
  exists (calculate_node_size comp sizing_mode).
  split; [apply create_node_size|].
  split; [intros ->; apply calculate_node_size_uniform|].
  split; [apply calculate_node_size_other|].
  destruct (String.eqb_spec sizing_mode "uniform") as [->|Hm].
  - rewrite calculate_node_size_uniform. split; [lia|]. split; [auto | lia].
  - rewrite (calculate_node_size_other _ _ Hm). split; [lia|]. split.
    + intros H. right. lia.
    + intros [H|H]; [congruence | lia].
Qed.

Lemma node_size_formula_and_bounds_witness :
  Forall2 (fun comp n =>
      exists size,
        node_size n = Some size
        /\ ("combined" = "uniform" -> size = 30)
        /\ ("combined" <> "uniform" ->
            size = Z.min 60 (20 + 2 * relevant_count comp "combined"))
        /\ size <= 60
        /\ (20 <= size <-> "combined" = "uniform" \/ 0 <= relevant_count comp "combined"))
    [sample_row; negative_row]
    (fst (create_graph_data
            {| Graph.components := Some [sample_row; negative_row];
               Graph.relationships := None |} "combined" true true true)).
Proof.
  exact (node_size_formula_and_bounds
           {| Graph.components := Some [sample_row; negative_row];
              Graph.relationships := None |} "combined" true true true).
Defined.

(** C10 as stated fails on a row with the count -5: its node has the size
    10 in the combined mode. *)
Lemma node_size_below_twenty :
  map node_size
    (fst (create_graph_data
            {| Graph.components := Some [negative_row]; Graph.relationships := None |}
            "combined" true true true))
  = [Some 10].
Proof. reflexivity. Qed.

(** C4.  The search filter returns the nodes unchanged for the empty term.
    For another term it returns as many nodes, in the same order and with the
    same data: a node whose name, ip, vlan or location contains the term,
    case ignored, gets the border color [#FFD700] and the border width 4; any
    other node gets the opacity 0.3; the other style keys stay. *)
Theorem search_filter_highlights_and_fades (nodes : list node) (search_term : string) :
  (search_term = "" -> apply_search_filter nodes search_term = nodes)
  /\ (search_term <> "" ->
      Forall2 (fun n n' =>
          (node_contains search_term (data n) -> highlighted n n')
          /\ (~ node_contains search_term (data n) -> faded n n'))
        nodes (apply_search_filter nodes search_term)).
Proof.
  split; [intros ->; reflexivity|].
  intros Hne. unfold apply_search_filter.
  destruct (String.eqb_spec search_term "") as [->|_]; [congruence|].
  induction nodes as [|n nodes IHn]; simpl; [constructor|].
  constructor; [|exact IHn].
  destruct (node_matches (lower search_term) (data n)) eqn:E.
  - apply node_matches_spec in E.
    split; [intros _; apply highlight_highlighted | tauto].
  - split; [|intros _; apply fade_faded].
    intros H. apply node_matches_spec in H. congruence.
Qed.

Lemma search_filter_highlights_and_fades_witness :
  "WEB" <> ""
  /\ Forall2 (fun n n' =>
        (node_contains "WEB" (data n) -> highlighted n n')
        /\ (~ node_contains "WEB" (data n) -> faded n n'))
      [plain_node "1" "webapp01"; plain_node "2" "db01pri"]
      (apply_search_filter [plain_node "1" "webapp01"; plain_node "2" "db01pri"] "WEB").
Proof.
  split; [discriminate|].
  apply (proj2 (search_filter_highlights_and_fades
                  [plain_node "1" "webapp01"; plain_node "2" "db01pri"] "WEB")).
  discriminate.
Defined.

(** C3, as the code has it.  For a term that is not empty: when no node
    matches, the two lists are returned as they are; otherwise the nodes
    returned are, in order, those whose id is the id of a matching node or is
    joined by an edge to the id of a matching node (the nodes with the id of a
    matching node are highlighted), and the edges returned are those whose
    source and target are both such ids.  On a graph whose node ids are
    distinct and whose edges end in node ids, these are the nodes that match
    or share an edge with a matching node, and the edges between kept
    nodes. *)
Theorem neighborhood_filter_by_ids (nodes : list node) (edges : list edge)
    (search_term : string) :
  search_term <> "" ->
  ((forall m, In m nodes -> ~ node_contains search_term (data m)) ->
   apply_neighborhood_filter nodes edges search_term = (nodes, edges))
  /\ ((exists m, In m nodes /\ node_contains search_term (data m)) ->
      exists (keep_node lit : node -> bool) (keep_edge : edge -> bool),
        (forall n, keep_node n = true <-> near_id search_term nodes edges (id (data n)))
        /\ (forall n, lit n = true <-> matching_id search_term nodes (id (data n)))
        /\ (forall e, keep_edge e = true <->
              near_id search_term nodes edges (source (edata e))
              /\ near_id search_term nodes edges (target (edata e)))
        /\ apply_neighborhood_filter nodes edges search_term
           = (map (fun n => if lit n then highlight n else n) (List.filter keep_node nodes),
              List.filter keep_edge edges)
        /\ (NoDup (map (fun n => id (data n)) nodes) ->
            (forall e, In e edges ->
               (exists n, In n nodes /\ id (data n) = source (edata e))
               /\ (exists n, In n nodes /\ id (data n) = target (edata e))) ->
            (forall n, In n nodes ->
               (keep_node n = true <->
                node_contains search_term (data n)
                \/ exists e m, In e edges /\ In m nodes
                               /\ node_contains search_term (data m)
                               /\ joins e (id (data m)) (id (data n))))
            /\ (forall e, In e edges ->
               (keep_edge e = true <->
                (exists n, In n nodes /\ keep_node n = true
                           /\ id (data n) = source (edata e))
                /\ (exists n, In n nodes /\ keep_node n = true
                              /\ id (data n) = target (edata e)))))).
Proof.
  intros Hne. unfold apply_neighborhood_filter.
  destruct (String.eqb_spec search_term "") as [->|_]; [congruence|].
  split.
  - intros Hno. rewrite (no_match_empty _ _ Hno).
    rewrite bool_decide_eq_true_2 by reflexivity. reflexivity.
  - intros Hsome. pose proof (some_match_nonempty _ _ Hsome) as Hm.
    rewrite bool_decide_eq_false_2 by exact Hm.
    set (matched := matched_ids_of nodes (lower search_term)).
    set (connected := connected_ids_of matched edges).
    exists (fun n => bool_decide (id (data n) ∈ connected)),
           (fun n => bool_decide (id (data n) ∈ matched)),
           (fun e => bool_decide (source (edata e) ∈ connected)
                     && bool_decide (target (edata e) ∈ connected)).
    assert (forall n, bool_decide (id (data n) ∈ connected) = true
                      <-> near_id search_term nodes edges (id (data n))) as Hkeep.
    { intros n. rewrite bool_decide_eq_true. apply connected_ids_near. }
    assert (forall e, bool_decide (source (edata e) ∈ connected)
                      && bool_decide (target (edata e) ∈ connected) = true
                      <-> near_id search_term nodes edges (source (edata e))
                          /\ near_id search_term nodes edges (target (edata e))) as Hedge.
    { intros e. rewrite andb_true_iff, !bool_decide_eq_true.
      unfold connected, matched. rewrite !connected_ids_near. reflexivity. }
    split; [exact Hkeep|].
    split; [intros n; rewrite bool_decide_eq_true; apply matched_ids_matching|].
    split; [exact Hedge|].
    split.
    + f_equal.
      apply (flat_map_filter_map (fun n => bool_decide (id (data n) ∈ connected))
               (fun n => if bool_decide (id (data n) ∈ matched) then highlight n else n)).
    + intros Hnd Hclosed.
      assert (forall n, In n nodes ->
                (matching_id search_term nodes (id (data n))
                 <-> node_contains search_term (data n))) as Hmid.
      { intros n Hn. split.
        - intros (m & Hm1 & Hm2 & Hm3).
          rewrite <- (unique_id_node nodes n m Hnd Hn Hm1 Hm3). exact Hm2.
        - intros Hc. exists n. auto. }
      assert (forall n, In n nodes ->
                (near_id search_term nodes edges (id (data n)) <->
                 node_contains search_term (data n)
                 \/ exists e m, In e edges /\ In m nodes
                                /\ node_contains search_term (data m)
                                /\ joins e (id (data m)) (id (data n)))) as Hnear.
      { intros n Hn. unfold near_id. rewrite (Hmid n Hn). split.
        - intros [H|(e & a & He & (m & Hm1 & Hm2 & <-) & Hj)]; [auto|right].
          exists e, m. auto.
        - intros [H|(e & m & He & Hm1 & Hm2 & Hj)]; [auto|right].
          exists e, (id (data m)). split; [exact He|]. split; [|exact Hj].
          exists m. auto. }
      split.
      * intros n Hn. rewrite Hkeep. apply Hnear. exact Hn.
      * intros e He. rewrite Hedge. destruct (Hclosed e He) as [(s & Hs & Es) (t & Ht & Et)].
        split.
        -- intros [H1 H2]. split.
           ++ exists s. split; [exact Hs|]. split; [|exact Es].
              apply Hkeep. rewrite Es. exact H1.
           ++ exists t. split; [exact Ht|]. split; [|exact Et].
              apply Hkeep. rewrite Et. exact H2.
        -- intros [(s' & _ & Hk1 & E1) (t' & _ & Hk2 & E2)].
           rewrite <- E1, <- E2. split; apply Hkeep; assumption.
Qed.

Lemma lower_web_in_webapp : node_contains "WEB" (data (plain_node "1" "webapp01")).
Proof. left. exists "", "app01". reflexivity. Qed.

Lemma neighborhood_filter_by_ids_witness :
  exists (keep_node lit : node -> bool) (keep_edge : edge -> bool),
    keep_node (plain_node "2" "db01pri") = true
    /\ lit (plain_node "2" "db01pri") = false
    /\ apply_neighborhood_filter
         [plain_node "1" "webapp01"; plain_node "2" "db01pri"; plain_node "3" "lb01"]
         [plain_edge "1" "2"] "WEB"
       = (map (fun n => if lit n then highlight n else n)
            (List.filter keep_node
               [plain_node "1" "webapp01"; plain_node "2" "db01pri"; plain_node "3" "lb01"]),
          List.filter keep_edge [plain_edge "1" "2"]).
Proof.
  destruct (neighborhood_filter_by_ids
              [plain_node "1" "webapp01"; plain_node "2" "db01pri"; plain_node "3" "lb01"]
              [plain_edge "1" "2"] "WEB") as [_ H]; [discriminate|].
  destruct H as (keep_node & lit & keep_edge & Hk & Hl & _ & Heq & _).
  - exists (plain_node "1" "webapp01"). split; [left; reflexivity | apply lower_web_in_webapp].
  - exists keep_node, lit, keep_edge. split; [|split; [|exact Heq]].
    + apply Hk. right. exists (plain_edge "1" "2"), "1".
      split; [left; reflexivity|]. split; [|left; split; reflexivity].
      exists (plain_node "1" "webapp01").
      split; [left; reflexivity|]. split; [apply lower_web_in_webapp | reflexivity].
    + destruct (lit (plain_node "2" "db01pri")) eqn:E; [|reflexivity].
      apply Hl in E. destruct E as (m & Hm & Hc & Hid).
      destruct Hm as [<-|[<-|[<-|[]]]]; try discriminate Hid.
      exfalso. revert Hc. rewrite <- node_matches_spec. vm_compute. discriminate.
Defined.

(** C3 as stated fails on an edge that leaves the node list: the node "1"
    matches, the edge from "1" to "9" is kept, and no kept node has the id
    "9". *)
Lemma neighborhood_filter_dangling_edge :
  let '(kept_nodes, kept_edges) :=
    apply_neighborhood_filter [plain_node "1" "webapp01"] [plain_edge "1" "9"] "web" in
  In (plain_edge "1" "9") kept_edges
  /\ ~ exists n, In n kept_nodes /\ id (data n) = target (edata (plain_edge "1" "9")).
Proof.
  vm_compute. split; [left; reflexivity|].
  intros (n & [<-|[]] & H). discriminate H.
Qed.

End GraphClaims.

(* ===================================================================== *)
(** * The analytics engine: the metrics dictionary *)
(* ===================================================================== *)

Section AnalyticsClaims.
Import Analytics AnalyticsSpec.

(** A step of [calculate_metrics] keeps the keys it does not write. *)
Ltac step_cases :=
  repeat match goal with
    | H : context [if ?b then _ else _] |- _ => destruct b eqn:?
    | H : context [match ?o with Some _ => _ | None => _ end] |- _ => destruct o eqn:?
    | H : Some _ = Some _ |- _ => injection H as H; subst
    | H : None = Some _ |- _ => discriminate H
    | H : _ ≫= _ = Some _ |- _ => apply bind_Some in H as (? & ? & H)
    | H : mbind _ _ = Some _ |- _ => apply bind_Some in H as (? & ? & H)
    | H : option_map _ _ = Some _ |- _ => apply fmap_Some in H as (? & ? & ->)
    end.

Lemma column_Some df col :
  has_column df col = true ->
  column df col = Some (map (fun row => default CNull (row !! col)) (df_rows df)).
Proof. intros H. unfold column. rewrite H. reflexivity. Qed.

Lemma count_eq_rows df grade :
  count_eq (CStr grade)
    (map (fun row => default CNull (row !! "record_quality_grade")) (df_rows df))
  = rows_with_grade df grade.
Proof.
  unfold count_eq, rows_with_grade. f_equal.
  induction (df_rows df) as [|row rows IHr]; simpl; [reflexivity|].
  assert (bool_decide (default CNull (row !! "record_quality_grade") = CStr grade)
          = bool_decide (row !! "record_quality_grade" = Some (CStr grade))) as ->.
  { apply bool_decide_ext. destruct (row !! "record_quality_grade"); simpl;
      split; congruence. }
  destruct (bool_decide _); simpl; rewrite IHr; reflexivity.
Qed.

Lemma series_mean_values s z zs :
  numeric_values s = Some (z :: zs) ->
  series_mean s = Some (MFloat (mean_of (z :: zs))).
Proof. intros H. unfold series_mean. rewrite H. reflexivity. Qed.

Lemma basic_counts_spec df m m' :
  basic_counts df m = Some m' ->
  m' !! "total_components" = Some (MInt (df_len df))
  /\ forall k, k <> "total_components" -> k <> "component_types" -> k <> "locations" ->
               m' !! k = m !! k.
Proof.
  unfold basic_counts. intros H. step_cases.
  split; intros; rewrite !lookup_insert_ne by congruence;
    [apply lookup_insert_eq | reflexivity].
Qed.

Lemma basic_counts_runs df m :
  has_column df "component_type" = true ->
  has_column df "physical_location" = true ->
  is_Some (basic_counts df m).
Proof.
  intros H1 H2. unfold basic_counts.
  rewrite (column_Some _ _ H1), (column_Some _ _ H2). simpl. eauto.
Qed.

Lemma network_metrics_spec df m :
  exists m', network_metrics df m = Some m'
  /\ forall k, k <> "total_vlans" -> k <> "components_with_ip" -> m' !! k = m !! k.
Proof.
  unfold network_metrics, column.
  destruct (has_column df "vlan"), (has_column df "ip"); simpl;
    eexists; (split; [reflexivity|]); intros;
    rewrite !lookup_insert_ne by congruence; reflexivity.
Qed.

Lemma protocol_metrics_spec df m :
  (has_column df "protocol_name" = true -> has_column df "protocol_id" = true) ->
  exists m', protocol_metrics df m = Some m'
  /\ forall k, k <> "unique_protocols" -> k <> "unassigned_protocols" -> m' !! k = m !! k.
Proof.
  intros H. unfold protocol_metrics.
  destruct (has_column df "protocol_name") eqn:E.
  - rewrite (column_Some _ _ E), (column_Some _ _ (H eq_refl)). simpl.
    eexists; (split; [reflexivity|]); intros;
      rewrite !lookup_insert_ne by congruence; reflexivity.
  - eauto.
Qed.

Lemma mac_metrics_spec df m :
  exists m', mac_metrics df m = Some m'
  /\ forall k, k <> "unique_mac_addresses" -> k <> "default_mac_addresses" ->
               m' !! k = m !! k.
Proof.
  unfold mac_metrics. destruct (has_column df "mac") eqn:E.
  - rewrite (column_Some _ _ E). simpl.
    eexists; (split; [reflexivity|]); intros;
      rewrite !lookup_insert_ne by congruence; reflexivity.
  - eauto.
Qed.

Lemma quality_metrics_spec df m :
  exists m', quality_metrics df m = Some m'
  /\ (forall k, k <> "green_records" -> k <> "yellow_records" -> k <> "red_records" ->
                m' !! k = m !! k)
  /\ (has_column df "record_quality_grade" = true ->
      m' !! "green_records" = Some (MInt (rows_with_grade df "_PT_GREEN_RECORD_"))
      /\ m' !! "yellow_records" = Some (MInt (rows_with_grade df "_PT_YELLOW_RECORD_"))
      /\ m' !! "red_records" = Some (MInt (rows_with_grade df "_PT_RED_RECORD_")))
  /\ (has_column df "record_quality_grade" = false -> m' = m).
Proof.
  unfold quality_metrics. destruct (has_column df "record_quality_grade") eqn:E.
  - rewrite (column_Some _ _ E). simpl. rewrite !count_eq_rows.
    eexists; (split; [reflexivity|]). split; [|split; [|discriminate]].
    + intros; rewrite !lookup_insert_ne by congruence; reflexivity.
    + intros _. repeat split.
      * rewrite !lookup_insert_ne by discriminate. apply lookup_insert_eq.
      * rewrite lookup_insert_ne by discriminate. apply lookup_insert_eq.
      * apply lookup_insert_eq.
  - eexists; (split; [reflexivity|]). split; [reflexivity|]. split; [discriminate|reflexivity].
Qed.

Lemma connection_metrics_spec df m :
  numeric_column df "total_relationship_count" ->
  exists m', connection_metrics df m = Some m'
  /\ (forall k, k <> "avg_connections" -> k <> "max_connections" ->
                k <> "isolated_components" -> m' !! k = m !! k)
  /\ (has_column df "total_relationship_count" = true ->
      forall s z zs, column df "total_relationship_count" = Some s ->
        numeric_values s = Some (z :: zs) ->
        m' !! "avg_connections" = Some (MFloat (mean_of (z :: zs))))
  /\ (has_column df "total_relationship_count" = false -> m' = m).
Proof.
  intros Hnum. unfold connection_metrics.
  destruct (has_column df "total_relationship_count") eqn:E.
  - destruct (Hnum E) as (s & Hs & [zs Hzs]). rewrite Hs. simpl.
    unfold series_mean, series_max. rewrite Hzs.
    destruct zs as [|z zs]; simpl.
    + eexists; (split; [reflexivity|]). split; [|split; [|discriminate]].
      * intros; rewrite !lookup_insert_ne by congruence; reflexivity.
      * intros _ s' z' zs' Hs'. congruence.
    + eexists; (split; [reflexivity|]). split; [|split; [|discriminate]].
      * intros; rewrite !lookup_insert_ne by congruence; reflexivity.
      * intros _ s' z' zs' Hs' Hv. rewrite !lookup_insert_ne by discriminate.
        rewrite lookup_insert_eq.
        assert (s' = s) as -> by congruence. rewrite Hzs in Hv.
        injection Hv as <- <-. reflexivity.
  - eexists; (split; [reflexivity|]). split; [reflexivity|]. split; [discriminate|reflexivity].
Qed.

Lemma dependency_metrics_spec d m :
  exists m', dependency_metrics d m = Some m'
  /\ forall k, k <> "total_dependencies" -> k <> "unique_consumers" ->
               k <> "unique_producers" -> m' !! k = m !! k.
Proof.
  unfold dependency_metrics, column.
  destruct (dependencies d) as [deps|]; [|eauto].
  destruct (df_empty deps); [eauto|].
  destruct (has_column deps "component_id"), (has_column deps "related_component_id");
    simpl; eexists; (split; [reflexivity|]); intros;
    rewrite !lookup_insert_ne by congruence; reflexivity.
Qed.

Lemma relationship_metrics_spec d m :
  (forall rels_df, relationships d = Some rels_df -> df_empty rels_df = false ->
     has_column rels_df "relationship_type" = true) ->
  exists m', relationship_metrics d m = Some m'
  /\ forall k, k <> "total_relationships" -> k <> "relationship_types" -> m' !! k = m !! k.
Proof.
  intros H. unfold relationship_metrics.
  destruct (relationships d) as [rels|]; [|eauto].
  destruct (df_empty rels) eqn:E; [eauto|].
  rewrite (column_Some _ _ (H rels eq_refl E)). simpl.
  eexists; (split; [reflexivity|]); intros;
    rewrite !lookup_insert_ne by congruence; reflexivity.
Qed.

(** C6.  Without a components DataFrame, or with an empty one,
    [calculate_metrics] returns the empty dictionary.  On a readable
    dictionary with components it returns metrics in which
    [total_components] is the number of rows, the green, yellow and red
    record counts are the numbers of rows with each grade (when the grade
    column is there) and [avg_connections] is the arithmetic mean of the
    values of the [total_relationship_count] column (when that column is
    there and holds a value). *)
Theorem calculate_metrics_summary (d : data_dict) :
  (components d = None -> calculate_metrics d = Some ∅)
  /\ (forall df, components d = Some df -> df_empty df = true ->
        calculate_metrics d = Some ∅)
  /\ (forall df, components d = Some df -> df_empty df = false -> readable d df ->
      exists metrics,
        calculate_metrics d = Some metrics
        /\ metrics !! "total_components" = Some (MInt (Z.of_nat (length (df_rows df))))
        /\ (has_column df "record_quality_grade" = true ->
            metrics !! "green_records"
              = Some (MInt (rows_with_grade df "_PT_GREEN_RECORD_"))
            /\ metrics !! "yellow_records"
              = Some (MInt (rows_with_grade df "_PT_YELLOW_RECORD_"))
            /\ metrics !! "red_records"
              = Some (MInt (rows_with_grade df "_PT_RED_RECORD_")))
        /\ (has_column df "total_relationship_count" = true ->
            forall s z zs,
              column df "total_relationship_count" = Some s ->
              numeric_values s = Some (z :: zs) ->
              metrics !! "avg_connections" = Some (MFloat (mean_of (z :: zs))))).
Proof.
  unfold calculate_metrics. split; [intros ->; reflexivity|].
  split; [intros df -> ->; reflexivity|].
  intros df -> -> (H1 & H2 & H3 & H4 & H5).
  destruct (basic_counts_runs df ∅ H1 H2) as [m1 E1].
  destruct (basic_counts_spec _ _ _ E1) as [T1 K1].
  destruct (network_metrics_spec df m1) as (m2 & E2 & K2).
  destruct (protocol_metrics_spec df m2 H3) as (m3 & E3 & K3).
  destruct (mac_metrics_spec df m3) as (m4 & E4 & K4).
  destruct (quality_metrics_spec df m4) as (m5 & E5 & K5 & G5 & _).
  destruct (connection_metrics_spec df m5 H4) as (m6 & E6 & K6 & A6 & _).
  destruct (dependency_metrics_spec d m6) as (m7 & E7 & K7).
  destruct (relationship_metrics_spec d m7 H5) as (m8 & E8 & K8).
  exists m8. rewrite E1; simpl. rewrite E2; simpl. rewrite E3; simpl.
  rewrite E4; simpl. rewrite E5; simpl. rewrite E6; simpl. rewrite E7; simpl.
  split; [exact E8|].
  split.
  { rewrite K8, K7, K6, K5, K4, K3, K2 by discriminate. exact T1. }
  split.
  - intros Hq. destruct (G5 Hq) as (Hg & Hy & Hr).
    rewrite !K8, !K7, !K6 by discriminate. auto.
  - intros Hc s z zs Hs Hv. rewrite K8, K7 by discriminate. eapply A6; eauto.
Qed.

Lemma calculate_metrics_summary_witness :
  exists metrics,
    calculate_metrics sample_data = Some metrics
    /\ metrics !! "total_components" = Some (MInt 2)
    /\ metrics !! "green_records" = Some (MInt 1)
    /\ metrics !! "yellow_records" = Some (MInt 0)
    /\ metrics !! "red_records" = Some (MInt 1)
    /\ metrics !! "avg_connections" = Some (MFloat (mean_of [3; 0])).
Proof.
  destruct (calculate_metrics_summary sample_data) as (_ & _ & H).
  destruct (H sample_components) as (metrics & E & T & G & A).
  - reflexivity.
  - reflexivity.
  - repeat split; try reflexivity; try discriminate.
    intros _. eexists. split; [reflexivity|]. vm_compute. eauto.
  - exists metrics. split; [exact E|]. split; [exact T|].
    destruct G as (Hg & Hy & Hr); [reflexivity|].
    split; [exact Hg|]. split; [exact Hy|]. split; [exact Hr|].
    eapply A; reflexivity.
Defined.

End AnalyticsClaims.

(* ===================================================================== *)
(** * The generator: a weakest-precondition calculus *)
(* ===================================================================== *)

Section WpCalculus.
Import PyStr Generator GeneratorSpec.

Lemma wp_ret {A} (a : A) (Q : A -> world -> Prop) w :
  Q a w -> wp (mret a) Q w.
Proof. intros H. exists a, w. split; [reflexivity | exact H]. Qed.

Lemma wp_bind {A B} (m : M A) (f : A -> M B) (Q : B -> world -> Prop) w :
  wp m (fun a w' => wp (f a) Q w') w -> wp (m ≫= f) Q w.
Proof.
  intros (a & w1 & E1 & b & w2 & E2 & H). exists b, w2. split; [|exact H].
  unfold mbind, M_bind. rewrite E1. exact E2.
Qed.

Lemma wp_mono {A} (m : M A) (Q Q' : A -> world -> Prop) w :
  wp m Q w -> (forall a w', Q a w' -> Q' a w') -> wp m Q' w.
Proof. intros (a & w' & E & H) Himp. exists a, w'. auto. Qed.

Lemma wp_get_self (Q : generator -> world -> Prop) w :
  Q (self w) w -> wp get_self Q w.
Proof. intros H. exists (self w), w. split; [reflexivity | exact H]. Qed.

Lemma wp_modify_self f (Q : unit -> world -> Prop) w :
  Q tt {| self := f (self w); rand := rand w; clock := clock w |} ->
  wp (modify_self f) Q w.
Proof. intros H. eexists _, _. split; [reflexivity | exact H]. Qed.

Lemma wp_next_raw (Q : N -> world -> Prop) w :
  (forall x r, Q x {| self := self w; rand := r; clock := clock w |}) ->
  wp next_raw Q w.
Proof.
  intros H. unfold wp, next_raw. destruct w as [g [|x r] c]; simpl in *.
  - eexists _, _. split; [reflexivity | apply (H 0%N [])].
  - eexists _, _. split; [reflexivity | apply H].
Qed.

Lemma wp_now (Q : Z -> world -> Prop) w :
  (forall t c, Q t {| self := self w; rand := rand w; clock := c |}) ->
  wp now Q w.
Proof.
  intros H. unfold wp, now. destruct w as [g r [|t c]]; simpl in *.
  - eexists _, _. split; [reflexivity | apply (H 0 [])].
  - eexists _, _. split; [reflexivity | apply H].
Qed.

Lemma wp_random (Q : Q -> world -> Prop) w :
  (forall q r, (0 <= q)%Q -> (q < 1)%Q ->
     Q q {| self := self w; rand := r; clock := clock w |}) ->
  wp random Q w.
Proof.
  intros H. unfold random. apply wp_bind, wp_next_raw. intros x r.
  apply wp_ret.
  assert (0 <= Z.of_N (x mod 2 ^ 53) < Z.pos (2 ^ 53)) as Hx.
  { split; [apply N2Z.is_nonneg|].
    change (Z.pos (2 ^ 53)) with (Z.of_N (2 ^ 53)).
    apply N2Z.inj_lt, N.mod_lt. discriminate. }
  revert Hx. generalize (Z.of_N (x mod 2 ^ 53)). intros n Hn.
  apply H; [unfold Qle | unfold Qlt]; cbn [Qnum Qden]; lia.
Qed.

Lemma wp_randint a b (Q : Z -> world -> Prop) w :
  a <= b ->
  (forall z r, a <= z <= b -> Q z {| self := self w; rand := r; clock := clock w |}) ->
  wp (randint a b) Q w.
Proof.
  intros Hab H. unfold randint.
  destruct (Z.ltb_spec b a) as [Hlt|_]; [lia|].
  apply wp_bind, wp_next_raw. intros x r. apply wp_ret, H.
  pose proof (Z.mod_pos_bound (Z.of_N x) (b - a + 1)). lia.
Qed.

Lemma position_lt x n : (0 < n)%nat -> (position x n < n)%nat.
Proof.
  intros Hn. unfold position.
  pose proof (N.mod_lt x (N.of_nat n)) as H. lia.
Qed.

Lemma wp_choice {A} (l : list A) (Q : A -> world -> Prop) w :
  l <> [] ->
  (forall x r, In x l -> Q x {| self := self w; rand := r; clock := clock w |}) ->
  wp (choice l) Q w.
Proof.
  intros Hne H. unfold choice. apply wp_bind, wp_next_raw. intros x r.
  assert (position x (length l) < length l)%nat as Hlt.
  { apply position_lt. destruct l; [congruence | simpl; lia]. }
  destruct (lookup_lt_is_Some_2 l _ Hlt) as [a Ha]. rewrite Ha.
  apply wp_ret, H. apply list_elem_of_In. eapply list_elem_of_lookup_2, Ha.
Qed.

Lemma wp_index {A} (o : option A) (v : A) (Q : A -> world -> Prop) w :
  o = Some v -> Q v w -> wp (index o) Q w.
Proof. intros -> H. apply wp_ret, H. Qed.

Lemma take_drop_perm {A} (pool : list A) j a :
  pool !! j = Some a -> Permutation (a :: (take j pool ++ drop (S j) pool)) pool.
Proof.
  intros H. rewrite <- (take_drop_middle pool j a H) at 3.
  apply Permutation_middle.
Qed.

Lemma wp_sample_from {A} (k : nat) (pool : list A) (Q : list A -> world -> Prop) w :
  (k <= length pool)%nat ->
  (forall l r, sampled pool k l ->
     Q l {| self := self w; rand := r; clock := clock w |}) ->
  wp (sample_from k pool) Q w.
Proof.
  revert pool Q w. induction k as [|k IHk]; intros pool Q w Hk H; simpl.
  - destruct w as [g r c]. apply wp_ret. apply (H [] r).
    split; [reflexivity | exists pool; reflexivity].
  - apply wp_bind, wp_next_raw. intros x r.
    assert (position x (length pool) < length pool)%nat as Hlt
      by (apply position_lt; lia).
    destruct (lookup_lt_is_Some_2 pool _ Hlt) as [a Ha]. rewrite Ha.
    pose proof (take_drop_perm pool _ a Ha) as Hperm.
    apply wp_bind, IHk.
    + apply Permutation_length in Hperm. simpl in Hperm. lia.
    + intros l r' [Hlen [rest Hrest]]. apply wp_ret. simpl. apply H.
      split; [simpl; lia|]. exists rest. simpl.
      rewrite Hrest. exact Hperm.
Qed.

Lemma wp_sample {A} (pool : list A) (k : Z) (Q : list A -> world -> Prop) w :
  0 <= k <= Z.of_nat (length pool) ->
  (forall l r, sampled pool (Z.to_nat k) l ->
     Q l {| self := self w; rand := r; clock := clock w |}) ->
  wp (sample pool k) Q w.
Proof.
  intros Hk H. unfold sample.
  destruct (Z.ltb_spec k 0); [lia|].
  destruct (Z.ltb_spec (Z.of_nat (length pool)) k); [lia|]. simpl.
  apply wp_sample_from; [lia | exact H].
Qed.

(** A loop with an invariant indexed by the number of rounds done. *)
Lemma wp_for_each {A} (I : nat -> world -> Prop) (l : list A) (body : A -> M unit)
    (Q : unit -> world -> Prop) w :
  I 0%nat w ->
  (forall i x w', l !! i = Some x -> I i w' -> wp (body x) (fun _ => I (S i)) w') ->
  (forall w', I (length l) w' -> Q tt w') ->
  wp (for_each l body) Q w.
Proof.
  revert I w. induction l as [|x l IHl]; intros I w H0 Hstep Hend; simpl.
  - apply wp_ret, Hend, H0.
  - apply wp_bind. eapply wp_mono; [apply (Hstep 0%nat x w eq_refl H0)|].
    intros u w1 H1. apply (IHl (fun i => I (S i))); [exact H1| |exact Hend].
    intros i y w' Hy. apply (Hstep (S i)). exact Hy.
Qed.

(** What a sample keeps of its population. *)
Lemma sampled_In {A} (pool : list A) k l x : sampled pool k l -> In x l -> In x pool.
Proof.
  intros [_ [rest H]] Hx. eapply Permutation_in; [exact H|].
  apply in_or_app. left. exact Hx.
Qed.

Lemma sampled_NoDup {A B} (f : A -> B) (pool : list A) k l :
  sampled pool k l -> NoDup (map f pool) -> NoDup (map f l).
Proof.
  intros [_ [rest H]] Hnd.
  apply (Permutation_map f) in H. rewrite <- H, map_app in Hnd.
  apply NoDup_app in Hnd as [H1 _]. exact H1.
Qed.

End WpCalculus.

(* ===================================================================== *)
(** * The generator: transitions that add up *)
(* ===================================================================== *)

(** A family of transitions of the generator, indexed by a measure that
    adds up along a sequence: the rules of [performs] for it. *)
Section Effect.
Import PyStr Generator GeneratorSpec.

Context {K : Type}.
Variable zero : K.
Variable plus : K -> K -> K.
Variable le : K -> K -> Prop.
Variable T : K -> generator -> generator -> Prop.

Hypothesis T_refl : forall g, T zero g g.
Hypothesis T_trans : forall a b g1 g2 g3, T a g1 g2 -> T b g2 g3 -> T (plus a b) g1 g3.
Hypothesis T_le : forall a b g g', T a g g' -> le a b -> T b g g'.

Lemma performs_ret {A} (a : A) (V : A -> Prop) : V a -> performs T zero (mret a) V.
Proof. intros H w. apply wp_ret. split; [exact H | apply T_refl]. Qed.

Lemma performs_bind {A B} (k1 k2 k : K) (m : M A) (f : A -> M B)
    (V1 : A -> Prop) (V2 : B -> Prop) :
  performs T k1 m V1 ->
  (forall a, V1 a -> performs T k2 (f a) V2) ->
  le (plus k1 k2) k ->
  performs T k (m ≫= f) V2.
Proof.
  intros Hm Hf Hk w. apply wp_bind. eapply wp_mono; [apply Hm|].
  intros a w1 [Ha G1]. eapply wp_mono; [apply (Hf a Ha)|].
  intros b w2 [Hb G2]. split; [exact Hb|].
  eapply T_le; [eapply T_trans; eassumption | exact Hk].
Qed.

Lemma performs_weaken {A} (k k' : K) (m : M A) (V V' : A -> Prop) :
  performs T k m V -> le k k' -> (forall a, V a -> V' a) -> performs T k' m V'.
Proof.
  intros Hm Hk HV w. eapply wp_mono; [apply Hm|].
  intros a w' [Ha G]. split; [auto | eapply T_le; eassumption].
Qed.

Lemma performs_le {A} (k k' : K) (m : M A) (V : A -> Prop) :
  performs T k m V -> le k k' -> performs T k' m V.
Proof. intros Hm Hk. eapply performs_weaken; eauto. Qed.

(** [m; k] *)
Lemma performs_seq {A} (k1 k2 k : K) (m : M unit) (rest : M A) (V : A -> Prop) :
  performs T k1 m (fun _ => True) ->
  performs T k2 rest V ->
  le (plus k1 k2) k ->
  performs T k (m ≫= fun _ => rest) V.
Proof.
  intros Hm Hr Hk. eapply performs_bind; [exact Hm | intros _ _; exact Hr | exact Hk].
Qed.

Lemma performs_random :
  performs T zero random (fun q => (0 <= q)%Q /\ (q < 1)%Q).
Proof. intros w. apply wp_random. intros q r H0 H1. split; [auto | apply T_refl]. Qed.

Lemma performs_randint a b :
  a <= b -> performs T zero (randint a b) (fun z => a <= z <= b).
Proof.
  intros Hab w. apply wp_randint; [exact Hab|].
  intros z r Hz. split; [exact Hz | apply T_refl].
Qed.

Lemma performs_choice {A} (l : list A) :
  l <> [] -> performs T zero (choice l) (fun x => In x l).
Proof.
  intros Hl w. apply wp_choice; [exact Hl|].
  intros x r Hx. split; [exact Hx | apply T_refl].
Qed.

Lemma performs_sample {A} (pool : list A) k :
  0 <= k <= Z.of_nat (length pool) ->
  performs T zero (sample pool k) (sampled pool (Z.to_nat k)).
Proof.
  intros Hk w. apply wp_sample; [exact Hk|].
  intros l r Hl. split; [exact Hl | apply T_refl].
Qed.

Lemma performs_index {A} (o : option A) v :
  o = Some v -> performs T zero (index o) (fun x => x = v).
Proof. intros -> w. apply wp_ret. split; [reflexivity | apply T_refl]. Qed.

(** A loop: [total i] bounds the measure of [i] rounds. *)
Lemma performs_for_each {A} (k : K) (total : nat -> K) (l : list A)
    (body : A -> M unit) :
  le zero (total 0%nat) ->
  (forall i, le (plus (total i) k) (total (S i))) ->
  (forall x, In x l -> performs T k (body x) (fun _ => True)) ->
  performs T (total (length l)) (for_each l body) (fun _ => True).
Proof.
  intros H0 HS Hbody w.
  apply (wp_for_each (fun i w' => T (total i) (self w) (self w'))).
  - eapply T_le; [apply T_refl | exact H0].
  - intros i x w' Hx Hi. eapply wp_mono.
    + apply Hbody. apply list_elem_of_In. eapply list_elem_of_lookup_2, Hx.
    + intros u w2 [_ G]. eapply T_le; [eapply T_trans; eassumption | apply HS].
  - intros w' H. auto.
Qed.

End Effect.

(* ===================================================================== *)
(** * The generator: relationships *)
(* ===================================================================== *)

Section RelationshipFacts.
Import PyStr Generator GeneratorSpec.

Variable ref : refdata.
Variable cfg : config.

Lemma has_key_true k (d : gmap string Z) :
  has_key k d = true -> exists v, d !! k = Some v.
Proof. unfold has_key. destruct (d !! k); [eauto | discriminate]. Qed.

(** What a call of [create_relationship] does: nothing, with the result
    [None], when the type or one of the two components is unknown; otherwise
    it appends the relationship it returns. *)
Lemma create_relationship_spec (a b : Z) (ty desc : string) w :
  wp (create_relationship ref a b ty desc)
     (fun res w' =>
        rand w' = rand w
        /\ match res with
           | None =>
               w' = w
               /\ (has_key ty (relationship_types ref) = false
                   \/ component_map (self w) !! a = None
                   \/ component_map (self w) !! b = None)
           | Some r =>
               self w' = push_relationship (self w) r
               /\ rel_component_id r = a
               /\ related_component_id r = b
               /\ relationship_types ref !! ty = Some (relationship_type_id r)
               /\ relationship_id r = relationship_id_counter (self w)
               /\ is_Some (component_map (self w) !! a)
               /\ is_Some (component_map (self w) !! b)
           end) w.
Proof.
  unfold create_relationship.
  destruct (has_key ty (relationship_types ref)) eqn:Hty; simpl.
  - apply has_key_true in Hty as [tid Htid].
    apply wp_bind, wp_get_self.
    destruct (component_map (self w) !! a) as [c1|] eqn:E1;
      [destruct (component_map (self w) !! b) as [c2|] eqn:E2|].
    + apply wp_bind. eapply wp_index; [exact Htid|].
      apply wp_bind, wp_now. intros t1 k1. apply wp_bind, wp_now. intros t2 k2.
      apply wp_bind, wp_modify_self. apply wp_ret. simpl.
      split; [reflexivity|]. repeat split; eauto.
    + apply wp_ret. auto.
    + apply wp_ret. auto.
  - apply wp_ret. auto.
Qed.

Lemma grows_refl g : grows ref cfg 0 g g.
Proof.
  split; try reflexivity.
  - exists []. rewrite app_nil_r. auto.
  - exists []. rewrite app_nil_r. auto.
Qed.

Lemma grows_trans n1 n2 g1 g2 g3 :
  grows ref cfg n1 g1 g2 -> grows ref cfg n2 g2 g3 -> grows ref cfg (n1 + n2) g1 g3.
Proof.
  intros [C1 M1 I1 (r1 & R1 & L1 & F1) (p1 & P1 & G1)]
         [C2 M2 I2 (r2 & R2 & L2 & F2) (p2 & P2 & G2)].
  split; try congruence.
  - exists (r1 ++ r2). rewrite R2, R1, <- app_assoc. split; [reflexivity|].
    split; [rewrite length_app; lia|].
    apply Forall_app. split; [exact F1|]. rewrite <- M1. exact F2.
  - exists (p1 ++ p2). rewrite P2, P1, <- app_assoc. split; [reflexivity|].
    apply Forall_app. auto.
Qed.

Lemma grows_le n n' g g' : grows ref cfg n g g' -> (n <= n')%nat -> grows ref cfg n' g g'.
Proof.
  intros [C M I (r & R & L & F) P] Hle. split; auto.
  exists r. split; [exact R|]. split; [lia | exact F].
Qed.

(** The rules of [does]: those of [performs] for [grows]. *)
Lemma does_ret {A} (a : A) (V : A -> Prop) : V a -> does ref cfg 0 (mret a) V.
Proof. apply (performs_ret 0%nat (grows ref cfg) grows_refl). Qed.

Lemma does_bind {A B} (n1 n2 n : nat) (m : M A) (f : A -> M B)
    (V1 : A -> Prop) (V2 : B -> Prop) :
  does ref cfg n1 m V1 ->
  (forall a, V1 a -> does ref cfg n2 (f a) V2) ->
  (n1 + n2 <= n)%nat ->
  does ref cfg n (m ≫= f) V2.
Proof. apply (performs_bind Nat.add Peano.le (grows ref cfg) grows_trans grows_le). Qed.

Lemma does_le {A} (n n' : nat) (m : M A) (V : A -> Prop) :
  does ref cfg n m V -> (n <= n')%nat -> does ref cfg n' m V.
Proof. apply (performs_le Peano.le (grows ref cfg) grows_le). Qed.

Lemma does_seq {A} (n1 n2 n : nat) (m : M unit) (k : M A) (V : A -> Prop) :
  does ref cfg n1 m (fun _ => True) ->
  does ref cfg n2 k V ->
  (n1 + n2 <= n)%nat ->
  does ref cfg n (m ≫= fun _ => k) V.
Proof. apply (performs_seq Nat.add Peano.le (grows ref cfg) grows_trans grows_le). Qed.

Lemma does_random : does ref cfg 0 random (fun q => (0 <= q)%Q /\ (q < 1)%Q).
Proof. apply (performs_random 0%nat (grows ref cfg) grows_refl). Qed.

Lemma does_randint a b :
  a <= b -> does ref cfg 0 (randint a b) (fun z => a <= z <= b).
Proof. apply (performs_randint 0%nat (grows ref cfg) grows_refl). Qed.

Lemma does_sample {A} (pool : list A) k :
  0 <= k <= Z.of_nat (length pool) ->
  does ref cfg 0 (sample pool k) (sampled pool (Z.to_nat k)).
Proof. apply (performs_sample 0%nat (grows ref cfg) grows_refl). Qed.

Lemma does_index {A} (o : option A) v :
  o = Some v -> does ref cfg 0 (index o) (fun x => x = v).
Proof. apply (performs_index 0%nat (grows ref cfg) grows_refl). Qed.

Lemma does_for_each {A} (n : nat) (l : list A) (body : A -> M unit) :
  (forall x, In x l -> does ref cfg n (body x) (fun _ => True)) ->
  does ref cfg (n * length l) (for_each l body) (fun _ => True).
Proof.
  apply (performs_for_each 0%nat Nat.add Peano.le (grows ref cfg)
           grows_refl grows_trans grows_le n (fun i => (n * i)%nat)); intros; lia.
Qed.

Lemma grows_push_relationship g r :
  rel_ok ref (component_map g) r -> grows ref cfg 1 g (push_relationship g r).
Proof.
  intros H. split; try reflexivity.
  - exists [r]. simpl. auto.
  - exists []. simpl. rewrite app_nil_r. auto.
Qed.

Lemma does_relate a b ty desc :
  does ref cfg 1 (relate ref a b ty desc) (fun _ => True).
Proof.
  intros w. unfold relate. apply wp_bind.
  eapply wp_mono; [apply create_relationship_spec|].
  intros [r|] w' [_ H]; apply wp_ret; (split; [exact I|]).
  - destruct H as (-> & <- & <- & Hty & _ & Ha & Hb).
    apply grows_push_relationship. split; [exact Ha|]. split; [exact Hb|]. eauto.
  - destruct H as [-> _]. eapply grows_le; [apply grows_refl | lia].
Qed.

Lemma does_add_problem text :
  gated cfg text -> does ref cfg 0 (add_problem text) (fun _ => True).
Proof.
  intros H w. apply wp_modify_self. split; [exact I|].
  split; try reflexivity; simpl.
  - exists []. rewrite app_nil_r. auto.
  - exists [text]. auto.
Qed.

Lemma does_add_good_pattern text :
  does ref cfg 0 (add_good_pattern text) (fun _ => True).
Proof.
  intros w. apply wp_modify_self. split; [exact I|].
  split; try reflexivity; simpl.
  - exists []. rewrite app_nil_r. auto.
  - exists []. rewrite app_nil_r. auto.
Qed.

End RelationshipFacts.

(* ===================================================================== *)
(** * The generator: the relationship patterns *)
(* ===================================================================== *)

Section PatternFacts.
Import PyStr Generator GeneratorSpec.

Variable ref : refdata.
Variable cfg : config.

(** A text that starts with another letter than ['C'] is not of a gated
    kind. *)
Ltac not_gated :=
  let H := fresh in intros H; exfalso; revert H; cbv; discriminate.

Lemma hub_does apps dbs :
  dbs <> [] ->
  does ref cfg 20 (create_hub_database_pattern ref cfg apps dbs) (fun _ => True).
Proof.
  intros Hdbs. unfold create_hub_database_pattern.
  destruct dbs as [|d dbs]; [congruence|].
  eapply (does_bind _ _ 0 20); [apply (does_index _ _ _ d); reflexivity | | lia].
  intros first_db _.
  assert (0 <= fst (concentration_configs (app_concentration cfg))
          /\ fst (concentration_configs (app_concentration cfg))
             <= snd (concentration_configs (app_concentration cfg))
          /\ snd (concentration_configs (app_concentration cfg)) <= 20) as Hc
    by (destruct (app_concentration cfg); simpl; lia).
  eapply (does_bind _ _ 0 20); [apply does_randint; lia | | lia].
  intros num Hnum. cbv beta in Hnum. unfold len.
  eapply (does_bind _ _ 0 20); [apply does_sample; lia | | lia].
  intros selected [Hlen _].
  eapply (does_seq _ _ 20 0); [ | | lia].
  - eapply does_le; [apply (does_for_each _ _ 1); intros app _; apply does_relate | lia].
  - apply does_add_problem. not_gated.
Qed.

Lemma group_append_length k db (d : odict (list component)) :
  (length (group_append k db d) <= S (length d))%nat.
Proof.
  induction d as [|[k' members] d IHd]; simpl; [lia|].
  destruct (String.eqb k' k); simpl; lia.
Qed.

Lemma group_by_number_length dbs :
  (length (group_by_number dbs) <= length dbs)%nat.
Proof.
  unfold group_by_number.
  enough (forall acc : odict (list component),
    (length (foldl (fun db_pairs db =>
           let fqdn := fqdn_or_empty db in
           if String.eqb fqdn "" then db_pairs
           else match search_db_digits fqdn with
                | Some db_num => group_append db_num db db_pairs
                | None => db_pairs
                end) acc dbs) <= length acc + length dbs)%nat) as H
    by apply (H []).
  induction dbs as [|db dbs IHd]; intros acc; simpl; [lia|].
  etransitivity; [apply IHd|].
  destruct (String.eqb (fqdn_or_empty db) ""); [lia|].
  destruct (search_db_digits (fqdn_or_empty db)); [|lia].
  pose proof (group_append_length s db acc). lia.
Qed.

Lemma failover_does dbs :
  does ref cfg (length dbs) (create_failover_patterns ref dbs) (fun _ => True).
Proof.
  unfold create_failover_patterns.
  eapply does_le; [apply (does_for_each _ _ 1) | pose proof (group_by_number_length dbs); lia].
  intros [db_num members] _.
  destruct (2 <=? len members); [|eapply does_le; [apply does_ret; exact I | lia]].
  destruct (List.find _ members) as [primary|];
    [|eapply does_le; [apply does_ret; exact I | lia]].
  destruct (List.find _ members) as [secondary|];
    [|eapply does_le; [apply does_ret; exact I | lia]].
  destruct (physical_location_id primary =? physical_location_id secondary).
  - eapply (does_seq _ _ 1 0); [apply does_relate | | lia].
    apply does_add_problem. not_gated.
  - eapply (does_seq _ _ 1 0); [apply does_relate | | lia].
    apply does_add_good_pattern.
Qed.

Lemma Qltb_lt x y : Qltb x y = true -> (x < y)%Q.
Proof. unfold Qltb, Qlt. intros H. apply Z.ltb_lt in H. exact H. Qed.

Lemma cache_does apps caches :
  does ref cfg (5 * length caches) (create_cache_patterns ref cfg apps caches)
    (fun _ => True).
Proof.
  unfold create_cache_patterns. apply does_for_each. intros cache _.
  eapply (does_bind _ _ 0 5); [apply does_randint; lia | | lia].
  intros num Hnum. cbv beta in Hnum. unfold len.
  eapply (does_bind _ _ 0 5); [apply does_sample; lia | | lia].
  intros selected [Hlen _].
  eapply does_le; [apply (does_for_each _ _ 1) | lia].
  intros app _.
  destruct (physical_location_id app =? physical_location_id cache).
  - eapply (does_seq _ _ 1 0); [apply does_relate | | lia].
    apply does_add_good_pattern.
  - eapply (does_bind _ _ 0 1); [apply does_random | | lia].
    intros r [Hr0 Hr1].
    destruct (Qltb r (problem_ratio cfg)) eqn:E.
    + eapply (does_seq _ _ 1 0); [apply does_relate | | lia].
      apply does_add_problem. intros _.
      apply Qltb_lt in E. eapply Qle_lt_trans; eassumption.
    + apply does_relate.
Qed.

Lemma mq_does apps mqs :
  does ref cfg (9 * length mqs) (create_mq_patterns ref apps mqs) (fun _ => True).
Proof.
  unfold create_mq_patterns.
  eapply (does_seq _ _ (8 * length mqs) (length mqs)); [ | | lia].
  - apply does_for_each. intros mq _.
    eapply (does_bind _ _ 0 8); [apply does_randint; lia | | lia].
    intros np Hnp. cbv beta in Hnp. unfold len.
    eapply (does_bind _ _ 0 8); [apply does_sample; lia | | lia].
    intros publishers [Hlp _].
    eapply (does_seq _ _ 3 5); [ | | lia].
    { eapply does_le; [apply (does_for_each _ _ 1); intros; apply does_relate | lia]. }
    eapply (does_bind _ _ 0 5); [apply does_randint; lia | | lia].
    intros ns Hns. cbv beta in Hns.
    eapply (does_bind _ _ 0 5); [apply does_sample; lia | | lia].
    intros subscribers [Hls _].
    eapply does_le; [apply (does_for_each _ _ 1); intros; apply does_relate | lia].
  - set (kafka_nodes := List.filter _ mqs).
    assert (length kafka_nodes <= length mqs)%nat as Hk by apply List.filter_length_le.
    destruct (Z.leb_spec 2 (len kafka_nodes)) as [H2|H2];
      [|eapply does_le; [apply does_ret; exact I | lia]].
    destruct kafka_nodes as [|primary replicas] eqn:Ek; [unfold len in H2; simpl in H2; lia|].
    eapply (does_bind _ _ 0 (length mqs));
      [apply (does_index _ _ _ primary); reflexivity | | lia].
    intros ? ->. simpl in Hk. simpl drop. rewrite !drop_0.
    destruct (_ =? 1).
    + eapply (does_seq _ _ (length mqs) 0); [ | | lia].
      * eapply does_le; [apply (does_for_each _ _ 1); intros; apply does_relate | lia].
      * apply does_add_problem. not_gated.
    + eapply (does_seq _ _ (length mqs) 0); [ | | lia].
      * eapply does_le; [apply (does_for_each _ _ 1); intros; apply does_relate | lia].
      * apply does_add_good_pattern.
Qed.

Lemma lb_does apps lbs :
  does ref cfg (8 * length lbs) (create_lb_patterns ref apps lbs) (fun _ => True).
Proof.
  unfold create_lb_patterns. apply does_for_each. intros lb _.
  eapply (does_bind _ _ 0 8); [apply does_randint; lia | | lia].
  intros num Hnum. cbv beta in Hnum. unfold len.
  eapply (does_bind _ _ 0 8); [apply does_sample; lia | | lia].
  intros selected [Hlen _].
  eapply does_le; [apply (does_for_each _ _ 1) | lia].
  intros app _.
  destruct (physical_location_id app =? physical_location_id lb); apply does_relate.
Qed.

Lemma circular_does apps :
  3 <= len apps -> (0 < problem_ratio cfg)%Q ->
  does ref cfg 3 (create_circular_dependency ref apps) (fun _ => True).
Proof.
  intros H3 Hr. unfold create_circular_dependency. unfold len in H3.
  eapply (does_bind _ _ 0 3); [apply does_sample; lia | | lia].
  intros l [Hlen _]. destruct l as [|a [|b [|c [|? ?]]]]; try discriminate Hlen.
  eapply (does_bind _ _ 0 3); [apply (does_index _ _ _ a); reflexivity | | lia].
  intros ? ->.
  eapply (does_bind _ _ 0 3); [apply (does_index _ _ _ b); reflexivity | | lia].
  intros ? ->.
  eapply (does_bind _ _ 0 3); [apply (does_index _ _ _ c); reflexivity | | lia].
  intros ? ->.
  eapply (does_seq _ _ 1 2); [apply does_relate | | lia].
  eapply (does_seq _ _ 1 1); [apply does_relate | | lia].
  eapply (does_seq _ _ 1 0); [apply does_relate | | lia].
  apply does_add_problem. intros _. exact Hr.
Qed.

End PatternFacts.

(* ===================================================================== *)
(** * The generator: orphaned components and the whole relationship step *)
(* ===================================================================== *)

Section OrphanFacts.
Import PyStr Generator GeneratorSpec.

Variable ref : refdata.
Variable cfg : config.

Lemma digits_fuel_head fuel n acc :
  exists d rest, (d < 10)%nat /\ digits_fuel (S fuel) n acc = String (digit_char d) rest.
Proof.
  revert n acc. induction fuel as [|fuel IHf]; intros n acc.
  - simpl. destruct (n <? 10)%nat;
      exists (n mod 10)%nat, acc; (split; [apply Nat.mod_upper_bound; lia | reflexivity]).
  - change (digits_fuel (S (S fuel)) n acc)
      with (let acc' := String (digit_char (n mod 10)) acc in
            if (n <? 10)%nat then acc' else digits_fuel (S fuel) (n / 10) acc').
    cbv zeta. destruct (n <? 10)%nat.
    + exists (n mod 10)%nat, acc. split; [apply Nat.mod_upper_bound; lia | reflexivity].
    + apply IHf.
Qed.

Lemma digit_char_not_C d : (d < 10)%nat -> Ascii.eqb "C" (digit_char d) = false.
Proof.
  intros H. do 10 (destruct d as [|d]; [reflexivity|]). lia.
Qed.

Lemma gated_kind_head c text :
  Ascii.eqb "C" c = false -> gated_kind (String c text) = false.
Proof.
  intros H. unfold gated_kind. cbn [starts_with]. rewrite H. reflexivity.
Qed.

(** A text that starts with a count is not of a gated kind. *)
Lemma count_not_gated (l : list component) text :
  gated cfg (String.append (str_int (len l)) text).
Proof.
  intros H. exfalso. revert H. unfold str_int, len.
  destruct (Z.ltb_spec (Z.of_nat (length l)) 0) as [Hneg|_]; [lia|].
  rewrite Nat2Z.id. unfold nat_digits.
  destruct (digits_fuel_head (length l) (length l) EmptyString) as (d & rest & Hd & ->).
  rewrite append_String, gated_kind_head by (apply digit_char_not_C; exact Hd).
  discriminate.
Qed.

Lemma foldl_insert_dom (l : list component) (f : component -> component)
    (m : gmap Z component) i :
  is_Some (foldl (fun m comp => <[component_id comp := f comp]> m) m l !! i) <->
  is_Some (m !! i) \/ exists c, In c l /\ component_id c = i.
Proof.
  revert m. induction l as [|c l IHl]; intros m; simpl.
  - split; [auto | intros [H|(c & [] & _)]; exact H].
  - rewrite IHl, lookup_insert_is_Some'. split.
    + intros [[H|H]|(c' & H1 & H2)]; [right; exists c; auto | auto | right; exists c'; auto].
    + intros [H|(c' & [<-|H1] & H2)]; [auto | auto | right; exists c'; auto].
Qed.

Lemma orphans_marked_spec w :
  wp create_orphaned_components (fun _ w' => orphans_marked (self w) (self w')) w.
Proof.
  unfold create_orphaned_components. apply wp_bind, wp_get_self.
  apply wp_bind, wp_modify_self.
  fold (is_orphan (self w)). fold (orphans_of (self w)).
  destruct (orphans_of (self w)) as [|o os] eqn:Eo.
  - apply wp_ret. split; simpl; try reflexivity.
    + intros i. rewrite Eo. split; [auto | intros [H|(c & [] & _)]; exact H].
    + rewrite Eo, app_nil_r. reflexivity.
  - apply wp_modify_self. split; simpl; try reflexivity.
    + intros i. rewrite Eo.
      exact (foldl_insert_dom (o :: os) mark_orphaned (component_map (self w)) i).
    + rewrite Eo. reflexivity.
Qed.

(** [wp] of a function: two postconditions hold together. *)
Lemma wp_conj {A} (m : M A) (Q1 Q2 : A -> world -> Prop) w :
  wp m Q1 w -> wp m Q2 w -> wp m (fun a w' => Q1 a w' /\ Q2 a w') w.
Proof.
  intros (a1 & w1 & E1 & H1) (a2 & w2 & E2 & H2).
  rewrite E1 in E2. injection E2 as <- <-. exists a1, w1. auto.
Qed.

(** A step that [does] something, then the rest. *)
Lemma related_step {A} (n1 n2 n : nat) (m : M A) (k : M unit) w :
  does ref cfg n1 m (fun _ => True) ->
  (forall w1, wp k (fun _ w' => related ref cfg n2 (self w1) w') w1) ->
  (n1 + n2 <= n)%nat ->
  wp (m ≫= fun _ => k) (fun _ w' => related ref cfg n (self w) w') w.
Proof.
  intros Hm Hk Hn. apply wp_bind. eapply wp_mono; [apply Hm|].
  intros ? w1 [_ G1]. eapply wp_mono; [apply Hk|].
  intros ? w2 (g1 & G2 & O). exists g1. split; [|exact O].
  eapply grows_le; [eapply grows_trans; eassumption | exact Hn].
Qed.

Lemma related_orphans w :
  wp create_orphaned_components (fun _ w' => related ref cfg 0 (self w) w') w.
Proof.
  eapply wp_mono; [apply orphans_marked_spec|].
  intros ? w' H. exists (self w). split; [apply grows_refl | exact H].
Qed.

Lemma does_skip : does ref cfg 0 (mret tt) (fun _ => True).
Proof. apply does_ret. exact I. Qed.

(** The six guarded steps of [generate_relationships]. *)
Lemma hub_step_does apps dbs :
  does ref cfg 20
    (if nonempty dbs && nonempty apps
     then create_hub_database_pattern ref cfg apps dbs else mret tt) (fun _ => True).
Proof.
  destruct dbs as [|d dbs]; simpl; [eapply does_le; [apply does_skip | lia]|].
  destruct (nonempty apps); [|eapply does_le; [apply does_skip | lia]].
  apply hub_does. discriminate.
Qed.

Lemma failover_step_does dbs :
  does ref cfg (length dbs)
    (if 2 <=? len dbs then create_failover_patterns ref dbs else mret tt) (fun _ => True).
Proof.
  destruct (2 <=? len dbs); [apply failover_does|].
  eapply does_le; [apply does_skip | lia].
Qed.

Lemma cache_step_does apps caches :
  does ref cfg (5 * length caches)
    (if nonempty apps && nonempty caches
     then create_cache_patterns ref cfg apps caches else mret tt) (fun _ => True).
Proof.
  destruct (nonempty apps && nonempty caches); [apply cache_does|].
  eapply does_le; [apply does_skip | lia].
Qed.

Lemma mq_step_does apps mqs :
  does ref cfg (9 * length mqs)
    (if nonempty apps && nonempty mqs
     then create_mq_patterns ref apps mqs else mret tt) (fun _ => True).
Proof.
  destruct (nonempty apps && nonempty mqs); [apply mq_does|].
  eapply does_le; [apply does_skip | lia].
Qed.

Lemma lb_step_does apps lbs :
  does ref cfg (8 * length lbs)
    (if nonempty apps && nonempty lbs
     then create_lb_patterns ref apps lbs else mret tt) (fun _ => True).
Proof.
  destruct (nonempty apps && nonempty lbs); [apply lb_does|].
  eapply does_le; [apply does_skip | lia].
Qed.

Lemma circular_step_does apps :
  does ref cfg 3
    (if 3 <=? len apps then
       r ← random;
       if Qltb r (problem_ratio cfg) then create_circular_dependency ref apps
       else mret tt
     else mret tt) (fun _ => True).
Proof.
  destruct (Z.leb_spec 3 (len apps)) as [H3|_];
    [|eapply does_le; [apply does_skip | lia]].
  eapply (does_bind _ _ 0 3); [apply does_random | | lia].
  intros r [Hr0 Hr1].
  destruct (Qltb r (problem_ratio cfg)) eqn:E;
    [|eapply does_le; [apply does_skip | lia]].
  apply circular_does; [exact H3|].
  apply Qltb_lt in E. eapply Qle_lt_trans; eassumption.
Qed.

(** The relationship step as a whole. *)
Lemma generate_relationships_spec w :
  wp (generate_relationships ref cfg)
     (fun _ w' => related ref cfg (rel_bound (self w)) (self w) w') w.
Proof.
  unfold generate_relationships. apply wp_bind, wp_get_self. unfold rel_bound.
  set (apps := in_group GApp (components (self w))).
  set (dbs := in_group GDb (components (self w))).
  set (caches := in_group GCache (components (self w))).
  set (mqs := in_group GMq (components (self w))).
  set (lbs := in_group GLb (components (self w))).
  eapply related_step; [apply hub_step_does | | ]; cycle 1.
  { instantiate (1 := (length dbs + 5 * length caches + 9 * length mqs
                       + 8 * length lbs + 3)%nat). lia. }
  intros w1.
  eapply related_step; [apply failover_step_does | | ]; cycle 1.
  { instantiate (1 := (5 * length caches + 9 * length mqs + 8 * length lbs + 3)%nat). lia. }
  intros w2.
  eapply related_step; [apply cache_step_does | | ]; cycle 1.
  { instantiate (1 := (9 * length mqs + 8 * length lbs + 3)%nat). lia. }
  intros w3.
  eapply related_step; [apply mq_step_does | | ]; cycle 1.
  { instantiate (1 := (8 * length lbs + 3)%nat). lia. }
  intros w4.
  eapply related_step; [apply lb_step_does | | ]; cycle 1.
  { instantiate (1 := 3%nat). lia. }
  intros w5.
  eapply related_step; [apply circular_step_does | | ]; cycle 1.
  { instantiate (1 := 0%nat). lia. }
  intros w6.
  apply related_orphans.
Qed.

End OrphanFacts.

(* ===================================================================== *)
(** * The generator: components *)
(* ===================================================================== *)

Section ComponentFacts.
Import PyStr Generator GeneratorSpec.

Variable ref : refdata.
Variable cfg : config.

(** A known first step, then the rest. *)
Lemma wp_bind_run {A B} (m : M A) (f : A -> M B) (Q : B -> world -> Prop) w a w1 :
  m w = Some (a, w1) -> wp (f a) Q w1 -> wp (m ≫= f) Q w.
Proof.
  intros E (b & w2 & E2 & H). exists b, w2. split; [|exact H].
  unfold mbind, M_bind. rewrite E. exact E2.
Qed.

Lemma random_run w :
  exists r w1, random w = Some (r, w1) /\ self w1 = self w /\ clock w1 = clock w.
Proof.
  destruct (wp_random (fun _ w1 => self w1 = self w /\ clock w1 = clock w) w)
    as (r & w1 & E & H); [intros; split; reflexivity|].
  exists r, w1. auto.
Qed.

Lemma choice_run {A} (l : list A) w :
  l <> [] ->
  exists x w1, choice l w = Some (x, w1) /\ In x l /\ self w1 = self w
               /\ clock w1 = clock w.
Proof.
  intros Hl.
  destruct (wp_choice l (fun x w1 => In x l /\ self w1 = self w /\ clock w1 = clock w) w)
    as (x & w1 & E & H); [exact Hl | intros; auto|].
  exists x, w1. auto.
Qed.

Lemma wp_get_ip location fqdn (Q : string -> world -> Prop) w :
  (forall s r, starts_with "10." s = true ->
     Q s {| self := self w; rand := r; clock := clock w |}) ->
  wp (get_ip_for_location_and_type location fqdn) Q w.
Proof.
  intros H. unfold get_ip_for_location_and_type.
  apply wp_bind.
  assert (forall a b, a <= b ->
    wp (randint a b)
      (fun subnet w1 => exists r, w1 = {| self := self w; rand := r; clock := clock w |}) w)
    as Hsub.
  { intros a b Hab. apply wp_randint; [exact Hab|]. intros z r _. exists r. reflexivity. }
  eapply wp_mono.
  - repeat match goal with
      | |- wp (if ?b then _ else _) _ _ => destruct b
      end; apply Hsub; lia.
  - intros subnet w1 [r ->]. apply wp_bind, wp_randint; [lia|].
    intros host r' _. apply wp_ret. apply H. simpl.
    repeat match goal with |- context [if ?b then _ else _] => destruct b end; reflexivity.
Qed.

Lemma wp_get_vlan fqdn (Q : Z -> world -> Prop) w :
  (forall z r, 10 <= z <= 399 ->
     Q z {| self := self w; rand := r; clock := clock w |}) ->
  wp (get_vlan_for_type fqdn) Q w.
Proof.
  intros H. unfold get_vlan_for_type.
  repeat match goal with
    | |- wp (if ?b then _ else _) _ _ => destruct b
    end; (apply wp_randint; [lia|]); intros z r Hz; apply H; lia.
Qed.

Lemma wp_get_next_mac (Q : string -> world -> Prop) w :
  (forall s, starts_with "00:1B:44:11:3A:" s = true ->
     Q s {| self := with_mac (self w) (mac_counter (self w) + 1);
            rand := rand w; clock := clock w |}) ->
  wp get_next_mac Q w.
Proof.
  intros H. unfold get_next_mac. apply wp_bind, wp_get_self.
  apply wp_bind, wp_modify_self. apply wp_ret. apply H. reflexivity.
Qed.


Lemma odict_has_true {V} k (d : odict V) :
  odict_has k d = true -> exists v, odict_get k d = Some v.
Proof. unfold odict_has. destruct (odict_get k d); [eauto | discriminate]. Qed.

Lemma truthy_fqdn fqdn :
  (if truthy (Some fqdn) then Some fqdn else None)
  = (if String.eqb fqdn "" then None else Some fqdn).
Proof. unfold truthy. destruct (String.eqb fqdn ""); reflexivity. Qed.

(** The end of [create_component]: the dictionary is built, appended and
    returned. *)
Ltac component_tail Hloc Hty :=
  apply wp_bind, wp_get_self;
  apply wp_bind; (eapply wp_index; [exact Hloc|]);
  apply wp_bind; (eapply wp_index; [exact Hty|]);
  apply wp_bind, wp_now; intros ? ?;
  apply wp_bind, wp_now; intros ? ?;
  apply wp_bind, wp_modify_self; apply wp_ret.

Lemma create_component_spec fqdn location ty desc status abstraction w :
  odict_has location (physical_locations ref) = true ->
  has_key ty (component_types ref) = true ->
  wp (create_component ref cfg fqdn location ty desc status abstraction)
     (fun res w' =>
        exists c mac_next,
          res = Some c
          /\ self w' = push_component (self w) c mac_next
          /\ made_in cfg w fqdn desc c) w.
Proof.
  intros Hloc Hty. unfold create_component. rewrite Hloc, Hty. simpl negb. cbv iota.
  apply odict_has_true in Hloc as [loc_id Hloc].
  apply has_key_true in Hty as [ty_id Hty].
  destruct (random_run w) as (r & w1 & Er & Hs1 & _).
  eapply wp_bind_run; [exact Er|].
  assert (is_pending_draw cfg w = Qltb r (pending_ratio cfg)) as Hp
    by (unfold is_pending_draw; rewrite Er; reflexivity).
  destruct w1 as [g1 r1 c1]. simpl in Hs1. subst g1.
  destruct (Qltb r (pending_ratio cfg)) eqn:Ep.
  - destruct (choice_run ["partial"; "minimal"]
                {| self := self w; rand := r1; clock := c1 |})
      as (level & w2 & Ec & Hin & Hs2 & _); [discriminate|].
    assert (missing_level_draw w = level) as Hl.
    { unfold missing_level_draw, mbind, M_bind. rewrite Er, Ec. reflexivity. }
    destruct w2 as [g2 r2 c2]. simpl in Hs2. subst g2.
    apply wp_bind. eapply wp_bind_run; [exact Ec|].
    destruct Hin as [<-|[<-|[]]].
    + (* partial *)
      simpl String.eqb. cbv iota.
      apply wp_bind, wp_random. intros q1 k1 _ _.
      apply wp_bind, wp_random. intros q2 k2 _ _.
      apply wp_bind, wp_get_self.
      apply wp_bind, wp_random. intros q3 k3 _ _.
      apply wp_bind, wp_random. intros q4 k4 _ _.
      apply wp_bind.
      apply (wp_mono _ (fun s w' =>
               (starts_with "10." s = true \/ s = "0.0.0.0")
               /\ exists k, w' = {| self := self w; rand := k; clock := c2 |})).
      { destruct (Qgtb q4 (3 # 10)).
        - apply wp_get_ip. intros s k Hs. simpl. eauto.
        - apply wp_ret. simpl. eauto. }
      intros ip_v ? [Hip [k5 ->]].
      apply wp_bind, wp_random. intros q5 k6 _ _.
      apply wp_bind.
      apply (wp_mono _ (fun s w' =>
               (starts_with "00:1B:44:11:3A:" s = true \/ s = "00:00:00:00:00:00")
               /\ exists m, w' = {| self := with_mac (self w) m; rand := k6; clock := c2 |})).
      { destruct (Qgtb q5 (3 # 10)).
        - apply wp_get_next_mac. intros s Hs. simpl. eauto.
        - apply wp_ret. simpl. split; [auto|]. exists (mac_counter (self w)).
          destruct (self w); reflexivity. }
      intros mac_v ? [Hmac [m ->]].
      apply wp_bind, wp_random. intros q6 k7 _ _.
      apply wp_bind.
      apply (wp_mono _ (fun z w' =>
               (10 <= z <= 399 \/ z = 1)
               /\ exists k, w' = {| self := with_mac (self w) m; rand := k; clock := c2 |})).
      { destruct (Qgtb q6 (3 # 10)).
        - apply wp_get_vlan. intros z k Hz. simpl. eauto.
        - apply wp_ret. simpl. eauto. }
      intros vlan_v ? [Hvlan [k8 ->]].
      apply wp_bind, wp_random. intros q7 k9 _ _.
      apply wp_ret.
      component_tail Hloc Hty.
      eexists _, m. split; [reflexivity|]. split; [reflexivity|].
      split; [reflexivity|]. rewrite Hp, Hl.
      split; [discriminate|]. split; [discriminate|]. split; [|auto].
      intros _ _. split; [reflexivity|].
      unfold partial_data; simpl.
      repeat split; auto.
      * destruct (Qgtb q1 (1 # 2)); [left; apply truthy_fqdn | right; reflexivity].
      * destruct (Qgtb q2 (1 # 2)); auto.
      * destruct (Qgtb q3 (1 # 2)); auto.
      * destruct (Qgtb q7 (3 # 10)); auto.
    + (* minimal *)
      simpl String.eqb. cbv iota. apply wp_ret.
      component_tail Hloc Hty.
      eexists _, (mac_counter (self w)). split; [reflexivity|]. split; [reflexivity|].
      split; [reflexivity|]. rewrite Hp, Hl.
      split; [discriminate|]. split; [|split; [discriminate | auto]].
      intros _ _. split; [reflexivity|]. repeat split.
  - (* complete *)
    apply wp_bind. apply wp_bind, wp_get_self.
    apply wp_bind, wp_get_ip. intros ip_v k1 Hip.
    apply wp_bind, wp_get_next_mac. intros mac_v Hmac.
    apply wp_bind, wp_get_vlan. intros vlan_v k2 Hvlan.
    apply wp_ret.
    component_tail Hloc Hty.
    eexists _, (mac_counter (self w) + 1). split; [reflexivity|]. split; [reflexivity|].
    split; [reflexivity|]. rewrite Hp.
    split; [|split; [discriminate | split; discriminate]].
    intros _. split; [reflexivity|].
    unfold complete_data; simpl. repeat split; auto; try lia.
    apply truthy_fqdn.
Qed.


Lemma built_refl g : built (0%nat, 0%nat) g g.
Proof.
  split; auto. exists []. rewrite app_nil_r. simpl. auto.
Qed.

Lemma built_trans a b g1 g2 g3 :
  built a g1 g2 -> built b g2 g3 -> built (pair_plus a b) g1 g3.
Proof.
  intros [(n1 & C1 & L1 & F1) R1 P1 K1] [(n2 & C2 & L2 & F2) R2 P2 K2].
  split; [|congruence|congruence|auto].
  exists (n1 ++ n2). rewrite C2, C1, <- app_assoc. split; [reflexivity|].
  split; [rewrite length_app; simpl; lia | apply Forall_app; auto].
Qed.

Lemma built_le a b g g' : built a g g' -> pair_le a b -> built b g g'.
Proof.
  intros [(n & C & L & F) R P K] [H1 H2]. split; auto.
  exists n. split; [exact C|]. split; [lia | exact F].
Qed.

Lemma made_in_graded w fqdn desc c :
  fqdn <> "" -> made_in cfg w fqdn desc c -> graded c.
Proof.
  intros Hf (Hid & Hg & Hr & Hy & Hl).
  destruct (is_pending_draw cfg w).
  - destruct (Hl eq_refl) as [E|E].
    + destruct (Hr eq_refl E) as (G & F1 & F2 & F3 & F4 & F5 & F6 & F7).
      right. right. repeat split; auto.
    + destruct (Hy eq_refl E) as (G & F1 & F2 & F3 & F4 & F5 & F6 & F7).
      right. left. repeat split; auto.
  - destruct (Hg eq_refl) as (G & F1 & F2 & F3 & F4 & F5 & F6 & F7).
    left. repeat split; auto; try lia.
    rewrite F1. destruct (String.eqb_spec fqdn ""); [congruence | eauto].
Qed.

Lemma linked_push g c mac_next :
  component_id c = component_id_counter g ->
  linked g -> linked (push_component g c mac_next).
Proof.
  intros Hid (Hnd & Hin & Hmap). repeat split; simpl.
  - rewrite map_app. simpl. apply NoDup_app. split; [exact Hnd|].
    split; [|apply NoDup_singleton].
    intros x Hx Hx'. apply list_elem_of_singleton in Hx'. subst x.
    apply list_elem_of_In, in_map_iff in Hx as (c' & E & Hc').
    destruct (Hin c' Hc') as [Hlt _]. lia.
  - apply in_app_or in H as [H|[<-|[]]]; [destruct (Hin c0 H); lia | lia].
  - apply in_app_or in H as [H|[<-|[]]].
    + destruct (Hin c0 H) as [_ Hs]. apply lookup_insert_is_Some'. auto.
    + rewrite Hid. apply lookup_insert_is_Some'. auto.
  - intros i Hi. apply lookup_insert_is_Some' in Hi as [<-|Hi].
    + exists c. split; [apply in_or_app; right; left; reflexivity | exact Hid].
    + destruct (Hmap i Hi) as (c' & H1 & H2). exists c'. split; [|exact H2].
      apply in_or_app. auto.
Qed.

Lemma create_component_invalid fqdn location ty desc status abstraction w :
  odict_has location (physical_locations ref) = false
  \/ has_key ty (component_types ref) = false ->
  create_component ref cfg fqdn location ty desc status abstraction w = Some (None, w).
Proof.
  intros H. unfold create_component.
  destruct (odict_has location (physical_locations ref)); simpl; [|reflexivity].
  destruct H as [H|H]; [discriminate|]. rewrite H. reflexivity.
Qed.

(** A call of [create_component] from [generate_components]. *)
Lemma makes_create_component fqdn location ty desc status abstraction :
  fqdn <> "" ->
  odict_has location (physical_locations ref) = true ->
  makes (known_type ref ty, 1%nat)
    (create_component ref cfg fqdn location ty desc status abstraction) (fun _ => True).
Proof.
  intros Hf Hloc w. unfold known_type.
  destruct (has_key ty (component_types ref)) eqn:Hty.
  - eapply wp_mono; [apply create_component_spec; assumption|].
    intros res w' (c & mac_next & -> & -> & Hmade). split; [exact I|].
    split; simpl; try reflexivity.
    + exists [c]. split; [reflexivity|]. split; [simpl; lia|].
      constructor; [|constructor]. eapply made_in_graded; eassumption.
    + apply linked_push. destruct Hmade as [Hid _]. exact Hid.
  - exists None, w. split; [apply create_component_invalid; auto|].
    split; [exact I|]. eapply built_le; [apply built_refl|]. split; simpl; lia.
Qed.

Lemma append_nonempty a b : b <> "" -> String.append a b <> "".
Proof.
  intros Hb. destruct a; [rewrite append_Empty; exact Hb|].
  rewrite append_String. discriminate.
Qed.

Lemma make_fqdn_nonempty prefix i location : make_fqdn prefix i location <> "".
Proof.
  unfold make_fqdn. repeat apply append_nonempty. discriminate.
Qed.

Lemma odict_keys_has {V} k (d : odict V) :
  In k (odict_keys d) -> odict_has k d = true.
Proof.
  unfold odict_has, odict_get, odict_keys.
  induction d as [|[k' v] d IHd]; simpl; [tauto|].
  intros [->|H].
  - rewrite String.eqb_refl. reflexivity.
  - destruct (String.eqb k' k); [reflexivity | auto].
Qed.

(** The rules of [makes]: those of [performs] for [built]. *)
Lemma makes_bind {A B} (k1 k2 k : nat * nat) (m : M A) (f : A -> M B)
    (V1 : A -> Prop) (V2 : B -> Prop) :
  makes k1 m V1 ->
  (forall a, V1 a -> makes k2 (f a) V2) ->
  pair_le (pair_plus k1 k2) k ->
  makes k (m ≫= f) V2.
Proof. apply (performs_bind pair_plus pair_le built built_trans built_le). Qed.

Lemma makes_ret {A} (a : A) (V : A -> Prop) : V a -> makes (0%nat, 0%nat) (mret a) V.
Proof. apply (performs_ret (0%nat, 0%nat) built built_refl). Qed.

Lemma makes_choice {A} (l : list A) :
  l <> [] -> makes (0%nat, 0%nat) (choice l) (fun x => In x l).
Proof. apply (performs_choice (0%nat, 0%nat) built built_refl). Qed.

Lemma makes_random :
  makes (0%nat, 0%nat) random (fun q => (0 <= q)%Q /\ (q < 1)%Q).
Proof. apply (performs_random (0%nat, 0%nat) built built_refl). Qed.

Lemma makes_for_each {A} (k : nat * nat) (l : list A) (body : A -> M unit) :
  (forall x, In x l -> makes k (body x) (fun _ => True)) ->
  makes ((fst k * length l)%nat, (snd k * length l)%nat) (for_each l body) (fun _ => True).
Proof.
  apply (performs_for_each (0%nat, 0%nat) pair_plus pair_le built
           built_refl built_trans built_le k
           (fun i => ((fst k * i)%nat, (snd k * i)%nat)));
    intros; split; simpl; lia.
Qed.

Lemma makes_add_component fqdn location ty desc :
  fqdn <> "" ->
  odict_has location (physical_locations ref) = true ->
  makes (known_type ref ty, 1%nat) (add_component ref cfg fqdn location ty desc)
    (fun _ => True).
Proof.
  intros Hf Hloc. unfold add_component.
  eapply makes_bind; [apply makes_create_component; assumption | |].
  - intros _ _. apply makes_ret. exact I.
  - split; simpl; lia.
Qed.

Lemma range_length lo hi : length (range lo hi) = Z.to_nat (hi - lo).
Proof. unfold range. rewrite length_map, length_seq. reflexivity. Qed.

Lemma makes_seq {A} (k1 k2 k : nat * nat) (m : M unit) (rest : M A) (V : A -> Prop) :
  makes k1 m (fun _ => True) ->
  makes k2 rest V ->
  pair_le (pair_plus k1 k2) k ->
  makes k (m ≫= fun _ => rest) V.
Proof. apply (performs_seq pair_plus pair_le built built_trans built_le). Qed.

Lemma makes_then {A} (k1 k2 : nat * nat) (m : M unit) (rest : M A) (V : A -> Prop) :
  makes k1 m (fun _ => True) ->
  makes k2 rest V ->
  makes (pair_plus k1 k2) (m ≫= fun _ => rest) V.
Proof. intros H1 H2. eapply makes_seq; [exact H1 | exact H2 | split; lia]. Qed.

Ltac pair_lia := unfold pair_le, pair_plus; cbn [fst snd]; lia.

(** A draw before the call of [create_component] in a round of a loop. *)
Ltac draw ty :=
  eapply (makes_bind (0%nat, 0%nat) (known_type ref ty, 1%nat));
    [ first [ apply makes_choice; discriminate | apply makes_random ]
    | intros ? ?
    | pair_lia ].

(** A loop of [n] rounds that each make a component of type [ty]. *)
Lemma loop_makes ty (n : Z) (body : Z -> M unit) :
  (forall i, makes (known_type ref ty, 1%nat) (body i) (fun _ => True)) ->
  makes ((known_type ref ty * Z.to_nat n)%nat, Z.to_nat n)
    (for_each (range 1 (n + 1)) body) (fun _ => True).
Proof.
  intros Hbody.
  eapply (performs_le pair_le built built_le); [apply makes_for_each; intros; apply Hbody|].
  rewrite range_length. replace (n + 1 - 1) with n by lia. pair_lia.
Qed.

Section Loops.

Variable locations : list string.
Hypothesis locations_nonempty : locations <> [].
Hypothesis locations_known :
  forall l, In l locations -> odict_has l (physical_locations ref) = true.

(** A round that picks a location first. *)
Ltac at_location ty :=
  eapply (makes_bind (0%nat, 0%nat) (known_type ref ty, 1%nat));
    [ apply makes_choice; exact locations_nonempty
    | intros location Hin
    | pair_lia ].

Ltac place Hin :=
  apply makes_add_component; [apply make_fqdn_nonempty | apply locations_known, Hin].

Lemma app_round_makes i :
  makes (known_type ref "application", 1%nat)
    (location ← choice locations;
     app_type ← choice ["webapp"; "portal"; "mobile"; "api"; "service";
                        "internal"; "batch"];
     let fqdn := make_fqdn app_type i location in
     r ← random;
     let status := if Qgtb r (15 # 100) then "OPERATIONAL" else "DEGRADED" in
     description ← choice descriptions;
     _ ← create_component ref cfg fqdn location "application" description
           status "virtual_machine";
     mret tt) (fun _ => True).
Proof.
  at_location "application".
  draw "application". draw "application". draw "application".
  eapply makes_bind;
    [apply makes_create_component; [apply make_fqdn_nonempty | apply locations_known, Hin]
    | intros _ _; apply makes_ret; exact I
    | pair_lia].
Qed.

Lemma db_round_makes i :
  makes (known_type ref "polyglot_persistence", 1%nat)
    (location ← choice locations;
     let db_type := if i mod 2 =? 1 then "pri" else "sec" in
     let fqdn := String.append "db" (String.append (fmt_d 2 i) (String.append db_type
                   (String.append ".prod." (String.append (get_dc_code location)
                      ".regions.com")))) in
     add_component ref cfg fqdn location "polyglot_persistence"
       (String.append (if String.eqb db_type "pri" then "Primary" else "Secondary")
          " database for critical data")) (fun _ => True).
Proof.
  at_location "polyglot_persistence".
  apply makes_add_component; [|apply locations_known, Hin].
  repeat apply append_nonempty. discriminate.
Qed.

Lemma cache_round_makes i :
  makes (known_type ref "polyglot_persistence", 1%nat)
    (location ← choice locations;
     cache_type ← choice ["redis"; "cache"];
     add_component ref cfg (make_fqdn cache_type i location) location
       "polyglot_persistence" "High-performance cache for session/API data")
    (fun _ => True).
Proof. at_location "polyglot_persistence". draw "polyglot_persistence". place Hin. Qed.

Lemma mq_round_makes i :
  makes (known_type ref "polyglot_persistence", 1%nat)
    (location ← choice locations;
     mq_type ← choice ["kafka"; "mq"];
     add_component ref cfg (make_fqdn mq_type i location) location
       "polyglot_persistence" "Message broker for event streaming")
    (fun _ => True).
Proof. at_location "polyglot_persistence". draw "polyglot_persistence". place Hin. Qed.

Lemma storage_round_makes i :
  makes (known_type ref "block_level_persistence", 1%nat)
    (location ← choice locations;
     storage_type ← choice ["nas"; "san"; "minio"; "obj"];
     add_component ref cfg (make_fqdn storage_type i location) location
       "block_level_persistence" "Enterprise storage for documents and backups")
    (fun _ => True).
Proof. at_location "block_level_persistence". draw "block_level_persistence". place Hin. Qed.

Lemma lb_round_makes i :
  makes (known_type ref "networking", 1%nat)
    (location ← choice locations;
     add_component ref cfg (make_fqdn "lb" i location) location
       "networking" "Load balancer for application traffic distribution")
    (fun _ => True).
Proof. at_location "networking". place Hin. Qed.

End Loops.

Lemma generate_components_makes :
  physical_locations ref <> [] ->
  makes (component_range ref (scale cfg)) (generate_components ref cfg) (fun _ => True).
Proof.
  intros Hloc. unfold generate_components.
  set (locations := odict_keys (physical_locations ref)).
  assert (locations <> []) as Hne.
  { unfold locations, odict_keys. destruct (physical_locations ref); [congruence|discriminate]. }
  assert (forall l, In l locations -> odict_has l (physical_locations ref) = true) as Hhas
    by (intros l; apply odict_keys_has).
  destruct locations as [|l0 ls] eqn:El; [congruence|]. rewrite <- El in *. clear El l0 ls.
  unfold component_range, asked. cbv [fold_right].
  set (config := scale_configs (scale cfg)).
  set (total := total_components config).
  eapply (performs_le pair_le built built_le); [|].
  - eapply makes_then;
      [apply loop_makes; intros; apply app_round_makes; assumption|].
    eapply makes_then;
      [apply loop_makes; intros; apply db_round_makes; assumption|].
    eapply makes_then;
      [apply loop_makes; intros; apply cache_round_makes; assumption|].
    eapply makes_then;
      [apply loop_makes; intros; apply mq_round_makes; assumption|].
    eapply makes_then;
      [apply loop_makes; intros; apply storage_round_makes; assumption|].
    apply loop_makes; intros; apply lb_round_makes; assumption.
  - pair_lia.
Qed.

Lemma generate_components_no_location w :
  physical_locations ref = [] -> generate_components ref cfg w = Some (tt, w).
Proof. intros H. unfold generate_components. rewrite H. reflexivity. Qed.


End ComponentFacts.

(* ===================================================================== *)
(** * The generator: a whole run *)
(* ===================================================================== *)

Section RunFacts.
Import PyStr Generator GeneratorSpec.

Variable ref : refdata.
Variable cfg : config.

Lemma generate_spec w :
  wp (generate ref cfg) (fun _ w' => generated ref cfg (self w) w') w.
Proof.
  unfold generate. apply wp_bind.
  apply (wp_mono _ (fun _ w1 => built (run_range ref cfg) (self w) (self w1))).
  - unfold run_range. destruct (physical_locations ref) as [|l ls] eqn:E; simpl nonempty.
    + exists tt, w. split; [apply generate_components_no_location, E | apply built_refl].
    + eapply wp_mono; [apply generate_components_makes; rewrite E; discriminate|].
      intros u w1 [_ H]. exact H.
  - intros u w1 Hb. eapply wp_mono; [apply generate_relationships_spec|].
    intros u' w2 Hr. exists (self w1). auto.
Qed.

Lemma linked_init : linked init_generator.
Proof.
  repeat split; simpl.
  - apply NoDup_nil_2.
  - destruct H.
  - destruct H.
  - intros i [c Hc]. rewrite lookup_empty in Hc. discriminate.
Qed.

Lemma graded_mark c : graded c -> graded (mark_orphaned c).
Proof. intros H. exact H. Qed.

Lemma marked_ids (f : component -> bool) (l : list component) :
  map component_id (map (fun c => if f c then mark_orphaned c else c) l)
  = map component_id l.
Proof.
  rewrite map_map. apply map_ext. intros c. destruct (f c); reflexivity.
Qed.

Lemma Forall_marked (P : component -> Prop) (f : component -> bool) l :
  (forall c, P c -> P (mark_orphaned c)) ->
  Forall P l -> Forall P (map (fun c => if f c then mark_orphaned c else c) l).
Proof.
  intros HP H. induction H as [|c l Hc Hl IHl]; simpl; constructor; [|exact IHl].
  destruct (f c); auto.
Qed.

(** A run from a fresh generator ends, and the facts that [generated]
    gives about it. *)
Lemma run_generated seed times :
  exists g w', generate ref cfg (init_world seed times) = Some (tt, w')
               /\ self w' = g
               /\ run ref cfg seed times = Some g
               /\ generated ref cfg init_generator w'.
Proof.
  destruct (generate_spec (init_world seed times)) as ([] & w' & E & H).
  exists (self w'), w'. split; [exact E|]. split; [reflexivity|].
  split; [unfold run; rewrite E; reflexivity | exact H].
Qed.

End RunFacts.

(* ===================================================================== *)
(** * The generator: grades, counts and stored relationships *)
(* ===================================================================== *)

Section GeneratorClaims.
Import PyStr Generator GeneratorSpec.

Lemma graded_valid c : graded c -> valid_grade c.
Proof. unfold valid_grade. intros [H|[H|H]]; destruct H as [H _]; auto. Qed.

Lemma made_in_valid cfg w fqdn desc c : made_in cfg w fqdn desc c -> valid_grade c.
Proof.
  intros (_ & Hg & Hr & Hy & Hl). unfold valid_grade.
  destruct (is_pending_draw cfg w).
  - destruct (Hl eq_refl) as [E|E]; [destruct (Hr eq_refl E) | destruct (Hy eq_refl E)]; auto.
  - destruct (Hg eq_refl); auto.
Qed.

(** The components of a run, with the facts that [generated] gives. *)
Lemma run_components ref cfg seed times :
  exists g new,
    run ref cfg seed times = Some g
    /\ (fst (run_range ref cfg) <= length new <= snd (run_range ref cfg))%nat
    /\ Forall graded new
    /\ exists g1 : generator,
         components g1 = new
         /\ linked g1
         /\ components g
            = map (fun c => if is_orphan g1 c then mark_orphaned c else c) new
         /\ relationships g1 = relationships g
         /\ (length (relationships g) <= rel_bound g1)%nat
         /\ Forall (rel_ok ref (component_map g1)) (relationships g)
         /\ (forall i, is_Some (component_map g1 !! i) -> is_Some (component_map g !! i))
         /\ exists problems,
              problems_created g = problems /\ Forall (gated cfg) problems.
Proof.
  destruct (run_generated ref cfg seed times)
    as (g & w' & _ & Hg & Hrun & g1 & Hb & g2 & Hgr & Ho).
  destruct Hb as [(new & C1 & L1 & F1) R1 P1 K1].
  destruct Hgr as [C2 M2 I2 (rs & R2 & L2 & F2) (ps & P2 & G2)].
  destruct Ho as [R3 C3 M3 I3 P3]. rewrite Hg in *. simpl in *.
  exists g, new. split; [exact Hrun|]. split; [exact L1|]. split; [exact F1|].
  exists g2. split; [congruence|].
  split.
  { destruct (K1 linked_init) as (Hnd & Hin & Hmap). repeat split.
    - rewrite C2. exact Hnd.
    - rewrite C2 in H. destruct (Hin c H). lia.
    - rewrite C2 in H. destruct (Hin c H). rewrite M2. assumption.
    - intros i Hi. rewrite M2 in Hi. rewrite C2. auto. }
  split; [rewrite C3, C2, C1; reflexivity|].
  split; [congruence|].
  split.
  { rewrite R3, R2, R1. simpl. unfold rel_bound. rewrite C2. exact L2. }
  split; [rewrite R3, R2, R1, M2; exact F2|].
  split; [intros i Hi; apply M3; auto|].
  eexists. split; [reflexivity|]. rewrite P3, P2, P1. simpl.
  apply Forall_app. split; [exact G2|].
  destruct (orphans_of g2); [constructor|].
  constructor; [apply count_not_gated | constructor].
Qed.

(** C5.  A call of [create_component] that passes the validation appends a
    component whose grade is GREEN, YELLOW or RED: GREEN with complete data
    when the first draw is not below [pending_ratio]; otherwise RED with
    minimal data when the missing level drawn is minimal, and YELLOW with
    partial data when it is partial.  Every component of a run has one of the
    three grades, and data that agree with it. *)
Theorem quality_grade_reflects_completeness (ref : refdata) (cfg : config) :
  (forall fqdn location ty desc status abstraction w,
     odict_has location (physical_locations ref) = true ->
     has_key ty (component_types ref) = true ->
     wp (create_component ref cfg fqdn location ty desc status abstraction)
        (fun res w' =>
           exists c, res = Some c
                     /\ components (self w') = components (self w) ++ [c]
                     /\ valid_grade c
                     /\ made_in cfg w fqdn desc c) w)
  /\ (forall seed times,
        exists g, run ref cfg seed times = Some g
                  /\ Forall (fun c => valid_grade c /\ graded c) (components g)).
Proof.
  split.
  - intros fqdn location ty desc status abstraction w Hloc Hty.
    eapply wp_mono; [apply create_component_spec; assumption|].
    intros res w' (c & mac_next & -> & -> & Hmade). exists c.
    split; [reflexivity|]. split; [reflexivity|].
    split; [eapply made_in_valid; eassumption | exact Hmade].
  - intros seed times.
    destruct (run_components ref cfg seed times)
      as (g & new & Hrun & _ & Hgraded & g1 & _ & _ & Hc & _).
    exists g. split; [exact Hrun|]. rewrite Hc.
    apply Forall_marked.
    + intros c [H1 H2]. split; [exact H1 | exact H2].
    + eapply Forall_impl; [exact Hgraded|].
      intros c Hcg. split; [apply graded_valid, Hcg | exact Hcg].
Qed.

Lemma quality_grade_reflects_completeness_witness :
  wp (create_component demo_ref (demo_cfg ScaleSmall 0)
        "webapp01.prod.dc01.regions.com" "DC01_AL" "application"
        "Customer-facing banking application" "OPERATIONAL" "virtual_machine")
     (fun res w' =>
        exists c, res = Some c
                  /\ components (self w') = components (self (init_world [] [])) ++ [c]
                  /\ valid_grade c
                  /\ made_in (demo_cfg ScaleSmall 0) (init_world [] [])
                       "webapp01.prod.dc01.regions.com"
                       "Customer-facing banking application" c)
     (init_world [] []).
Proof.
  apply (proj1 (quality_grade_reflects_completeness demo_ref (demo_cfg ScaleSmall 0)));
    reflexivity.
Defined.

(** The relationships of a run are stored between components of the run. *)
Lemma run_relationships_stored ref cfg seed times :
  exists g, run ref cfg seed times = Some g
            /\ Forall (stored_ok ref g) (relationships g)
            /\ NoDup (map component_id (components g)).
Proof.
  destruct (run_components ref cfg seed times)
    as (g & new & Hrun & _ & _ & g1 & Hc1 & (Hnd & Hin & Hmap) & Hc & _ & _ & Hok & Hdom & _).
  exists g. split; [exact Hrun|].
  assert (forall i, is_Some (component_map g1 !! i) -> endpoint g i) as Hend.
  { intros i Hi. split; [apply Hdom, Hi|].
    destruct (Hmap i Hi) as (c & Hc' & Hid). rewrite Hc1 in Hc'.
    exists (if is_orphan g1 c then mark_orphaned c else c). split.
    - rewrite Hc. apply in_map_iff. exists c. auto.
    - destruct (is_orphan g1 c); exact Hid. }
  split.
  - eapply Forall_impl; [exact Hok|].
    intros r (Ha & Hb & Hty). split; [apply Hend, Ha|]. split; [apply Hend, Hb | exact Hty].
  - rewrite Hc, marked_ids, <- Hc1. exact Hnd.
Qed.

(** C9.  [create_relationship] returns [None] and changes nothing when the
    type name is unknown or one of the two ids is not a key of the component
    map; otherwise it appends the relationship it returns, from the first id
    to the second, with the id of the type.  Every relationship that a run
    stores has a known type and two components of the run as its ends. *)
Theorem create_relationship_validates (ref : refdata) (cfg : config) :
  (forall a b ty desc w,
     has_key ty (relationship_types ref) = false
     \/ component_map (self w) !! a = None
     \/ component_map (self w) !! b = None ->
     create_relationship ref a b ty desc w = Some (None, w))
  /\ (forall a b ty desc w,
       has_key ty (relationship_types ref) = true ->
       is_Some (component_map (self w) !! a) ->
       is_Some (component_map (self w) !! b) ->
       exists r w',
         create_relationship ref a b ty desc w = Some (Some r, w')
         /\ self w' = push_relationship (self w) r
         /\ rel_component_id r = a
         /\ related_component_id r = b
         /\ relationship_types ref !! ty = Some (relationship_type_id r))
  /\ (forall seed times,
       exists g, run ref cfg seed times = Some g
                 /\ Forall (stored_ok ref g) (relationships g)).
Proof.
  split; [|split].
  - intros a b ty desc w Hbad.
    destruct (create_relationship_spec ref a b ty desc w) as (res & w' & E & _ & H).
    destruct res as [r|].
    + destruct H as (_ & _ & _ & Hty & _ & Ha & Hb). exfalso.
      destruct Hbad as [Hbad|[Hbad|Hbad]].
      * unfold has_key in Hbad. rewrite Hty in Hbad. discriminate.
      * rewrite Hbad in Ha. destruct Ha as [? Ha]. discriminate.
      * rewrite Hbad in Hb. destruct Hb as [? Hb]. discriminate.
    + destruct H as [-> _]. exact E.
  - intros a b ty desc w Hty Ha Hb.
    destruct (create_relationship_spec ref a b ty desc w) as (res & w' & E & _ & H).
    destruct res as [r|].
    + destruct H as (Hs & H1 & H2 & H3 & _). exists r, w'. auto.
    + destruct H as [_ [H|[H|H]]]; exfalso.
      * congruence.
      * rewrite H in Ha. destruct Ha as [? Ha]. discriminate.
      * rewrite H in Hb. destruct Hb as [? Hb]. discriminate.
  - intros seed times.
    destruct (run_relationships_stored ref cfg seed times) as (g & Hrun & Hok & _).
    exists g. auto.
Qed.

Lemma create_relationship_validates_witness :
  create_relationship demo_ref 1 2 "persists_to" "HUB PATTERN" (init_world [] [])
  = Some (None, init_world [] []).
Proof.
  apply (proj1 (create_relationship_validates demo_ref (demo_cfg ScaleSmall 0))).
  right. left. reflexivity.
Defined.

Lemma known_type_true ref ty :
  has_key ty (component_types ref) = true -> known_type ref ty = 1%nat.
Proof. intros H. unfold known_type. rewrite H. reflexivity. Qed.

Lemma component_range_exact ref s :
  (forall ty, In ty generated_types -> has_key ty (component_types ref) = true) ->
  component_range ref s = (component_count s, component_count s).
Proof.
  intros H. unfold component_range, asked. cbv [fold_right].
  rewrite !known_type_true by (apply H; unfold generated_types; simpl; tauto).
  destruct s; reflexivity.
Qed.

Lemma group_of_mark c : group_of (mark_orphaned c) = group_of c.
Proof. reflexivity. Qed.

Lemma in_group_marked k (f : component -> bool) l :
  length (in_group k (map (fun c => if f c then mark_orphaned c else c) l))
  = length (in_group k l).
Proof.
  unfold in_group. induction l as [|c l IHl]; simpl; [reflexivity|].
  assert (group_of (if f c then mark_orphaned c else c) = group_of c) as ->
    by (destruct (f c); reflexivity).
  destruct (bool_decide (group_of c = k)); simpl; rewrite IHl; reflexivity.
Qed.

(** C2, as the code has it.  With reference data that have a location and
    the four component types that the generator names, every run ends with
    48, 194 or 485 components for the small, medium and large scale, whatever
    the seed; the number of relationships is at most 23, plus one for each
    component grouped as a database, five for each cache, nine for each
    message queue and eight for each load balancer. *)
Theorem component_and_relationship_counts (ref : refdata) (cfg : config)
    (seed : list N) (times : list Z) :
  physical_locations ref <> [] ->
  (forall ty, In ty generated_types -> has_key ty (component_types ref) = true) ->
  exists g,
    run ref cfg seed times = Some g
    /\ length (components g) = component_count (scale cfg)
    /\ (length (relationships g) <= rel_bound g)%nat.
Proof.
  intros Hloc Hty.
  destruct (run_components ref cfg seed times)
    as (g & new & Hrun & Hlen & _ & g1 & Hc1 & _ & Hc & _ & Hb & _).
  exists g. split; [exact Hrun|].
  unfold run_range in Hlen.
  destruct (physical_locations ref) as [|l ls]; [congruence|]. simpl nonempty in Hlen.
  rewrite (component_range_exact ref _ Hty) in Hlen. simpl in Hlen.
  split.
  - rewrite Hc, length_map. lia.
  - unfold rel_bound in *. rewrite Hc, !in_group_marked, <- Hc1. exact Hb.
Qed.

Lemma component_and_relationship_counts_witness :
  exists g,
    run demo_ref (demo_cfg ScaleMedium (3 # 10)) [7%N; 1%N; 4%N] [1700000000] = Some g
    /\ length (components g) = 194%nat
    /\ (length (relationships g) <= rel_bound g)%nat.
Proof.
  apply (component_and_relationship_counts demo_ref (demo_cfg ScaleMedium (3 # 10))).
  - discriminate.
  - intros ty [<-|[<-|[<-|[<-|[]]]]]; reflexivity.
Defined.

(** C2 as stated fails: with the default arguments and every draw at 0, the
    small scale ends with 32 relationships and the large scale with 250; with
    draws that vary, the medium scale ends with 176 relationships and the
    large scale with 432. *)
Lemma relationship_count_outside_range :
  option_map (fun g => (length (components g), length (relationships g)))
    (run demo_ref (demo_cfg ScaleSmall (3 # 10)) [] []) = Some (48%nat, 32%nat)
  /\ option_map (fun g => (length (components g), length (relationships g)))
       (run demo_ref (demo_cfg ScaleLarge (3 # 10)) [] []) = Some (485%nat, 250%nat)
  /\ option_map (fun g => (length (components g), length (relationships g)))
       (run demo_ref (demo_cfg ScaleMedium (3 # 10)) (congruential (60 * 100) 2024) [])
     = Some (194%nat, 176%nat)
  /\ option_map (fun g => (length (components g), length (relationships g)))
       (run demo_ref (demo_cfg ScaleLarge (3 # 10)) (congruential (60 * 100) 2024) [])
     = Some (485%nat, 432%nat).
Proof. split; [|split; [|split]]; vm_compute; reflexivity. Qed.

End GeneratorClaims.

(* ===================================================================== *)
(** * The generator: the problems recorded *)
(* ===================================================================== *)

Section ProblemFacts.
Import PyStr Generator GeneratorSpec.

Variable ref : refdata.
Variable cfg : config.

Lemma new_problems_refl g : new_problems g g [].
Proof. unfold new_problems. rewrite app_nil_r. reflexivity. Qed.

Lemma new_problems_trans g1 g2 g3 ps qs :
  new_problems g1 g2 ps -> new_problems g2 g3 qs -> new_problems g1 g3 (ps ++ qs).
Proof. unfold new_problems. intros H1 H2. rewrite H2, H1, app_assoc. reflexivity. Qed.

Lemma grows_new_problems n g g' :
  grows ref cfg n g g' -> exists ps, new_problems g g' ps /\ Forall (gated cfg) ps.
Proof. intros [_ _ _ _ (ps & P & G)]. exists ps. auto. Qed.

Lemma related_new_problems n g w' :
  related ref cfg n g w' ->
  exists ps, new_problems g (self w') ps /\ Forall (gated cfg) ps.
Proof.
  intros (g1 & Hg & [_ _ _ _ P3]).
  destruct (grows_new_problems _ _ _ Hg) as (ps & P & G).
  eexists. split; [eapply new_problems_trans; [exact P | exact P3]|].
  apply Forall_app. split; [exact G|].
  destruct (orphans_of g1); [constructor|].
  constructor; [apply count_not_gated | constructor].
Qed.

(** A step that [does] something, then a rest that records [p]. *)
Lemma records_after {A} n (m : M A) (k : M unit) (P : string -> Prop) w :
  does ref cfg n m (fun _ => True) ->
  (forall w1, wp k (fun _ w' => exists ps, new_problems (self w1) (self w') ps
                                 /\ exists p, In p ps /\ P p) w1) ->
  wp (m ≫= fun _ => k)
     (fun _ w' => exists ps, new_problems (self w) (self w') ps
                             /\ exists p, In p ps /\ P p) w.
Proof.
  intros Hm Hk. apply wp_bind. eapply wp_mono; [apply Hm|].
  intros u w1 [_ G]. destruct (grows_new_problems _ _ _ G) as (ps1 & P1 & _).
  eapply wp_mono; [apply Hk|].
  intros u' w2 (ps2 & P2 & p & Hp & HP). exists (ps1 ++ ps2).
  split; [eapply new_problems_trans; eassumption|].
  exists p. split; [apply in_or_app; auto | exact HP].
Qed.

(** A step that records [p], then a rest that only adds. *)
Lemma records_before {A} (m : M A) (k : M unit) (P : string -> Prop) w :
  wp m (fun _ w1 => exists ps, new_problems (self w) (self w1) ps
                               /\ exists p, In p ps /\ P p) w ->
  (forall w1, wp k (fun _ w' => exists n, related ref cfg n (self w1) w') w1) ->
  wp (m ≫= fun _ => k)
     (fun _ w' => exists ps, new_problems (self w) (self w') ps
                             /\ exists p, In p ps /\ P p) w.
Proof.
  intros Hm Hk. apply wp_bind. eapply wp_mono; [exact Hm|].
  intros u w1 (ps1 & P1 & p & Hp & HP).
  eapply wp_mono; [apply Hk|].
  intros u' w2 (n & Hr). destruct (related_new_problems _ _ _ Hr) as (ps2 & P2 & _).
  exists (ps1 ++ ps2).
  split; [eapply new_problems_trans; eassumption|].
  exists p. split; [apply in_or_app; auto | exact HP].
Qed.

Lemma related_step_ex {A} n1 (m : M A) (k : M unit) w :
  does ref cfg n1 m (fun _ => True) ->
  (forall w1, wp k (fun _ w' => exists n, related ref cfg n (self w1) w') w1) ->
  wp (m ≫= fun _ => k) (fun _ w' => exists n, related ref cfg n (self w) w') w.
Proof.
  intros Hm Hk. apply wp_bind. eapply wp_mono; [apply Hm|].
  intros u w1 [_ G1]. eapply wp_mono; [apply Hk|].
  intros u' w2 (n & g1 & G2 & O). exists (n1 + n)%nat, g1. split; [|exact O].
  eapply grows_trans; eassumption.
Qed.

Lemma related_orphans_ex w :
  wp create_orphaned_components (fun _ w' => exists n, related ref cfg n (self w) w') w.
Proof.
  eapply wp_mono; [apply (related_orphans ref cfg)|].
  intros u w' H. exists 0%nat. exact H.
Qed.

(** The rest of [generate_relationships] after any of its steps. *)
Ltac rest_of_steps :=
  repeat (eapply related_step_ex;
          [ first [ apply failover_step_does | apply cache_step_does
                  | apply mq_step_does | apply lb_step_does
                  | apply circular_step_does ]
          | intros ? ]);
  apply related_orphans_ex.

(** A call of [create_relationship] records no problem. *)
Lemma relate_keeps_problems a b ty desc w :
  wp (relate ref a b ty desc)
     (fun _ w' => problems_created (self w') = problems_created (self w)) w.
Proof.
  unfold relate. apply wp_bind. eapply wp_mono; [apply create_relationship_spec|].
  intros [r|] w' [_ H]; apply wp_ret.
  - destruct H as (-> & _). reflexivity.
  - destruct H as (-> & _). reflexivity.
Qed.

Lemma relates_keep_problems {A} (l : list A) (body : A -> M unit) w :
  (forall x w1, wp (body x)
     (fun _ w' => problems_created (self w') = problems_created (self w1)) w1) ->
  wp (for_each l body)
     (fun _ w' => problems_created (self w') = problems_created (self w)) w.
Proof.
  intros Hbody.
  apply (wp_for_each (fun _ w' => problems_created (self w') = problems_created (self w))).
  - reflexivity.
  - intros i x w1 _ H1. eapply wp_mono; [apply Hbody|].
    intros u w2 H2. congruence.
  - auto.
Qed.

Lemma hub_records apps dbs w :
  dbs <> [] ->
  wp (create_hub_database_pattern ref cfg apps dbs)
     (fun _ w' => exists ps, new_problems (self w) (self w') ps
        /\ exists p, In p ps /\ starts_with "Hub database with " p = true) w.
Proof.
  intros Hdbs. unfold create_hub_database_pattern.
  destruct dbs as [|d dbs]; [congruence|].
  apply wp_bind. eapply wp_index; [reflexivity|].
  assert (0 <= fst (concentration_configs (app_concentration cfg))
          /\ fst (concentration_configs (app_concentration cfg))
             <= snd (concentration_configs (app_concentration cfg))) as Hc
    by (destruct (app_concentration cfg); simpl; lia).
  apply wp_bind, wp_randint; [lia|]. intros num k1 Hnum.
  apply wp_bind, wp_sample; [unfold len; lia|]. intros selected k2 _.
  apply wp_bind. eapply wp_mono.
  { apply relates_keep_problems. intros app w1. apply relate_keeps_problems. }
  intros u w1 Hp. apply wp_modify_self. simpl.
  eexists. split; [unfold new_problems; simpl; rewrite Hp; reflexivity|].
  eexists. split; [left; reflexivity | reflexivity].
Qed.

Lemma Qlt_Qltb x y : (x < y)%Q -> Qltb x y = true.
Proof. unfold Qltb, Qlt. intros H. apply Z.ltb_lt. exact H. Qed.

Lemma circular_records apps w :
  3 <= len apps ->
  wp (create_circular_dependency ref apps)
     (fun _ w' => exists ps, new_problems (self w) (self w') ps
        /\ exists p, In p ps /\ starts_with "Circular dependency between " p = true) w.
Proof.
  intros H3. unfold create_circular_dependency. unfold len in H3.
  apply wp_bind, wp_sample; [lia|]. intros l k1 [Hlen _].
  destruct l as [|a [|b [|c [|? ?]]]]; try discriminate Hlen.
  apply wp_bind. eapply wp_index; [reflexivity|].
  apply wp_bind. eapply wp_index; [reflexivity|].
  apply wp_bind. eapply wp_index; [reflexivity|].
  apply wp_bind. eapply wp_mono; [apply relate_keeps_problems|]. intros u1 w1 H1.
  apply wp_bind. eapply wp_mono; [apply relate_keeps_problems|]. intros u2 w2 H2.
  apply wp_bind. eapply wp_mono; [apply relate_keeps_problems|]. intros u3 w3 H4.
  apply wp_modify_self. simpl.
  eexists. split; [unfold new_problems; simpl; rewrite H4, H2, H1; reflexivity|].
  eexists. split; [left; reflexivity | reflexivity].
Qed.

(** The hub database is recorded whatever the ratio. *)
Lemma hub_always_recorded w :
  in_group GApp (components (self w)) <> [] ->
  in_group GDb (components (self w)) <> [] ->
  wp (generate_relationships ref cfg)
     (fun _ w' => exists ps, new_problems (self w) (self w') ps
        /\ exists p, In p ps /\ starts_with "Hub database with " p = true) w.
Proof.
  intros Happs Hdbs. unfold generate_relationships. apply wp_bind, wp_get_self.
  assert (nonempty (in_group GDb (components (self w)))
          && nonempty (in_group GApp (components (self w))) = true) as E.
  { destruct (in_group GDb (components (self w))); [congruence|].
    destruct (in_group GApp (components (self w))); [congruence | reflexivity]. }
  rewrite E.
  apply records_before; [apply hub_records; exact Hdbs|].
  intros w1. rest_of_steps.
Qed.

(** The circular dependency is recorded whenever the ratio is 1 or more and
    there are three applications. *)
Lemma circular_recorded_at_one w :
  (1 <= problem_ratio cfg)%Q ->
  3 <= len (in_group GApp (components (self w))) ->
  wp (generate_relationships ref cfg)
     (fun _ w' => exists ps, new_problems (self w) (self w') ps
        /\ exists p, In p ps /\ starts_with "Circular dependency between " p = true) w.
Proof.
  intros Hr H3. unfold generate_relationships. apply wp_bind, wp_get_self.
  eapply records_after; [apply hub_step_does|]. intros w1.
  eapply records_after; [apply failover_step_does|]. intros w2.
  eapply records_after; [apply cache_step_does|]. intros w3.
  eapply records_after; [apply mq_step_does|]. intros w4.
  eapply records_after; [apply lb_step_does|]. intros w5.
  apply records_before; [|intros w6; apply related_orphans_ex].
  destruct (Z.leb_spec 3 (len (in_group GApp (components (self w))))) as [_|Hlt]; [|lia].
  apply wp_bind, wp_random. intros q k Hq0 Hq1.
  rewrite Qlt_Qltb by (eapply Qlt_le_trans; eassumption).
  eapply wp_mono; [apply circular_records; exact H3|].
  intros u w6 H. exact H.
Qed.

Lemma new_problems_unique g g' ps qs :
  new_problems g g' ps -> new_problems g g' qs -> ps = qs.
Proof.
  unfold new_problems. intros H1 H2. rewrite H1 in H2.
  apply app_inv_head in H2. exact H2.
Qed.

Lemma orphans_marked_length g1 g' :
  orphans_marked g1 g' -> length (orphans_of g') = length (orphans_of g1).
Proof.
  intros [R C _ _ _]. unfold orphans_of. rewrite C.
  assert (forall c, is_orphan g' (if is_orphan g1 c then mark_orphaned c else c)
                    = is_orphan g1 c) as Hsame.
  { intros c. destruct (is_orphan g1 c) eqn:E; unfold is_orphan in *; rewrite R; exact E. }
  clear C. induction (components g1) as [|c l IHl]; simpl; [reflexivity|].
  rewrite Hsame. destruct (is_orphan g1 c); simpl; rewrite IHl; reflexivity.
Qed.

(** The text of the orphan problem. *)
Lemma orphans_recorded w :
  wp (generate_relationships ref cfg)
     (fun _ w' => exists ps, new_problems (self w) (self w') ps
        /\ Forall (gated cfg) ps
        /\ (orphans_of (self w') <> [] ->
            In (String.append (str_int (len (orphans_of (self w'))))
                  " orphaned components wasting resources") ps)) w.
Proof.
  eapply wp_mono; [apply generate_relationships_spec|].
  intros u w' Hr. destruct (related_new_problems _ _ _ Hr) as (ps & P & G).
  exists ps. split; [exact P|]. split; [exact G|].
  intros Ho. destruct Hr as (g1 & Hg & Hm).
  destruct (grows_new_problems _ _ _ Hg) as (ps1 & P1 & _).
  pose proof (orphans_marked_length _ _ Hm) as Hlen.
  destruct Hm as [_ _ _ _ P3].
  assert (new_problems (self w) (self w')
            (ps1 ++ match orphans_of g1 with
                    | [] => []
                    | _ :: _ => [String.append (str_int (len (orphans_of g1)))
                                   " orphaned components wasting resources"]
                    end)) as P'
    by (eapply new_problems_trans; [exact P1 | exact P3]).
  rewrite (new_problems_unique _ _ _ _ P P').
  apply in_or_app. right. unfold len. rewrite Hlen.
  destruct (orphans_of g1) as [|o os]; [|left; reflexivity].
  destruct (orphans_of (self w')); [congruence | discriminate Hlen].
Qed.

(** A loop whose bodies only append problems only appends problems. *)
Lemma for_each_appends {A} (l : list A) (body : A -> M unit) w :
  (forall y w1, wp (body y)
     (fun _ w' => exists ps, new_problems (self w1) (self w') ps) w1) ->
  wp (for_each l body) (fun _ w' => exists ps, new_problems (self w) (self w') ps) w.
Proof.
  intros Hbody. revert w. induction l as [|y l IHl]; intros w; simpl.
  - apply wp_ret. exists []. apply new_problems_refl.
  - apply wp_bind. eapply wp_mono; [apply Hbody|].
    intros u w1 (ps1 & P1). eapply wp_mono; [apply IHl|].
    intros u' w2 (ps2 & P2). exists (ps1 ++ ps2).
    eapply new_problems_trans; eassumption.
Qed.

(** A loop with a body that records [p] records [p]. *)
Lemma for_each_records {A} (l : list A) (body : A -> M unit) x (p : string) w :
  In x l ->
  (forall y w1, wp (body y)
     (fun _ w' => exists ps, new_problems (self w1) (self w') ps) w1) ->
  (forall w1, wp (body x)
     (fun _ w' => exists ps, new_problems (self w1) (self w') ps /\ In p ps) w1) ->
  wp (for_each l body)
     (fun _ w' => exists ps, new_problems (self w) (self w') ps /\ In p ps) w.
Proof.
  intros Hx Hbody Hrec. revert w. induction l as [|y l IHl]; intros w; [destruct Hx|].
  simpl. apply wp_bind. destruct Hx as [->|Hx].
  - eapply wp_mono; [apply Hrec|]. intros u w1 (ps1 & P1 & Hp).
    eapply wp_mono; [apply for_each_appends, Hbody|].
    intros u' w2 (ps2 & P2). exists (ps1 ++ ps2).
    split; [eapply new_problems_trans; eassumption | apply in_or_app; auto].
  - eapply wp_mono; [apply Hbody|]. intros u w1 (ps1 & P1).
    eapply wp_mono; [apply (IHl Hx)|].
    intros u' w2 (ps2 & P2 & Hp). exists (ps1 ++ ps2).
    split; [eapply new_problems_trans; eassumption | apply in_or_app; auto].
Qed.

Lemma relate_appends a b ty desc w :
  wp (relate ref a b ty desc)
     (fun _ w' => exists ps, new_problems (self w) (self w') ps) w.
Proof.
  eapply wp_mono; [apply relate_keeps_problems|].
  intros u w' H. exists []. unfold new_problems. rewrite app_nil_r. exact H.
Qed.

(** The body of the loop of [create_failover_patterns]. *)
Lemma failover_body_appends (group : string * list component) w :
  wp ((fun '(db_num, members) =>
         if 2 <=? len members then
           let primary := List.find (fun d => str_in "pri" (fqdn_or_empty d)) members in
           let secondary := List.find (fun d => str_in "sec" (fqdn_or_empty d)) members in
           match primary, secondary with
           | Some primary, Some secondary =>
               let same_location :=
                 physical_location_id primary =? physical_location_id secondary in
               if same_location then
                 _ ← relate ref (component_id primary) (component_id secondary)
                       "fails_over_to"
                       "ISSUE: Same-DC failover - no real disaster recovery!";
                 add_problem (String.append "Same-DC failover: " (short_name_of primary))
               else
                 _ ← relate ref (component_id primary) (component_id secondary)
                       "fails_over_to"
                       "GOOD: Cross-DC failover for proper disaster recovery";
                 add_good_pattern
                   (String.append "Cross-DC failover: " (short_name_of primary))
           | _, _ => mret tt
           end
         else mret tt) group)
     (fun _ w' => exists ps, new_problems (self w) (self w') ps) w.
Proof.
  destruct group as [db_num members].
  destruct (2 <=? len members); [|apply wp_ret; exists []; apply new_problems_refl].
  cbv zeta.
  destruct (List.find _ members) as [primary|];
    [|apply wp_ret; exists []; apply new_problems_refl].
  destruct (List.find _ members) as [secondary|];
    [|apply wp_ret; exists []; apply new_problems_refl].
  destruct (physical_location_id primary =? physical_location_id secondary).
  - apply wp_bind. eapply wp_mono; [apply relate_keeps_problems|].
    intros u w1 H1. apply wp_modify_self. simpl.
    eexists. unfold new_problems; simpl. rewrite H1. reflexivity.
  - apply wp_bind. eapply wp_mono; [apply relate_keeps_problems|].
    intros u w1 H1. apply wp_modify_self. simpl.
    exists []. unfold new_problems; simpl. rewrite H1, app_nil_r. reflexivity.
Qed.

Lemma failover_records dbs db_num members primary secondary w :
  In (db_num, members) (group_by_number dbs) ->
  2 <= len members ->
  List.find (fun d => str_in "pri" (fqdn_or_empty d)) members = Some primary ->
  List.find (fun d => str_in "sec" (fqdn_or_empty d)) members = Some secondary ->
  physical_location_id primary = physical_location_id secondary ->
  wp (create_failover_patterns ref dbs)
     (fun _ w' => exists ps, new_problems (self w) (self w') ps
        /\ In (String.append "Same-DC failover: " (short_name_of primary)) ps) w.
Proof.
  intros Hin Hlen Hp Hs Hloc. unfold create_failover_patterns.
  eapply for_each_records; [exact Hin | intros y w1; apply failover_body_appends|].
  intros w1. cbv beta iota.
  destruct (Z.leb_spec 2 (len members)) as [_|Hlt]; [|lia].
  cbv zeta. rewrite Hp, Hs, Hloc, Z.eqb_refl.
  apply wp_bind. eapply wp_mono; [apply relate_keeps_problems|].
  intros u w2 H2. apply wp_modify_self. simpl.
  eexists. split; [unfold new_problems; simpl; rewrite H2; reflexivity|].
  left. reflexivity.
Qed.

(** The members of a group are among the databases. *)
Lemma group_append_members k db (acc : odict (list component)) :
  length (concat (map snd (group_append k db acc)))
  = S (length (concat (map snd acc))).
Proof.
  induction acc as [|[k' members] acc IHa]; simpl; [reflexivity|].
  destruct (String.eqb k' k); simpl.
  - rewrite !length_app. simpl. lia.
  - rewrite !length_app, IHa. lia.
Qed.

Lemma group_by_number_members dbs :
  (length (concat (map snd (group_by_number dbs))) <= length dbs)%nat.
Proof.
  unfold group_by_number.
  enough (forall acc : odict (list component),
    (length (concat (map snd (foldl (fun db_pairs db =>
           let fqdn := fqdn_or_empty db in
           if String.eqb fqdn "" then db_pairs
           else match search_db_digits fqdn with
                | Some db_num => group_append db_num db db_pairs
                | None => db_pairs
                end) acc dbs))) <= length (concat (map snd acc)) + length dbs)%nat) as H
    by apply (H []).
  induction dbs as [|db dbs IHd]; intros acc; simpl; [lia|].
  etransitivity; [apply IHd|].
  destruct (String.eqb (fqdn_or_empty db) ""); [lia|].
  destruct (search_db_digits (fqdn_or_empty db)); [|lia].
  rewrite group_append_members. lia.
Qed.

Lemma group_member_length (groups : odict (list component)) k members :
  In (k, members) groups ->
  (length members <= length (concat (map snd groups)))%nat.
Proof.
  induction groups as [|[k' ms] groups IHg]; simpl; [tauto|].
  rewrite length_app. intros [H|H]; [injection H as -> ->; lia|].
  apply IHg in H. lia.
Qed.

(** One location for a whole list. *)
Lemma one_location (l : list component) (first : component) :
  In first l ->
  (forall a b, In a l -> In b l -> physical_location_id a = physical_location_id b) ->
  size (list_to_set (map physical_location_id l) : gset Z) = 1%nat.
Proof.
  intros Hf Hall.
  assert ((list_to_set (map physical_location_id l) : gset Z)
          = {[ physical_location_id first ]}) as ->; [|apply size_singleton].
  apply set_eq. intros x. rewrite elem_of_list_to_set, elem_of_singleton. split.
  - intros Hx. apply list_elem_of_In, in_map_iff in Hx as (a & <- & Ha). auto.
  - intros ->. apply list_elem_of_In, in_map. exact Hf.
Qed.

Lemma mq_loop_keeps_problems apps (mqs : list component) w :
  wp (for_each mqs (fun mq =>
        num_publishers ← randint 1 3;
        publishers ← sample apps (Z.min num_publishers (len apps));
        _ ← for_each publishers (fun pub =>
              relate ref (component_id pub) (component_id mq) "publishes_to"
                "Publishing events to message queue");
        num_subscribers ← randint 2 5;
        subscribers ← sample apps (Z.min num_subscribers (len apps));
        for_each subscribers (fun sub =>
              relate ref (component_id sub) (component_id mq) "subscribes_to"
                "Subscribing to events from message queue")))
     (fun _ w' => problems_created (self w') = problems_created (self w)) w.
Proof.
  apply relates_keep_problems. intros mq w1.
  apply wp_bind, wp_randint; [lia|]. intros n1 k1 Hn1.
  apply wp_bind, wp_sample; [unfold len; lia|]. intros pubs k2 _.
  apply wp_bind. eapply wp_mono.
  { apply relates_keep_problems. intros pub w2. apply relate_keeps_problems. }
  intros u w2 H2. simpl in H2.
  apply wp_bind, wp_randint; [lia|]. intros n2 k3 Hn2.
  apply wp_bind, wp_sample; [unfold len; lia|]. intros subs k4 _.
  eapply wp_mono.
  { apply relates_keep_problems. intros sub w3. apply relate_keeps_problems. }
  intros u' w3 H3. simpl in H3. congruence.
Qed.

Lemma kafka_records apps mqs w :
  2 <= len (List.filter (fun m => str_in "kafka" (fqdn_or_empty m)) mqs) ->
  (forall a b,
     In a (List.filter (fun m => str_in "kafka" (fqdn_or_empty m)) mqs) ->
     In b (List.filter (fun m => str_in "kafka" (fqdn_or_empty m)) mqs) ->
     physical_location_id a = physical_location_id b) ->
  wp (create_mq_patterns ref apps mqs)
     (fun _ w' => exists ps, new_problems (self w) (self w') ps
        /\ In "Kafka cluster with no geographic distribution" ps) w.
Proof.
  intros H2 Hall. unfold create_mq_patterns.
  apply wp_bind. eapply wp_mono; [apply mq_loop_keeps_problems|].
  intros u w1 H1. cbv zeta.
  destruct (Z.leb_spec 2 (len (List.filter (fun m => str_in "kafka" (fqdn_or_empty m)) mqs)))
    as [_|Hlt]; [|lia].
  destruct (List.filter (fun m => str_in "kafka" (fqdn_or_empty m)) mqs)
    as [|k0 kafka] eqn:Ek; [unfold len in H2; simpl in H2; lia|].
  apply wp_bind. eapply wp_index; [reflexivity|].
  rewrite (one_location (k0 :: kafka) k0) by (simpl; auto). simpl Z.eqb. cbv iota.
  apply wp_bind. eapply wp_mono.
  { apply relates_keep_problems. intros replica w2. apply relate_keeps_problems. }
  intros u' w2 H3. apply wp_modify_self. simpl.
  eexists. split; [unfold new_problems; simpl; rewrite H3, H1; reflexivity|].
  left. reflexivity.
Qed.

(** The problems that depend on the locations only, in a relationship
    step. *)
Lemma kafka_recorded w :
  in_group GApp (components (self w)) <> [] ->
  single_dc_kafka (self w) ->
  wp (generate_relationships ref cfg)
     (fun _ w' => exists ps, new_problems (self w) (self w') ps
        /\ exists p, In p ps /\ p = "Kafka cluster with no geographic distribution") w.
Proof.
  intros Happs [H2 Hall]. unfold generate_relationships. apply wp_bind, wp_get_self.
  eapply records_after; [apply hub_step_does|]. intros w1.
  eapply records_after; [apply failover_step_does|]. intros w2.
  eapply records_after; [apply cache_step_does|]. intros w3.
  apply records_before.
  - assert (nonempty (in_group GApp (components (self w)))
            && nonempty (in_group GMq (components (self w))) = true) as E.
    { destruct (in_group GApp (components (self w))); [congruence|].
      unfold kafka_nodes_of in H2.
      destruct (in_group GMq (components (self w))); [|reflexivity].
      unfold len in H2; simpl in H2; lia. }
    rewrite E. eapply wp_mono; [apply kafka_records; assumption|].
    intros u w4 (ps & P & Hp). exists ps. split; [exact P|]. eauto.
  - intros w4.
    repeat (eapply related_step_ex;
            [ first [ apply lb_step_does | apply circular_step_does ] | intros ? ]).
    apply related_orphans_ex.
Qed.

Lemma failover_recorded primary w :
  same_dc_pair (self w) primary ->
  wp (generate_relationships ref cfg)
     (fun _ w' => exists ps, new_problems (self w) (self w') ps
        /\ exists p, In p ps
             /\ p = String.append "Same-DC failover: " (short_name_of primary)) w.
Proof.
  intros (db_num & members & secondary & Hin & Hlen & Hp & Hs & Hloc).
  unfold generate_relationships. apply wp_bind, wp_get_self.
  eapply records_after; [apply hub_step_does|]. intros w1.
  apply records_before.
  - pose proof (group_member_length _ _ _ Hin) as L1.
    pose proof (group_by_number_members (in_group GDb (components (self w)))) as L2.
    destruct (Z.leb_spec 2 (len (in_group GDb (components (self w))))) as [_|Hlt];
      [|unfold len in *; lia].
    eapply wp_mono; [eapply failover_records; eassumption|].
    intros u w2 (ps & P & Hq). exists ps. split; [exact P|]. eauto.
  - intros w2.
    repeat (eapply related_step_ex;
            [ first [ apply cache_step_does | apply mq_step_does
                    | apply lb_step_does | apply circular_step_does ] | intros ? ]).
    apply related_orphans_ex.
Qed.

(** One run, one result. *)
Lemma wp_result {A} (m : M A) (Q : A -> world -> Prop) w a w' :
  m w = Some (a, w') -> wp m Q w -> Q a w'.
Proof. intros E (a2 & w2 & E2 & H). rewrite E in E2. injection E2 as <- <-. exact H. Qed.

End ProblemFacts.

Section ProblemClaim.
Import PyStr Generator GeneratorSpec.

Lemma gated_at_zero cfg p :
  (problem_ratio cfg <= 0)%Q -> gated cfg p -> gated_kind p = false.
Proof.
  intros Hr Hg. destruct (gated_kind p) eqn:E; [|reflexivity].
  exfalso. apply (Qlt_irrefl 0). eapply Qlt_le_trans; [apply Hg, E | exact Hr].
Qed.

(** C1, as the code behaves.  The relationship step always ends.  Of the
    problems it records, only two kinds wait for a draw below
    [problem_ratio]: no cross-DC cache and no circular dependency is recorded
    when the ratio is 0 or less, and a circular dependency is recorded when
    the ratio is 1 or more and three applications exist.  The other kinds are
    recorded from the components alone, whatever the ratio, 0 included: the
    hub database whenever an application and a database exist; the Kafka
    cluster without geographic distribution whenever an application exists
    and the Kafka nodes, two or more, are in one location; the same-DC
    failover of every primary whose group of two databases or more has its
    secondary in the same location; the orphan count whenever a component is
    left without a relationship. *)
Theorem problem_ratio_gates_cache_and_cycle (ref : refdata) (cfg : config) (w : world) :
  wp (generate_relationships ref cfg)
     (fun _ w' =>
        exists ps,
          new_problems (self w) (self w') ps
          /\ ((problem_ratio cfg <= 0)%Q -> Forall (fun p => gated_kind p = false) ps)
          /\ ((1 <= problem_ratio cfg)%Q ->
              3 <= len (in_group GApp (components (self w))) ->
              exists p, In p ps /\ starts_with "Circular dependency between " p = true)
          /\ (in_group GApp (components (self w)) <> [] ->
              in_group GDb (components (self w)) <> [] ->
              exists p, In p ps /\ starts_with "Hub database with " p = true)
          /\ (in_group GApp (components (self w)) <> [] ->
              single_dc_kafka (self w) ->
              In "Kafka cluster with no geographic distribution" ps)
          /\ (forall primary,
                same_dc_pair (self w) primary ->
                In (String.append "Same-DC failover: " (short_name_of primary)) ps)
          /\ (orphans_of (self w') <> [] ->
              In (String.append (str_int (len (orphans_of (self w'))))
                    " orphaned components wasting resources") ps)) w.
Proof.
  destruct (orphans_recorded ref cfg w) as (u & w' & E & ps & P & G & Ho).
  exists u, w'. split; [exact E|]. exists ps.
  split; [exact P|].
  split; [intros Hr; eapply Forall_impl; [exact G|]; intros p; apply gated_at_zero, Hr|].
  split.
  { intros Hr H3.
    destruct (wp_result _ _ _ _ _ E (circular_recorded_at_one ref cfg w Hr H3))
      as (ps' & P' & Hp).
    rewrite (new_problems_unique _ _ _ _ P P'). exact Hp. }
  split.
  { intros Ha Hd.
    destruct (wp_result _ _ _ _ _ E (hub_always_recorded ref cfg w Ha Hd))
      as (ps' & P' & Hp).
    rewrite (new_problems_unique _ _ _ _ P P'). exact Hp. }
  split.
  { intros Ha Hk.
    destruct (wp_result _ _ _ _ _ E (kafka_recorded ref cfg w Ha Hk))
      as (ps' & P' & p & Hp & ->).
    rewrite (new_problems_unique _ _ _ _ P P'). exact Hp. }
  split; [|exact Ho].
  intros primary Hpair.
  destruct (wp_result _ _ _ _ _ E (failover_recorded ref cfg primary w Hpair))
    as (ps' & P' & p & Hp & ->).
  rewrite (new_problems_unique _ _ _ _ P P'). exact Hp.
Qed.

(** The worlds of the witness: the small run after its components, and two
    paired databases. *)
Lemma built_small_kafka :
  in_group GApp (components (self (built_world demo_ref (demo_cfg ScaleSmall 0) [] [])))
    <> []
  /\ in_group GDb (components (self (built_world demo_ref (demo_cfg ScaleSmall 0) [] [])))
       <> []
  /\ single_dc_kafka (self (built_world demo_ref (demo_cfg ScaleSmall 0) [] [])).
Proof.
  split; [intros H; vm_compute in H; discriminate H|].
  split; [intros H; vm_compute in H; discriminate H|].
  split; [vm_compute; discriminate|].
  assert (forallb (fun a => physical_location_id a =? 1)
            (kafka_nodes_of (self (built_world demo_ref (demo_cfg ScaleSmall 0) [] [])))
          = true) as Hall by (vm_compute; reflexivity).
  rewrite forallb_forall in Hall. intros a b Ha Hb.
  apply Hall in Ha, Hb. apply Z.eqb_eq in Ha, Hb. congruence.
Qed.

Lemma paired_same_dc :
  same_dc_pair paired_generator (sample_db 1 "db01pri.prod.dc01.regions.com" 1).
Proof.
  exists "01", (components paired_generator),
         (sample_db 2 "db01sec.prod.dc01.regions.com" 1).
  split; [vm_compute; left; reflexivity|].
  split; [vm_compute; discriminate|].
  split; [reflexivity|]. split; reflexivity.
Qed.

Lemma problem_ratio_gates_cache_and_cycle_witness :
  wp (generate_relationships demo_ref (demo_cfg ScaleSmall 0))
     (fun _ w' =>
        exists ps,
          new_problems
            (self (built_world demo_ref (demo_cfg ScaleSmall 0) [] [])) (self w') ps
          /\ Forall (fun p => gated_kind p = false) ps
          /\ (exists p, In p ps /\ starts_with "Hub database with " p = true)
          /\ In "Kafka cluster with no geographic distribution" ps)
     (built_world demo_ref (demo_cfg ScaleSmall 0) [] [])
  /\ wp (generate_relationships demo_ref (demo_cfg ScaleSmall 0))
       (fun _ w' =>
          exists ps,
            new_problems paired_generator (self w') ps
            /\ In "Same-DC failover: db01pri.dc01" ps)
       {| self := paired_generator; rand := []; clock := [] |}.
Proof.
  destruct built_small_kafka as (Ha & Hd & Hk). split.
  - eapply wp_mono;
      [apply (problem_ratio_gates_cache_and_cycle demo_ref (demo_cfg ScaleSmall 0)
                (built_world demo_ref (demo_cfg ScaleSmall 0) [] []))|].
    intros u w' (ps & P & Hz & _ & Hh & Hkafka & _). exists ps. split; [exact P|].
    split; [apply Hz; unfold Qle; simpl; lia|].
    split; [apply Hh; assumption | apply Hkafka; assumption].
  - eapply wp_mono;
      [apply (problem_ratio_gates_cache_and_cycle demo_ref (demo_cfg ScaleSmall 0)
                {| self := paired_generator; rand := []; clock := [] |})|].
    intros u w' (ps & P & _ & _ & _ & _ & Hf & _). exists ps. split; [exact P|].
    apply (Hf _ paired_same_dc).
Defined.

(** C1 as stated fails: with [problem_ratio] 0 the run records the hub
    database, the single-DC Kafka cluster and the orphans, and it records the
    same hub database with [problem_ratio] 1.  In the run every group of
    databases with one number has one member (the names are db01pri, db02sec,
    db03pri, ...): no failover is recorded, same-DC or not. *)
Lemma hub_recorded_at_ratio_zero :
  option_map problems_created (run demo_ref (demo_cfg ScaleSmall 0) [] [])
  = Some [ "Hub database with 8 dependent applications";
           "Kafka cluster with no geographic distribution";
           "31 orphaned components wasting resources" ]
  /\ option_map (fun g => hd "" (problems_created g))
       (run demo_ref (demo_cfg ScaleSmall 1) [] [])
     = Some "Hub database with 8 dependent applications"
  /\ option_map
       (fun g => map (fun group => (fst group, length (snd group)))
                   (group_by_number (in_group GDb (components g))))
       (run demo_ref (demo_cfg ScaleSmall 1) [] [])
     = Some [ ("01", 1%nat); ("02", 1%nat); ("03", 1%nat);
              ("04", 1%nat); ("05", 1%nat); ("06", 1%nat) ].
Proof. split; [|split]; vm_compute; reflexivity. Qed.

End ProblemClaim.

(* ===================================================================== *)
(** * The generator: the circular dependency *)
(* ===================================================================== *)

Section CircularClaim.
Import PyStr Generator GeneratorSpec.

(** A call of [create_relationship] on a known type and two keys of the
    component map. *)
Lemma relate_stores ref a b ty desc w :
  has_key ty (relationship_types ref) = true ->
  is_Some (component_map (self w) !! a) ->
  is_Some (component_map (self w) !! b) ->
  wp (relate ref a b ty desc)
     (fun _ w' => exists r,
        self w' = push_relationship (self w) r
        /\ rel_component_id r = a
        /\ related_component_id r = b
        /\ relationship_types ref !! ty = Some (relationship_type_id r)) w.
Proof.
  intros Hty Ha Hb. unfold relate. apply wp_bind.
  eapply wp_mono; [apply create_relationship_spec|].
  intros [r|] w' [_ H]; apply wp_ret.
  - destruct H as (Hs & H1 & H2 & H3 & _). exists r. auto.
  - exfalso. destruct H as [_ [H|[H|H]]].
    + congruence.
    + rewrite H in Ha. destruct Ha as [? Ha]. discriminate.
    + rewrite H in Hb. destruct Hb as [? Hb]. discriminate.
Qed.

Lemma NoDup_in_group k (l : list component) :
  NoDup (map component_id l) -> NoDup (map component_id (in_group k l)).
Proof.
  unfold in_group. induction l as [|c l IHl]; simpl; [auto|].
  intros H. apply NoDup_cons in H as [Hc Hl].
  destruct (bool_decide (group_of c = k)); simpl; [|auto].
  apply NoDup_cons. split; [|auto].
  intros Hin. apply Hc. apply list_elem_of_In, in_map_iff in Hin as (c' & E & Hc').
  apply filter_In in Hc' as [Hc' _].
  apply list_elem_of_In, in_map_iff. exists c'. auto.
Qed.

(** C7.  Called on three or more applications with distinct ids that are
    keys of the component map, with the type [consumes_api_from] in the
    reference data, [create_circular_dependency] appends three relationships
    of that type: from a first application to a second, from the second to a
    third, and from the third to the first, the three with different ids.
    The applications that [generate_relationships] passes to it in a run are
    such a list. *)
Theorem circular_dependency_is_a_three_cycle (ref : refdata) (cfg : config) :
  (forall apps w,
     has_key "consumes_api_from" (relationship_types ref) = true ->
     3 <= len apps ->
     NoDup (map component_id apps) ->
     (forall a, In a apps -> is_Some (component_map (self w) !! component_id a)) ->
     wp (create_circular_dependency ref apps)
        (fun _ w' =>
           exists app1 app2 app3 r1 r2 r3,
             relationships (self w') = relationships (self w) ++ [r1; r2; r3]
             /\ In app1 apps /\ In app2 apps /\ In app3 apps
             /\ component_id app1 <> component_id app2
             /\ component_id app2 <> component_id app3
             /\ component_id app3 <> component_id app1
             /\ from_to r1 app1 app2 /\ from_to r2 app2 app3 /\ from_to r3 app3 app1
             /\ Forall (fun r => relationship_types ref !! "consumes_api_from"
                                = Some (relationship_type_id r)) [r1; r2; r3]) w)
  /\ (forall seed times n g,
       grows ref cfg n (self (built_world ref cfg seed times)) g ->
       NoDup (map component_id (in_group GApp (components g)))
       /\ forall a, In a (in_group GApp (components g)) ->
                    is_Some (component_map g !! component_id a)).
Proof.
  split.
  - intros apps w Hty H3 Hnd Hmap. unfold create_circular_dependency. unfold len in H3.
    apply wp_bind, wp_sample; [lia|]. intros l k Hl.
    pose proof (sampled_NoDup component_id _ _ _ Hl Hnd) as Hnd'.
    assert (forall x, In x l -> In x apps) as Hin by (intros x; apply (sampled_In _ _ _ _ Hl)).
    destruct Hl as [Hlen _].
    destruct l as [|a [|b [|c [|? ?]]]]; try discriminate Hlen.
    simpl in Hnd'. apply NoDup_cons in Hnd' as [Ha Hnd'].
    apply NoDup_cons in Hnd' as [Hb _].
    assert (component_id a <> component_id b /\ component_id a <> component_id c
            /\ component_id b <> component_id c) as (Hab & Hac & Hbc).
    { repeat split; intros E; first [apply Ha | apply Hb]; rewrite E; set_solver. }
    apply wp_bind. eapply wp_index; [reflexivity|].
    apply wp_bind. eapply wp_index; [reflexivity|].
    apply wp_bind. eapply wp_index; [reflexivity|].
    assert (In a apps /\ In b apps /\ In c apps) as (Ia & Ib & Ic)
      by (repeat split; apply Hin; simpl; auto).
    apply wp_bind. eapply wp_mono; [apply relate_stores; simpl; auto|].
    intros u1 w1 (r1 & S1 & A1 & B1 & T1).
    apply wp_bind. eapply wp_mono;
      [apply relate_stores; [exact Hty | rewrite S1; simpl; auto ..]|].
    intros u2 w2 (r2 & S2 & A2 & B2 & T2).
    apply wp_bind. eapply wp_mono;
      [apply relate_stores; [exact Hty | rewrite S2, S1; simpl; auto ..]|].
    intros u3 w3 (r3 & S3 & A3 & B3 & T3).
    apply wp_modify_self. simpl.
    exists a, b, c, r1, r2, r3. rewrite S3, S2, S1. simpl.
    rewrite <- !app_assoc. simpl.
    split; [reflexivity|]. unfold from_to.
    repeat split; auto. 
  - intros seed times n g Hg.
    assert (linked (self (built_world ref cfg seed times))) as Hlinked.
    { unfold built_world.
      destruct (physical_locations ref) as [|l ls] eqn:E.
      - rewrite generate_components_no_location by exact E. apply linked_init.
      - destruct (generate_components_makes ref cfg) with (w := init_world seed times)
          as ([] & w' & Ew & _ & Hb); [rewrite E; discriminate|].
        rewrite Ew. apply Hb, linked_init. }
    destruct Hg as [C M _ _ _]. destruct Hlinked as (Hnd & Hin & _).
    rewrite C, M. split; [apply NoDup_in_group, Hnd|].
    intros a Ha. apply filter_In in Ha as [Ha _]. apply Hin, Ha.
Qed.

Lemma circular_dependency_is_a_three_cycle_witness :
  wp (create_circular_dependency demo_ref
        (in_group GApp
           (components (self (built_world demo_ref (demo_cfg ScaleSmall 1) [] [])))))
     (fun _ w' =>
        exists app1 app2 app3 r1 r2 r3,
          relationships (self w') = [r1; r2; r3]
          /\ component_id app1 <> component_id app2
          /\ component_id app2 <> component_id app3
          /\ component_id app3 <> component_id app1
          /\ from_to r1 app1 app2 /\ from_to r2 app2 app3 /\ from_to r3 app3 app1)
     (built_world demo_ref (demo_cfg ScaleSmall 1) [] []).
Proof.
  eapply wp_mono.
  - apply (proj1 (circular_dependency_is_a_three_cycle demo_ref (demo_cfg ScaleSmall 1))).
    + reflexivity.
    + vm_compute. discriminate.
    + apply (proj2 (circular_dependency_is_a_three_cycle demo_ref (demo_cfg ScaleSmall 1))
               [] [] 0%nat). apply grows_refl.
    + apply (proj2 (circular_dependency_is_a_three_cycle demo_ref (demo_cfg ScaleSmall 1))
               [] [] 0%nat). apply grows_refl.
  - intros u w' (a & b & c & r1 & r2 & r3 & R & _ & _ & _ & H1 & H2 & H3 & F1 & F2 & F3 & _).
    exists a, b, c, r1, r2, r3. auto 10.
Defined.

End CircularClaim.
(* ===================================================================== *)
(** * The generator: the clock reaches the timestamps only *)
(* ===================================================================== *)

Section ErasureCalculus.
Import PyStr Generator GeneratorSpec.

Lemma commutes_ret {A} `{Erase A} (a : A) : commutes (mret a) (mret (erase a)).
Proof. intros w. reflexivity. Qed.

Lemma commutes_same {A} `{Erase A} (a : A) : erase a = a -> commutes (mret a) (mret a).
Proof. intros E w. simpl. rewrite E. reflexivity. Qed.

(** The erasure of a value without timestamps is the value. *)
Ltac plain := cbv [erase erase_unit erase_Z erase_N erase_Q erase_string erase_discovered].

Lemma commutes_bind {A B} `{Erase A} `{Erase B} (m m' : M A) (f f' : A -> M B) :
  commutes m m' ->
  (forall a, commutes (f a) (f' (erase a))) ->
  commutes (m ≫= f) (m' ≫= f').
Proof.
  intros Hm Hf w. unfold mbind, M_bind. rewrite Hm.
  destruct (m w) as [[a w1]|]; simpl; [apply Hf | reflexivity].
Qed.

Lemma commutes_if {A} `{Erase A} (b : bool) (m1 m1' m2 m2' : M A) :
  commutes m1 m1' -> commutes m2 m2' ->
  commutes (if b then m1 else m2) (if b then m1' else m2').
Proof. destruct b; auto. Qed.

Lemma commutes_raise {A} `{Erase A} : commutes (@raise A) raise.
Proof. intros w. reflexivity. Qed.

Lemma commutes_get_self : commutes get_self get_self.
Proof. intros w. reflexivity. Qed.

Lemma commutes_modify_self (f f' : generator -> generator) :
  (forall g, f' (erase_generator g) = erase_generator (f g)) ->
  commutes (modify_self f) (modify_self f').
Proof.
  intros Hf w. unfold modify_self, erase_world. simpl. rewrite Hf. reflexivity.
Qed.

Lemma commutes_next_raw : commutes next_raw next_raw.
Proof. intros [g [|x r] c]; reflexivity. Qed.

(** A reading of the clock: any time in the world, 0 in the erased one. *)
Lemma commutes_now {B} `{Erase B} (f f' : Z -> M B) :
  (forall t, commutes (f t) (f' 0)) ->
  commutes (now ≫= f) (now ≫= f').
Proof.
  intros Hf [g r [|t c]]; unfold mbind, M_bind; simpl.
  - apply (Hf 0 {| self := g; rand := r; clock := [] |}).
  - apply (Hf t {| self := g; rand := r; clock := c |}).
Qed.

Lemma commutes_random : commutes random random.
Proof.
  unfold random. apply commutes_bind; [apply commutes_next_raw|].
  intros x. plain. apply commutes_same. reflexivity.
Qed.

Lemma commutes_randint a b : commutes (randint a b) (randint a b).
Proof.
  unfold randint. apply commutes_if; [apply commutes_raise|].
  apply commutes_bind; [apply commutes_next_raw|]. intros x. plain.
  apply commutes_same. reflexivity.
Qed.

Lemma commutes_index {A} `{Erase A} (o : option A) :
  commutes (index o) (index (erase o)).
Proof. destruct o; [apply commutes_ret | apply commutes_raise]. Qed.

Lemma commutes_choice {A} `{Erase A} (l : list A) :
  commutes (choice l) (choice (erase l)).
Proof.
  unfold choice. apply commutes_bind; [apply commutes_next_raw|]. intros x.
  change (erase x) with x. change (erase l) with (erase <$> l).
  rewrite length_fmap, list_lookup_fmap.
  destruct (l !! _); [apply commutes_ret | apply commutes_raise].
Qed.

Lemma commutes_sample_from {A} `{Erase A} k (pool : list A) :
  commutes (sample_from k pool) (sample_from k (erase pool)).
Proof.
  revert pool. induction k as [|k IHk]; intros pool; simpl.
  - intros w. reflexivity.
  - apply commutes_bind; [apply commutes_next_raw|]. intros x.
    change (erase x) with x. change (erase pool) with (erase <$> pool).
    rewrite length_fmap, list_lookup_fmap.
    destruct (pool !! _) as [a|]; simpl; [|apply commutes_raise].
    rewrite <- fmap_take, <- fmap_drop, <- fmap_app.
    change (erase <$> (take (position x (length pool)) pool
                       ++ drop (S (position x (length pool))) pool))
      with (erase (take (position x (length pool)) pool
                   ++ drop (S (position x (length pool))) pool)).
    apply commutes_bind; [apply IHk|]. intros rest.
    intros w. reflexivity.
Qed.

Lemma commutes_sample {A} `{Erase A} (pool : list A) k :
  commutes (sample pool k) (sample (erase pool) k).
Proof.
  unfold sample. change (erase pool) with (erase <$> pool) at 1.
  rewrite length_fmap. apply commutes_if; [apply commutes_raise | apply commutes_sample_from].
Qed.

Lemma commutes_for_each {A} `{Erase A} (l : list A) (body body' : A -> M unit) :
  (forall x, commutes (body x) (body' (erase x))) ->
  commutes (for_each l body) (for_each (erase l) body').
Proof.
  intros Hbody. induction l as [|x l IHl]; simpl.
  - intros w. reflexivity.
  - apply commutes_bind; [apply Hbody | intros _; exact IHl].
Qed.

(** A loop over values without timestamps. *)
Lemma commutes_for_each_plain {A} (l : list A) (body body' : A -> M unit) :
  (forall x, commutes (body x) (body' x)) ->
  commutes (for_each l body) (for_each l body').
Proof.
  intros Hbody. induction l as [|x l IHl]; simpl.
  - intros w. reflexivity.
  - apply commutes_bind; [apply Hbody | intros _; exact IHl].
Qed.

Lemma commutes_index_plain (o : option Z) : commutes (index o) (index o).
Proof. destruct o; intros w; reflexivity. Qed.

Lemma commutes_choice_plain (l : list string) : commutes (choice l) (choice l).
Proof.
  pose proof (commutes_choice l) as H.
  change (erase l) with (map (fun x : string => x) l) in H. rewrite map_id in H. exact H.
Qed.

(** Closing steps: a returned value, a primitive, a test. *)
Ltac commute_step :=
  first
    [ apply commutes_get_self
    | apply commutes_random
    | apply commutes_randint
    | apply commutes_choice_plain
    | apply commutes_raise
    | apply commutes_now; intros ?
    | apply commutes_if
    | apply commutes_bind; [|intros ?; plain]
    | (intros ?; reflexivity) ].

Ltac commute := repeat commute_step.

(** Lists of components and their erasure. *)
Lemma find_map {A B} (f : A -> B) (p : B -> bool) (l : list A) :
  List.find p (map f l) = option_map f (List.find (fun x => p (f x)) l).
Proof.
  induction l as [|x l IHl]; simpl; [reflexivity|].
  destruct (p (f x)); [reflexivity | exact IHl].
Qed.

Lemma filter_map_comm {A B} (f : A -> B) (p : B -> bool) (l : list A) :
  List.filter p (map f l) = map f (List.filter (fun x => p (f x)) l).
Proof.
  induction l as [|x l IHl]; simpl; [reflexivity|].
  destruct (p (f x)); simpl; rewrite IHl; reflexivity.
Qed.

Lemma len_map {A B} (f : A -> B) (l : list A) : len (map f l) = len l.
Proof. unfold len. rewrite length_map. reflexivity. Qed.

Lemma nonempty_map {A B} (f : A -> B) (l : list A) : nonempty (map f l) = nonempty l.
Proof. destruct l; reflexivity. Qed.

Lemma in_group_erase k l :
  in_group k (map erase_component l) = map erase_component (in_group k l).
Proof. unfold in_group. rewrite filter_map_comm. reflexivity. Qed.

Lemma group_append_erase k c g :
  group_append k (erase_component c) (map erase_members g)
  = map erase_members (group_append k c g).
Proof.
  induction g as [|[k' ms] g IHg]; [reflexivity|].
  cbn [group_append map erase_members fst snd].
  destruct (String.eqb k' k); cbn [map]; unfold erase_members at 2;
    cbn [fst snd]; [rewrite map_app | rewrite IHg]; reflexivity.
Qed.

Lemma group_by_number_erase dbs :
  group_by_number (map erase_component dbs)
  = map erase_members (group_by_number dbs).
Proof.
  unfold group_by_number.
  change (@nil (string * list component)) with (map erase_members []) at 1.
  generalize (@nil (string * list component)) as acc.
  induction dbs as [|d dbs IHdbs]; intros acc; simpl; [reflexivity|].
  rewrite <- IHdbs. f_equal.
  change (fqdn_or_empty (erase_component d)) with (fqdn_or_empty d).
  destruct (String.eqb (fqdn_or_empty d) ""); [reflexivity|].
  destruct (search_db_digits (fqdn_or_empty d)); [|reflexivity].
  apply group_append_erase.
Qed.

Lemma components_with_rels_of_erase rels :
  components_with_rels_of (map erase_relationship rels) = components_with_rels_of rels.
Proof.
  unfold components_with_rels_of. generalize (∅ : gset Z) as acc.
  induction rels as [|r rels IHrels]; intros acc; simpl; [reflexivity|].
  apply IHrels.
Qed.

Lemma mark_map_erase (cm : gmap Z component) (l : list component) :
  foldl (fun m comp => <[component_id comp := mark_orphaned comp]> m)
        (erase_component <$> cm) (map erase_component l)
  = erase_component <$>
      foldl (fun m comp => <[component_id comp := mark_orphaned comp]> m) cm l.
Proof.
  revert cm. induction l as [|c l IHl]; intros cm; simpl; [reflexivity|].
  rewrite <- IHl, fmap_insert. reflexivity.
Qed.

Section Methods.

Variable ref : refdata.
Variable cfg : config.

Lemma commutes_get_next_mac : commutes get_next_mac get_next_mac.
Proof.
  unfold get_next_mac. apply commutes_bind; [apply commutes_get_self|]. intros g.
  apply commutes_bind; [|intros ?; intros w; reflexivity].
  apply commutes_modify_self. intros g'. reflexivity.
Qed.

Lemma commutes_get_ip location fqdn :
  commutes (get_ip_for_location_and_type location fqdn)
           (get_ip_for_location_and_type location fqdn).
Proof. unfold get_ip_for_location_and_type. commute. Qed.

Lemma commutes_get_vlan fqdn :
  commutes (get_vlan_for_type fqdn) (get_vlan_for_type fqdn).
Proof. unfold get_vlan_for_type. commute. Qed.

Ltac erased_state :=
  unfold erase, erase_gen, erase_generator;
  cbn [components relationships component_map component_id_counter
       relationship_id_counter mac_counter problems_created
       good_patterns_created];
  rewrite ?map_app, ?fmap_insert; reflexivity.

Lemma commutes_create_component fqdn location ty desc status abstraction :
  commutes (create_component ref cfg fqdn location ty desc status abstraction)
           (create_component ref cfg fqdn location ty desc status abstraction).
Proof.
  unfold create_component.
  apply commutes_if; [intros w; reflexivity|].
  apply commutes_if; [intros w; reflexivity|].
  apply commutes_bind; [apply commutes_random|]. intros r. plain.
  apply commutes_bind.
  { apply commutes_if.
    - apply commutes_bind; [apply commutes_choice_plain|]. intros level. plain.
      apply commutes_if; [intros w; reflexivity|].
      apply commutes_bind; [apply commutes_random|]. intros r1. plain.
      apply commutes_bind; [apply commutes_random|]. intros r2. plain.
      apply commutes_bind; [apply commutes_get_self|]. intros g.
      apply commutes_bind; [apply commutes_random|]. intros r3. plain.
      apply commutes_bind; [apply commutes_random|]. intros r4. plain.
      apply commutes_bind;
        [apply commutes_if; [apply commutes_get_ip | intros w; reflexivity]|].
      intros ip_v. plain.
      apply commutes_bind; [apply commutes_random|]. intros r5. plain.
      apply commutes_bind;
        [apply commutes_if; [apply commutes_get_next_mac | intros w; reflexivity]|].
      intros mac_v. plain.
      apply commutes_bind; [apply commutes_random|]. intros r6. plain.
      apply commutes_bind;
        [apply commutes_if; [apply commutes_get_vlan | intros w; reflexivity]|].
      intros vlan_v. plain.
      apply commutes_bind; [apply commutes_random|]. intros r7. plain.
      intros w. reflexivity.
    - apply commutes_bind; [apply commutes_get_self|]. intros g.
      apply commutes_bind; [apply commutes_get_ip|]. intros ip_v. plain.
      apply commutes_bind; [apply commutes_get_next_mac|]. intros mac_v. plain.
      apply commutes_bind; [apply commutes_get_vlan|]. intros vlan_v. plain.
      intros w. reflexivity. }
  intros d. plain.
  apply commutes_bind; [apply commutes_get_self|]. intros g.
  apply commutes_bind; [apply commutes_index_plain|]. intros location_id. plain.
  apply commutes_bind; [apply commutes_index_plain|]. intros type_id. plain.
  apply commutes_now. intros t1. apply commutes_now. intros t2.
  apply commutes_bind; [|intros ?; intros w; reflexivity].
  apply commutes_modify_self. intros g'. erased_state.
Qed.

Lemma commutes_create_relationship a b ty desc :
  commutes (create_relationship ref a b ty desc) (create_relationship ref a b ty desc).
Proof.
  unfold create_relationship.
  apply commutes_if; [intros w; reflexivity|].
  apply commutes_bind; [apply commutes_get_self|]. intros g.
  change (component_map (erase g)) with (erase_component <$> component_map g).
  rewrite !lookup_fmap.
  destruct (component_map g !! a) as [c1|]; [|intros w; reflexivity].
  destruct (component_map g !! b) as [c2|]; [|intros w; reflexivity].
  cbn [fmap option_fmap option_map].
  apply commutes_bind; [apply commutes_index_plain|]. intros type_id. plain.
  apply commutes_now. intros t1. apply commutes_now. intros t2.
  apply commutes_bind; [|intros ?; intros w; reflexivity].
  apply commutes_modify_self. intros g'. erased_state.
Qed.

Lemma commutes_relate a b ty desc :
  commutes (relate ref a b ty desc) (relate ref a b ty desc).
Proof.
  unfold relate. apply commutes_bind; [apply commutes_create_relationship|].
  intros ?. intros w. reflexivity.
Qed.

Lemma commutes_add_problem text : commutes (add_problem text) (add_problem text).
Proof. apply commutes_modify_self. intros g. erased_state. Qed.

Lemma commutes_add_good_pattern text :
  commutes (add_good_pattern text) (add_good_pattern text).
Proof. apply commutes_modify_self. intros g. erased_state. Qed.

Lemma commutes_add_component fqdn location ty desc :
  commutes (add_component ref cfg fqdn location ty desc)
           (add_component ref cfg fqdn location ty desc).
Proof.
  unfold add_component. apply commutes_bind; [apply commutes_create_component|].
  intros ?. intros w. reflexivity.
Qed.

Ltac draw_choice := apply commutes_bind; [apply commutes_choice_plain | intros ?; plain].

Lemma commutes_generate_components :
  commutes (generate_components ref cfg) (generate_components ref cfg).
Proof.
  unfold generate_components.
  destruct (odict_keys (physical_locations ref)) as [|l0 ls]; [intros w; reflexivity|].
  apply commutes_bind.
  { apply commutes_for_each_plain; intros i. do 2 draw_choice.
    apply commutes_bind; [apply commutes_random | intros ?; plain].
    draw_choice.
    apply commutes_bind; [apply commutes_create_component | intros ?].
    intros w; reflexivity. }
  intros _. apply commutes_bind.
  { apply commutes_for_each_plain; intros i. draw_choice.
    apply commutes_add_component. }
  intros _. apply commutes_bind.
  { apply commutes_for_each_plain; intros i. do 2 draw_choice.
    apply commutes_add_component. }
  intros _. apply commutes_bind.
  { apply commutes_for_each_plain; intros i. do 2 draw_choice.
    apply commutes_add_component. }
  intros _. apply commutes_bind.
  { apply commutes_for_each_plain; intros i. do 2 draw_choice.
    apply commutes_add_component. }
  intros _.
  apply commutes_for_each_plain; intros i. draw_choice.
  apply commutes_add_component.
Qed.

Lemma commutes_lookup (l : list component) (i : nat) :
  commutes (index (l !! i)) (index (map erase_component l !! i)).
Proof.
  change (map erase_component l) with (erase_component <$> l).
  rewrite list_lookup_fmap. exact (commutes_index (l !! i)).
Qed.

Lemma commutes_hub apps dbs :
  commutes (create_hub_database_pattern ref cfg apps dbs)
           (create_hub_database_pattern ref cfg
              (map erase_component apps) (map erase_component dbs)).
Proof.
  unfold create_hub_database_pattern. rewrite find_map, len_map.
  apply commutes_bind; [apply commutes_lookup|]. intros first_db.
  apply commutes_bind; [apply commutes_randint|]. intros n. plain.
  apply commutes_bind; [exact (commutes_sample apps _)|]. intros selected.
  apply commutes_bind; [|intros _; apply commutes_add_problem].
  apply commutes_for_each. intros app.
  destruct (List.find _ dbs); apply commutes_relate.
Qed.

Lemma commutes_failover dbs :
  commutes (create_failover_patterns ref dbs)
           (create_failover_patterns ref (map erase_component dbs)).
Proof.
  unfold create_failover_patterns. rewrite group_by_number_erase.
  apply (commutes_for_each (group_by_number dbs)). intros [k ms].
  cbn [erase erase_pair fst snd].
  change (erase_list ms) with (map erase_component ms).
  rewrite len_map, !find_map.
  apply commutes_if; [|intros w; reflexivity].
  destruct (List.find _ ms) as [p|]; [|intros w; reflexivity].
  destruct (List.find _ ms) as [s|]; [|intros w; reflexivity].
  cbn [option_map].
  apply commutes_if.
  - apply commutes_bind; [apply commutes_relate | intros _; apply commutes_add_problem].
  - apply commutes_bind;
      [apply commutes_relate | intros _; apply commutes_add_good_pattern].
Qed.

Lemma commutes_cache apps caches :
  commutes (create_cache_patterns ref cfg apps caches)
           (create_cache_patterns ref cfg
              (map erase_component apps) (map erase_component caches)).
Proof.
  unfold create_cache_patterns. rewrite len_map.
  apply (commutes_for_each caches). intros cache.
  apply commutes_bind; [apply commutes_randint|]. intros n. plain.
  apply commutes_bind; [exact (commutes_sample apps _)|]. intros selected.
  apply commutes_for_each. intros app.
  apply commutes_if.
  - apply commutes_bind;
      [apply commutes_relate | intros _; apply commutes_add_good_pattern].
  - apply commutes_bind; [apply commutes_random|]. intros r. plain.
    apply commutes_if; [|apply commutes_relate].
    apply commutes_bind; [apply commutes_relate | intros _; apply commutes_add_problem].
Qed.

Lemma commutes_mq apps mqs :
  commutes (create_mq_patterns ref apps mqs)
           (create_mq_patterns ref (map erase_component apps) (map erase_component mqs)).
Proof.
  unfold create_mq_patterns.
  rewrite len_map, filter_map_comm, len_map, map_map, skipn_map.
  apply commutes_bind.
  { apply (commutes_for_each mqs). intros mq.
    apply commutes_bind; [apply commutes_randint|]. intros n. plain.
    apply commutes_bind; [exact (commutes_sample apps _)|]. intros publishers.
    apply commutes_bind; [apply commutes_for_each; intros pub; apply commutes_relate|].
    intros _.
    apply commutes_bind; [apply commutes_randint|]. intros n'. plain.
    apply commutes_bind; [exact (commutes_sample apps _)|]. intros subscribers.
    apply commutes_for_each; intros sub; apply commutes_relate. }
  intros _. apply commutes_if; [|intros w; reflexivity].
  apply commutes_bind; [apply commutes_lookup|]. intros primary.
  apply commutes_if.
  - apply commutes_bind; [|intros _; apply commutes_add_problem].
    apply (commutes_for_each (drop 1 _)). intros replica. apply commutes_relate.
  - apply commutes_bind; [|intros _; apply commutes_add_good_pattern].
    apply (commutes_for_each (drop 1 _)). intros replica. apply commutes_relate.
Qed.

Lemma commutes_lb apps lbs :
  commutes (create_lb_patterns ref apps lbs)
           (create_lb_patterns ref (map erase_component apps) (map erase_component lbs)).
Proof.
  unfold create_lb_patterns. rewrite len_map.
  apply (commutes_for_each lbs). intros lb.
  apply commutes_bind; [apply commutes_randint|]. intros n. plain.
  apply commutes_bind; [exact (commutes_sample apps _)|]. intros selected.
  apply commutes_for_each. intros app.
  apply commutes_if; apply commutes_relate.
Qed.

Lemma commutes_circular apps :
  commutes (create_circular_dependency ref apps)
           (create_circular_dependency ref (map erase_component apps)).
Proof.
  unfold create_circular_dependency.
  apply commutes_bind; [exact (commutes_sample apps _)|]. intros circular_apps.
  change (erase circular_apps) with (map erase_component circular_apps).
  apply commutes_bind; [apply commutes_lookup|]. intros app0.
  apply commutes_bind; [apply commutes_lookup|]. intros app1.
  apply commutes_bind; [apply commutes_lookup|]. intros app2.
  do 3 (apply commutes_bind; [apply commutes_relate | intros _]).
  apply commutes_add_problem.
Qed.

Lemma commutes_orphaned :
  commutes create_orphaned_components create_orphaned_components.
Proof.
  unfold create_orphaned_components.
  apply commutes_bind; [apply commutes_get_self|]. intros g.
  change (relationships (erase g)) with (map erase_relationship (relationships g)).
  change (components (erase g)) with (map erase_component (components g)).
  rewrite components_with_rels_of_erase, filter_map_comm.
  apply commutes_bind.
  - apply commutes_modify_self. intros g'.
    unfold erase, erase_gen, erase_generator.
    cbn [components relationships component_map component_id_counter
         relationship_id_counter mac_counter problems_created
         good_patterns_created].
    rewrite mark_map_erase, !map_map. f_equal.
    apply map_ext. intros c.
    change (component_id (erase_component c)) with (component_id c).
    destruct (negb _); reflexivity.
  - intros _.
    destruct (List.filter _ (components g)) as [|c l]; [intros w; reflexivity|].
    cbn [map]. rewrite <- map_cons, len_map. apply commutes_add_problem.
Qed.

Lemma commutes_generate_relationships :
  commutes (generate_relationships ref cfg) (generate_relationships ref cfg).
Proof.
  unfold generate_relationships.
  apply commutes_bind; [apply commutes_get_self|]. intros g.
  change (components (erase g)) with (map erase_component (components g)).
  rewrite !in_group_erase, !nonempty_map, !len_map.
  apply commutes_bind;
    [apply commutes_if; [apply commutes_hub | intros w; reflexivity] | intros _].
  apply commutes_bind;
    [apply commutes_if; [apply commutes_failover | intros w; reflexivity] | intros _].
  apply commutes_bind;
    [apply commutes_if; [apply commutes_cache | intros w; reflexivity] | intros _].
  apply commutes_bind;
    [apply commutes_if; [apply commutes_mq | intros w; reflexivity] | intros _].
  apply commutes_bind;
    [apply commutes_if; [apply commutes_lb | intros w; reflexivity] | intros _].
  apply commutes_bind; [|intros _; apply commutes_orphaned].
  apply commutes_if; [|intros w; reflexivity].
  apply commutes_bind; [apply commutes_random|]. intros r. plain.
  apply commutes_if; [apply commutes_circular | intros w; reflexivity].
Qed.

Lemma commutes_generate : commutes (generate ref cfg) (generate ref cfg).
Proof.
  unfold generate.
  apply commutes_bind; [apply commutes_generate_components | intros _].
  apply commutes_generate_relationships.
Qed.

End Methods.

End ErasureCalculus.

Section ClockClaim.
Import PyStr Generator GeneratorSpec.

Lemma erase_same_component c1 c2 :
  erase_component c1 = erase_component c2 -> same_component c1 c2.
Proof. intros H. inversion H. unfold same_component. repeat split; assumption. Qed.

Lemma erase_same_relationship r1 r2 :
  erase_relationship r1 = erase_relationship r2 -> same_relationship r1 r2.
Proof. intros H. inversion H. unfold same_relationship. repeat split; assumption. Qed.

Lemma map_eq_Forall2 {A B} (f : A -> B) (R : A -> A -> Prop) :
  (forall a b, f a = f b -> R a b) ->
  forall l1 l2, map f l1 = map f l2 -> Forall2 R l1 l2.
Proof.
  intros HR l1. induction l1 as [|a l1 IHl1]; intros [|b l2] H; simpl in H;
    try discriminate; [constructor|].
  injection H as Hab Hl. constructor; [apply HR, Hab | apply IHl1, Hl].
Qed.

Lemma erased_start seed times1 times2 :
  erase_world (init_world seed times1) = erase_world (init_world seed times2).
Proof. reflexivity. Qed.

(** C8. For a fixed seed and the same reference data and configuration, two
    runs of the component and relationship generation, whatever the clock
    reads in each, both return, and their component lists and their
    relationship lists have the same length and agree, position by position,
    in every field except [created_at] and [updated_at]. *)
Theorem runs_agree_up_to_timestamps ref cfg seed times1 times2 :
  exists g1 g2,
    run ref cfg seed times1 = Some g1
    /\ run ref cfg seed times2 = Some g2
    /\ Forall2 same_component (components g1) (components g2)
    /\ Forall2 same_relationship (relationships g1) (relationships g2).
Proof.
  destruct (run_generated ref cfg seed times1) as (g1 & w1 & E1 & S1 & R1 & _).
  destruct (run_generated ref cfg seed times2) as (g2 & w2 & E2 & S2 & R2 & _).
  exists g1, g2. split; [exact R1|]. split; [exact R2|].
  pose proof (commutes_generate ref cfg (init_world seed times1)) as C1.
  pose proof (commutes_generate ref cfg (init_world seed times2)) as C2.
  rewrite E1 in C1. rewrite E2 in C2.
  rewrite (erased_start seed times1 times2) in C1. rewrite C1 in C2.
  assert (Hc := f_equal
    (option_map (fun r : unit * world => components (self (snd r)))) C2).
  assert (Hr := f_equal
    (option_map (fun r : unit * world => relationships (self (snd r)))) C2).
  cbn [option_map fst snd self erase_world components relationships
       erase_generator] in Hc, Hr.
  injection Hc as Hc. injection Hr as Hr. rewrite S1, S2 in Hc, Hr. split.
  - apply (map_eq_Forall2 erase_component); [exact erase_same_component | exact Hc].
  - apply (map_eq_Forall2 erase_relationship);
      [exact erase_same_relationship | exact Hr].
Qed.

End ClockClaim.
(* ===================================================================== *)
(** * Printed numbers read back *)
(* ===================================================================== *)

Section TextFacts.
Import PyStr PyStrSpec.











End TextFacts.
(* ===================================================================== *)
(** * The graph builder: how the filters compose, what the edges are *)
(* ===================================================================== *)

Section FilterFacts.
Import PyStr Graph GraphSpec.






End FilterFacts.

Section FilterClaims.
Import PyStr Graph GraphSpec.




End FilterClaims.

Section NeighborhoodFacts.
Import PyStr Graph GraphSpec.







End NeighborhoodFacts.

Section NeighborhoodClaims.
Import PyStr Graph GraphSpec.


End NeighborhoodClaims.

Section EdgeFacts.
Import PyStr Graph GraphSpec.




End EdgeFacts.

Section EdgeClaims.
Import PyStr Graph GraphSpec.




End EdgeClaims.
(* ===================================================================== *)
(** * The analytics engine: when it raises, how its counts relate *)
(* ===================================================================== *)

Section MetricsFacts.
Import Analytics AnalyticsSpec.

Ltac unbind H :=
  repeat match type of H with
    | _ ≫= _ = Some _ => let x := fresh "x" in let E := fresh "E" in
                         apply bind_Some in H as (x & E & H)
    | mbind _ _ = Some _ => let x := fresh "x" in let E := fresh "E" in
                         apply bind_Some in H as (x & E & H)
    end.















Lemma count_eq_bounds v s : 0 <= count_eq v s <= Z.of_nat (length s).
Proof.
  unfold count_eq. pose proof (List.filter_length_le (fun c => bool_decide (c = v)) s).
  lia.
Qed.










End MetricsFacts.

Section MetricsClaims.
Import Analytics AnalyticsSpec.







End MetricsClaims.
